(** * Supermarket checkout simulation

    A shallow embedding of [supermarket-checkout-simulation.py]: the
    catalog ([stock]) and the [cart] are the two global containers of the
    script, the terminal is a list of input events and a list of output
    events, and every function of the script is a computation in a small
    state-and-exception monad over that world.

    Conventions of the model.
    - A Python [str] is a [string]; the lines typed by the user are ASCII
      text.  [strip], [lower] and [capitalize] are the ASCII instances of
      the Python methods.
    - A Python [int] is a [Z]; a Python [float] is a binary64 primitive
      [float].
    - The terminal is one at which a user types: a Ctrl+D at a prompt makes
      [input] raise an [EOFError] without message, and the next [input]
      reads on; in front of no input the script waits.
    - The script is embedded twice.  The functions at the top level are the
      script when interrupts (Ctrl+C) arrive at its prompts only, as the
      [KeyboardInterrupt] that [input] raises; there [sleep] only delays.
      The functions of the module [Signals] are the script when an
      interrupt can arrive after any statement that acts on the world, the
      pauses of [sleep] included.  The two agree when no interrupt arrives
      between two statements ([quiet_main]).
    - [difflib.get_close_matches] is library code: the program is
      parametrised by it, and [difflib.get_close_matches] below is a model
      of the library function to instantiate it. *)

From Stdlib Require Import ZArith List String Ascii Floats Lia Bool.
From Stdlib Require Import DecimalString.
From Stdlib Require Import Permutation Sorted.
Import ListNotations.

Set Warnings "-inexact-float".

Open Scope string_scope.
Open Scope Z_scope.

(** ** Python strings *)

Definition nl : string := String (ascii_of_nat 10) EmptyString.

Definition ord (c : ascii) : Z := Z.of_N (N_of_ascii c).
Definition chr (n : Z) : ascii := ascii_of_N (Z.to_N n).

(** [str.isspace] on an ASCII character: TAB, LF, VT, FF, CR, the four
    separators FS, GS, RS, US, and the space. *)
Definition isspace (c : ascii) : bool :=
  let n := ord c in
  ((9 <=? n) && (n <=? 13)) || ((28 <=? n) && (n <=? 32)).

Fixpoint lstrip_of (space : ascii -> bool) (s : string) : string :=
  match s with
  | EmptyString => EmptyString
  | String c s' => if space c then lstrip_of space s' else s
  end.

Fixpoint rstrip_of (space : ascii -> bool) (s : string) : string :=
  match s with
  | EmptyString => EmptyString
  | String c s' =>
      match rstrip_of space s' with
      | EmptyString => if space c then EmptyString else String c EmptyString
      | r => String c r
      end
  end.

(** [s.strip()] *)
Definition strip (s : string) : string := rstrip_of isspace (lstrip_of isspace s).

Definition lower_char (c : ascii) : ascii :=
  let n := ord c in
  if (65 <=? n) && (n <=? 90) then chr (n + 32) else c.

Definition upper_char (c : ascii) : ascii :=
  let n := ord c in
  if (97 <=? n) && (n <=? 122) then chr (n - 32) else c.

Fixpoint lower (s : string) : string :=
  match s with
  | EmptyString => EmptyString
  | String c s' => String (lower_char c) (lower s')
  end.

Definition capitalize (s : string) : string :=
  match s with
  | EmptyString => EmptyString
  | String c s' => String (upper_char c) (lower s')
  end.

Fixpoint contains_char (c : ascii) (s : string) : bool :=
  match s with
  | EmptyString => false
  | String d s' => Ascii.eqb c d || contains_char c s'
  end.

(** [str(n)] for an integer. *)
Definition str (n : Z) : string := NilZero.string_of_int (Z.to_int n).

Definition hex_digit (n : Z) : ascii :=
  if n <? 10 then chr (48 + n) else chr (87 + n).

(** [repr(s)] for a string: the quote is the apostrophe unless the text has
    an apostrophe and no double quote; backslash, the quote and the control
    characters are escaped. *)
Definition repr_char (quote c : ascii) : string :=
  let n := ord c in
  if Ascii.eqb c quote || Ascii.eqb c "\"%char then String "\"%char (String c EmptyString)
  else if n =? 9 then "\t"
  else if n =? 10 then "\n"
  else if n =? 13 then "\r"
  else if (n <? 32) || (n =? 127) then
    String "\"%char (String "x"%char
      (String (hex_digit (n / 16)) (String (hex_digit (n mod 16)) EmptyString)))
  else String c EmptyString.

Fixpoint repr_body (quote : ascii) (s : string) : string :=
  match s with
  | EmptyString => EmptyString
  | String c s' => repr_char quote c ++ repr_body quote s'
  end.

Definition repr (s : string) : string :=
  let quote :=
    if contains_char "'"%char s && negb (contains_char (chr 34) s)
    then chr 34 else "'"%char in
  String quote (repr_body quote s) ++ String quote EmptyString.

(** ** Exceptions *)

Inductive exn : Type :=
| KeyboardInterrupt
| EOFError
| ValueError (msg : string)
| KeyError (key : string)
| IndexError
| OverflowError.

(** [type(e).__name__] *)
Definition type_name (e : exn) : string :=
  match e with
  | KeyboardInterrupt => "KeyboardInterrupt"
  | EOFError => "EOFError"
  | ValueError _ => "ValueError"
  | KeyError _ => "KeyError"
  | IndexError => "IndexError"
  | OverflowError => "OverflowError"
  end.

(** [str(e)].  The [EOFError] that [input] raises for a Ctrl+D typed at the
    terminal carries no message. *)
Definition exn_str (e : exn) : string :=
  match e with
  | KeyboardInterrupt => EmptyString
  | EOFError => EmptyString
  | ValueError msg => msg
  | KeyError key => repr key
  | IndexError => "list index out of range"
  | OverflowError => "int too large to convert to float"
  end.

(** [except Exception]: every exception of the model but
    [KeyboardInterrupt], which derives from [BaseException] only. *)
Definition is_Exception (e : exn) : bool :=
  match e with
  | KeyboardInterrupt => false
  | _ => true
  end.

(** ** Python numbers *)

Definition digit_value (c : ascii) : option Z :=
  let n := ord c in
  if (48 <=? n) && (n <=? 57) then Some (n - 48) else None.

(** The digits after the first one: single underscores may separate
    digits, and the literal may not end with one. *)
Fixpoint int_digits (acc : Z) (after_underscore : bool) (s : string) : option Z :=
  match s with
  | EmptyString => if after_underscore then None else Some acc
  | String c s' =>
      if Ascii.eqb c "_"%char then
        if after_underscore then None else int_digits acc true s'
      else
        match digit_value c with
        | Some d => int_digits (10 * acc + d) false s'
        | None => None
        end
  end.

Definition int_unsigned (s : string) : option Z :=
  match s with
  | EmptyString => None
  | String c s' =>
      match digit_value c with
      | Some d => int_digits d false s'
      | None => None
      end
  end.

(** The white space that [int] skips around an ASCII literal: TAB, LF,
    VT, FF, CR and the space (the separators FS to US are not skipped). *)
Definition int_space (c : ascii) : bool :=
  let n := ord c in
  ((9 <=? n) && (n <=? 13)) || (n =? 32).

(** [int(s)] for a string, base 10: surrounding white space, an optional
    sign, then the digits; [None] stands for the [ValueError].  (The
    optional limit on the number of digits of recent interpreters is not
    part of the model.) *)
Definition int_of_str (s : string) : option Z :=
  match rstrip_of int_space (lstrip_of int_space s) with
  | String "+"%char r => int_unsigned r
  | String "-"%char r => option_map Z.opp (int_unsigned r)
  | r => int_unsigned r
  end.

Definition int_error (s : string) : exn :=
  ValueError ("invalid literal for int() with base 10: " ++ repr s).

(** [float(n)] for an integer: the nearest binary64 value, ties to even;
    [None] stands for the [OverflowError] of an integer too large. *)
Definition float_of_int (n : Z) : option float :=
  let f := SF2Prim (binary_normalize prec emax n 0 false) in
  if PrimFloat.is_infinity f then None else Some f.

(** [n * x] for an integer [n] and a float [x]. *)
Definition int_mul_float (n : Z) (x : float) : option float :=
  match float_of_int n with
  | Some f => Some (PrimFloat.mul f x)
  | None => None
  end.

Definition round_half_even (num den : Z) : Z :=
  let q := num / den in
  let r := num mod den in
  if 2 * r <? den then q
  else if den <? 2 * r then q + 1
  else if Z.even q then q else q + 1.

Definition two_digits (n : Z) : string := str (n / 10) ++ str (n mod 10).

(** [f"{x:.2f}"]: the exact binary value, rounded to two decimals, ties to
    even. *)
Definition format_2f (x : float) : string :=
  match Prim2SF x with
  | S754_nan => "nan"
  | S754_infinity s => if s then "-inf" else "inf"
  | S754_zero s => (if s then "-" else EmptyString) ++ "0.00"
  | S754_finite s m e =>
      let hundredths :=
        if 0 <=? e then Z.pos m * 2 ^ e * 100
        else round_half_even (Z.pos m * 100) (2 ^ (- e)) in
      (if s then "-" else EmptyString)
        ++ str (hundredths / 100) ++ "." ++ two_digits (hundredths mod 100)
  end.

(** ** The library function [difflib.get_close_matches]

    A model of the standard library's [SequenceMatcher] (no junk
    predicate, automatic junk heuristic on), with the possibility as
    sequence [a] and the word as sequence [b], as [get_close_matches] sets
    them. *)

Module difflib.

Definition explode (s : string) : list ascii := list_ascii_of_string s.

Definition float_of_nat (n : nat) : float :=
  SF2Prim (binary_normalize prec emax (Z.of_nat n) 0 false).

(** [_calculate_ratio] *)
Definition calculate_ratio (matches length : nat) : float :=
  match length with
  | O => 1%float
  | _ => PrimFloat.div (PrimFloat.mul 2%float (float_of_nat matches))
                       (float_of_nat length)
  end.

Section SequenceMatcher.

Variables a b : list ascii.

Fixpoint positions (c : ascii) (from : nat) (l : list ascii) : list nat :=
  match l with
  | [] => []
  | d :: l' =>
      if Ascii.eqb c d then from :: positions c (S from) l'
      else positions c (S from) l'
  end.

(** [__chain_b]: the positions in [b] of each element, but nothing for
    an element that is popular in a [b] of 200 elements or more. *)
Definition b2j (c : ascii) : list nat :=
  let idxs := positions c 0 b in
  let n := List.length b in
  if (200 <=? n)%nat && (n / 100 + 1 <? List.length idxs)%nat then []
  else idxs.

Definition j2len_get (j2len : list (nat * nat)) (j : nat) : nat :=
  match List.find (fun p => Nat.eqb (fst p) j) j2len with
  | Some p => snd p
  | None => O
  end.

Definition Match : Type := (nat * nat * nat)%type.

(** The inner loop of [find_longest_match], over the positions [js] in
    [b] of the element [a[i]]. *)
Fixpoint scan_row (i blo bhi : nat) (j2len : list (nat * nat))
    (js : list nat) (newj2len : list (nat * nat)) (best : Match)
    : list (nat * nat) * Match :=
  match js with
  | [] => (newj2len, best)
  | j :: js' =>
      if (j <? blo)%nat then scan_row i blo bhi j2len js' newj2len best
      else if (bhi <=? j)%nat then (newj2len, best)
      else
        let k := S (match j with O => O | S j' => j2len_get j2len j' end) in
        let '(_, _, bestsize) := best in
        scan_row i blo bhi j2len js' ((j, k) :: newj2len)
          (if (bestsize <? k)%nat then (i + 1 - k, j + 1 - k, k)%nat else best)
  end.

Definition elem_eqb (x y : option ascii) : bool :=
  match x, y with
  | Some c, Some d => Ascii.eqb c d
  | _, _ => false
  end.

Fixpoint extend_left (fuel alo blo : nat) (best : Match) : Match :=
  let '(besti, bestj, bestsize) := best in
  match fuel with
  | O => best
  | S fuel' =>
      if (alo <? besti)%nat && (blo <? bestj)%nat
         && elem_eqb (nth_error a (besti - 1)) (nth_error b (bestj - 1))
      then extend_left fuel' alo blo (besti - 1, bestj - 1, S bestsize)%nat
      else best
  end.

Fixpoint extend_right (fuel ahi bhi : nat) (best : Match) : Match :=
  let '(besti, bestj, bestsize) := best in
  match fuel with
  | O => best
  | S fuel' =>
      if (besti + bestsize <? ahi)%nat && (bestj + bestsize <? bhi)%nat
         && elem_eqb (nth_error a (besti + bestsize))
                     (nth_error b (bestj + bestsize))
      then extend_right fuel' ahi bhi (besti, bestj, S bestsize)
      else best
  end.

(** [find_longest_match]; nothing is junk, so the two loops that extend
    the match over junk do nothing. *)
Definition find_longest_match (alo ahi blo bhi : nat) : Match :=
  let scanned :=
    fold_left
      (fun (st : list (nat * nat) * Match) (i : nat) =>
         let '(j2len, best) := st in
         match nth_error a i with
         | Some c => scan_row i blo bhi j2len (b2j c) [] best
         | None => ([], best)
         end)
      (seq alo (ahi - alo)) ([], (alo, blo, O)) in
  let best := snd scanned in
  extend_right ahi ahi bhi (extend_left ahi alo blo best).

(** [get_matching_blocks], up to the order and the merging of adjacent
    blocks, which the sum of the sizes does not see.  The queue is a
    stack whose top is the head of the list.  A block takes at least one
    element of [a] and queues at most two ranges, so that the ranges to
    look at are at most twice the length of [a], and one. *)
Fixpoint matching_blocks (fuel : nat) (queue : list (nat * nat * nat * nat))
    : list Match :=
  match fuel with
  | O => []
  | S fuel' =>
      match queue with
      | [] => []
      | (alo, ahi, blo, bhi) :: queue' =>
          let '(i, j, k) := find_longest_match alo ahi blo bhi in
          match k with
          | O => matching_blocks fuel' queue'
          | _ =>
              let q1 :=
                if (alo <? i)%nat && (blo <? j)%nat
                then (alo, i, blo, j) :: queue' else queue' in
              let q2 :=
                if (i + k <? ahi)%nat && (j + k <? bhi)%nat
                then (i + k, ahi, j + k, bhi)%nat :: q1 else q1 in
              (i, j, k) :: matching_blocks fuel' q2
          end
      end
  end.

Definition get_matching_blocks : list Match :=
  matching_blocks (2 * List.length a + 1)
    [(O, List.length a, O, List.length b)].

Definition ratio : float :=
  let matches :=
    fold_left (fun n (m : Match) => (n + snd m)%nat) get_matching_blocks O in
  calculate_ratio matches (List.length a + List.length b).

Fixpoint count (c : ascii) (l : list ascii) : Z :=
  match l with
  | [] => 0
  | d :: l' => (if Ascii.eqb c d then 1 else 0) + count c l'
  end.

Definition avail_get (avail : list (ascii * Z)) (c : ascii) : option Z :=
  option_map snd (List.find (fun p => Ascii.eqb (fst p) c) avail).

Definition quick_ratio : float :=
  let step (st : list (ascii * Z) * nat) (elt : ascii) :=
    let '(avail, matches) := st in
    let numb :=
      match avail_get avail elt with
      | Some n => n
      | None => count elt b
      end in
    ((elt, numb - 1) :: avail, if 0 <? numb then S matches else matches) in
  calculate_ratio (snd (fold_left step a ([], O)))
                  (List.length a + List.length b).

Definition real_quick_ratio : float :=
  calculate_ratio (Nat.min (List.length a) (List.length b))
                  (List.length a + List.length b).

End SequenceMatcher.

(** The order of the tuples [(score, x)]. *)
Definition scored_ltb (p q : float * string) : bool :=
  if PrimFloat.eqb (fst p) (fst q) then String.ltb (snd p) (snd q)
  else PrimFloat.ltb (fst p) (fst q).

Fixpoint insert_desc (p : float * string) (l : list (float * string))
    : list (float * string) :=
  match l with
  | [] => [p]
  | q :: l' => if scored_ltb p q then q :: insert_desc p l' else p :: l
  end.

(** [heapq.nlargest]: the [n] largest, in descending order. *)
Definition nlargest (n : nat) (l : list (float * string)) : list (float * string) :=
  firstn n (fold_right insert_desc [] l).

(** [get_close_matches(word, possibilities, n, cutoff)], for [n > 0] and a
    [cutoff] between 0 and 1. *)
Definition get_close_matches (word : string) (possibilities : list string)
    (n : nat) (cutoff : float) : list string :=
  let b := explode word in
  let result :=
    flat_map
      (fun x =>
         let a := explode x in
         if PrimFloat.leb cutoff (real_quick_ratio a b)
            && PrimFloat.leb cutoff (quick_ratio a b)
            && PrimFloat.leb cutoff (ratio a b)
         then [(ratio a b, x)] else [])
      possibilities in
  map snd (nlargest n result).

End difflib.

(** ** The world: the two global containers and the terminal *)

(** A catalog entry, the inner dictionary [{"price": ..., "quantity": ...}]. *)
Record Product : Type := mkProduct { price : float; quantity : Z }.

(** A dictionary from product names to entries, in insertion order. *)
Definition Stock : Type := list (string * Product).

(** A cart line, the tuple [(product, quantity, unit_price)]. *)
Definition CartLine : Type := (string * Z * float)%type.

Inductive input_event : Type :=
| Line (text : string)   (* a line typed by the user, without its newline *)
| CtrlC                  (* an interrupt *)
| CtrlD.                 (* an end of file *)

Inductive output_event : Type :=
| Printed (text : string)    (* [print(text)]: the text and a newline *)
| Prompted (text : string).  (* the prompt written by [input(text)] *)

Record World : Type := mkWorld {
  stock : Stock;
  cart : list CartLine;
  stdin : list input_event;
  stdout : list output_event
}.

Definition set_stock (st : Stock) (w : World) : World :=
  mkWorld st (cart w) (stdin w) (stdout w).
Definition set_cart (c : list CartLine) (w : World) : World :=
  mkWorld (stock w) c (stdin w) (stdout w).
Definition set_stdin (i : list input_event) (w : World) : World :=
  mkWorld (stock w) (cart w) i (stdout w).
Definition emit (o : output_event) (w : World) : World :=
  mkWorld (stock w) (cart w) (stdin w) (stdout w ++ [o])%list.

(** Initial stock (product -> {price, quantity}) *)
Definition initial_stock : Stock :=
  [ ("rice", mkProduct 5.50 10);
    ("beans", mkProduct 7.20 8);
    ("pasta", mkProduct 3.80 15);
    ("oil", mkProduct 6.00 5) ].

(** The state in which the script starts, in front of the input [ins]. *)
Definition initial_world (ins : list input_event) : World :=
  mkWorld initial_stock [] ins [].

(** *** Dictionary operations *)

Fixpoint dict_get (d : Stock) (k : string) : option Product :=
  match d with
  | [] => None
  | (k', v) :: d' => if String.eqb k k' then Some v else dict_get d' k
  end.

Definition dict_contains (d : Stock) (k : string) : bool :=
  match dict_get d k with Some _ => true | None => false end.

Definition keys (d : Stock) : list string := map fst d.

(** [d[k]["quantity"] = q] on a dictionary that has the key [k]. *)
Fixpoint dict_set_quantity (d : Stock) (k : string) (q : Z) : Stock :=
  match d with
  | [] => []
  | (k', v) :: d' =>
      if String.eqb k k' then (k', mkProduct (price v) q) :: d'
      else (k', v) :: dict_set_quantity d' k q
  end.

Fixpoint insert_sorted (x : string) (l : list string) : list string :=
  match l with
  | [] => [x]
  | y :: l' => if String.leb x y then x :: l else y :: insert_sorted x l'
  end.

(** [sorted(l)] for a list of strings *)
Definition sorted (l : list string) : list string :=
  fold_right insert_sorted [] l.

(** [enumerate(l, start)] *)
Fixpoint enumerate {A : Type} (l : list A) (start : Z) : list (Z * A) :=
  match l with
  | [] => []
  | x :: l' => (start, x) :: enumerate l' (start + 1)
  end.

Definition len {A : Type} (l : list A) : Z := Z.of_nat (List.length l).

(** [l[i]], a negative index counting from the end *)
Definition list_getitem {A : Type} (l : list A) (i : Z) : option A :=
  if i <? 0 then
    if len l + i <? 0 then None else nth_error l (Z.to_nat (len l + i))
  else nth_error l (Z.to_nat i).

(** ** The monad of the script: global state, terminal, exceptions *)

Inductive outcome (A : Type) : Type :=
| Return (a : A)   (* the computation ends with a value *)
| Raise (e : exn)  (* the computation ends with an exception *)
| Blocked          (* the input is used up: the computation waits in [input] *)
| OutOfFuel.       (* the bound on the iterations of a loop is reached *)

Arguments Return {A} a.
Arguments Raise {A} e.
Arguments Blocked {A}.
Arguments OutOfFuel {A}.

Definition M (A : Type) : Type := World -> outcome A * World.

Definition ret {A : Type} (a : A) : M A := fun w => (Return a, w).

Definition bind {A B : Type} (m : M A) (k : A -> M B) : M B :=
  fun w =>
    match m w with
    | (Return a, w') => k a w'
    | (Raise e, w') => (Raise e, w')
    | (Blocked, w') => (Blocked, w')
    | (OutOfFuel, w') => (OutOfFuel, w')
    end.

Definition raise {A : Type} (e : exn) : M A := fun w => (Raise e, w).

Notation "x <- m ;; k" := (bind m (fun x => k))
  (at level 61, m at next level, right associativity).
Notation "' pat <- m ;; k" := (bind m (fun x => match x with pat => k end))
  (at level 61, pat pattern, m at next level, right associativity).
Notation "m ;; k" := (bind m (fun _ => k))
  (at level 61, right associativity).

(** [try: m  except ...: handler e] *)
Definition try_except {A : Type} (m : M A) (handler : exn -> M A) : M A :=
  fun w =>
    match m w with
    | (Raise e, w') => handler e w'
    | r => r
    end.

(** What an iteration of a [while True] loop ends with: the next iteration
    ([continue], or the end of the body), or the [return] of the function
    (the [break] of the loop). *)
Inductive loop_ctl (A : Type) : Type :=
| Continue
| Break (a : A).

Arguments Continue {A}.
Arguments Break {A} a.

Fixpoint while_true {A : Type} (fuel : nat) (body : M (loop_ctl A)) : M A :=
  match fuel with
  | O => fun w => (OutOfFuel, w)
  | S fuel' =>
      c <- body ;;
      match c with
      | Continue => while_true fuel' body
      | Break a => ret a
      end
  end.

(** [for x in l: body x] *)
Fixpoint for_each {A : Type} (l : list A) (body : A -> M unit) : M unit :=
  match l with
  | [] => ret tt
  | x :: l' => body x ;; for_each l' body
  end.

(** [for x in l: acc = body acc x] *)
Fixpoint for_fold {A B : Type} (l : list A) (acc : B) (body : B -> A -> M B)
    : M B :=
  match l with
  | [] => ret acc
  | x :: l' => acc' <- body acc x ;; for_fold l' acc' body
  end.

Definition lift {A : Type} (o : option A) (e : exn) : M A :=
  match o with
  | Some a => ret a
  | None => raise e
  end.

(** *** Built-in operations *)

Definition print (text : string) : M unit :=
  fun w => (Return tt, emit (Printed text) w).

(** [input(prompt)] writes the prompt, then takes the next event of the
    terminal. *)
Definition input (prompt : string) : M string :=
  fun w =>
    let w' := emit (Prompted prompt) w in
    match stdin w with
    | [] => (Blocked, w')
    | Line text :: rest => (Return text, set_stdin rest w')
    | CtrlC :: rest => (Raise KeyboardInterrupt, set_stdin rest w')
    | CtrlD :: rest => (Raise EOFError, set_stdin rest w')
    end.

Definition sleep (seconds : float) : M unit := ret tt.

(** [int(s)] *)
Definition int (s : string) : M Z := lift (int_of_str s) (int_error s).

Definition get_stock : M Stock := fun w => (Return (stock w), w).
Definition get_cart : M (list CartLine) := fun w => (Return (cart w), w).

(** [stock[product]] *)
Definition stock_getitem (product : string) : M Product :=
  d <- get_stock ;; lift (dict_get d product) (KeyError product).

(** [stock[product]["quantity"] = q] *)
Definition stock_set_quantity (product : string) (q : Z) : M unit :=
  _ <- stock_getitem product ;;
  fun w => (Return tt, set_stock (dict_set_quantity (stock w) product q) w).

(** [cart.append(line)] *)
Definition cart_append (line : CartLine) : M unit :=
  fun w => (Return tt, set_cart (cart w ++ [line])%list w).

(** ** The script *)

Definition CURRENCY : string := "€".
Definition SLEEP_SHORT : float := 0.3.
Definition SLEEP_MED : float := 0.5.

Definition fmt_money (value : float) : string :=
  CURRENCY ++ " " ++ format_2f value.

Definition safe_input (prompt : string) : M string :=
  try_except (input prompt)
    (fun e =>
       match e with
       | KeyboardInterrupt | EOFError => raise e
       | _ => raise e
       end).

Definition read_positive_int_body (prompt : string) (minimum : Z)
    (maximum : option Z) : M (loop_ctl Z) :=
  try_except
    (line <- safe_input prompt ;;
     let value_str := strip line in
     value <- int value_str ;;
     if value <? minimum then
       print ("Attention: please enter an integer >= " ++ str minimum ++ ".") ;;
       ret Continue
     else if match maximum with Some m => m <? value | None => false end then
       print ("Attention: the maximum allowed is "
              ++ match maximum with Some m => str m | None => "None" end ++ ".") ;;
       ret Continue
     else ret (Break value))
    (fun e =>
       match e with
       | ValueError _ =>
           print "Invalid input: please enter an integer." ;;
           ret Continue
       | KeyboardInterrupt =>
           print (nl ++ "Operation cancelled by user.") ;;
           raise e
       | _ => raise e
       end).

Definition read_positive_int (fuel : nat) (prompt : string) (minimum : Z)
    (maximum : option Z) : M Z :=
  while_true fuel (read_positive_int_body prompt minimum maximum).

Definition show_stock : M unit :=
  print (nl ++ "=== AVAILABLE STOCK ===") ;;
  d <- get_stock ;;
  match d with
  | [] => print "No products available."
  | _ =>
      for_each (sorted (keys d))
        (fun product =>
           data <- stock_getitem product ;;
           print (capitalize product ++ " - Price: " ++ fmt_money (price data)
                  ++ " | " ++ "Quantity: " ++ str (quantity data)))
  end.

Definition show_total : M unit :=
  print (nl ++ "=== SHOPPING CART ===") ;;
  c <- get_cart ;;
  match c with
  | [] => print "Your cart is empty."
  | _ =>
      total <- for_fold c 0%float
        (fun total '(product, qty, price) =>
           subtotal <- lift (int_mul_float qty price) OverflowError ;;
           let total := PrimFloat.add total subtotal in
           print (capitalize product ++ " x" ++ str qty ++ " - "
                  ++ fmt_money subtotal) ;;
           ret total) ;;
      print (nl ++ "Total purchase value: " ++ fmt_money total)
  end.

(** ** Interrupts between two statements

    Python runs the handler of SIGINT between two instructions of the main
    thread: a Ctrl+C raises [KeyboardInterrupt] wherever the script is, not
    only where it waits in [input].  In this module every statement of the
    script that acts on the world (a [print], an [input], a [sleep], the
    [append] to the cart, the assignment to the catalog) is followed by a
    [checkpoint] that carries the line of the statement in the source:
    [interrupt_at line w] tells whether an interrupt reaches the script
    there, the statement having led to the world [w].  The functions above
    are the script when no interrupt arrives but at a prompt
    ([quiet_main]). *)

Module Signals.
Section Interrupts.

Variable interrupt_at : Z -> World -> bool.

Definition checkpoint (line : Z) : M unit :=
  fun w =>
    if interrupt_at line w then (Raise KeyboardInterrupt, w) else (Return tt, w).

Definition print (line : Z) (text : string) : M unit :=
  print text ;; checkpoint line.

Definition input (line : Z) (prompt : string) : M string :=
  text <- input prompt ;; checkpoint line ;; ret text.

(** [time.sleep] is left by a [KeyboardInterrupt] when the interrupt
    arrives during the pause. *)
Definition sleep (line : Z) (seconds : float) : M unit := checkpoint line.

Definition cart_append (line : Z) (l : CartLine) : M unit :=
  cart_append l ;; checkpoint line.

Definition stock_set_quantity (line : Z) (product : string) (q : Z) : M unit :=
  stock_set_quantity product q ;; checkpoint line.

Definition safe_input (prompt : string) : M string :=
  try_except (input 32 prompt)
    (fun e =>
       match e with
       | KeyboardInterrupt | EOFError => raise e
       | _ => raise e
       end).

Definition read_positive_int_body (prompt : string) (minimum : Z)
    (maximum : option Z) : M (loop_ctl Z) :=
  try_except
    (line <- safe_input prompt ;;
     let value_str := strip line in
     value <- int value_str ;;
     if value <? minimum then
       print 47 ("Attention: please enter an integer >= " ++ str minimum ++ ".") ;;
       ret Continue
     else if match maximum with Some m => m <? value | None => false end then
       print 50 ("Attention: the maximum allowed is "
                 ++ match maximum with Some m => str m | None => "None" end ++ ".") ;;
       ret Continue
     else ret (Break value))
    (fun e =>
       match e with
       | ValueError _ =>
           print 54 "Invalid input: please enter an integer." ;;
           ret Continue
       | KeyboardInterrupt =>
           print 56 (nl ++ "Operation cancelled by user.") ;;
           raise e
       | _ => raise e
       end).

Definition read_positive_int (fuel : nat) (prompt : string) (minimum : Z)
    (maximum : option Z) : M Z :=
  while_true fuel (read_positive_int_body prompt minimum maximum).

Definition show_stock : M unit :=
  print 62 (nl ++ "=== AVAILABLE STOCK ===") ;;
  d <- get_stock ;;
  match d with
  | [] => print 64 "No products available."
  | _ =>
      for_each (sorted (keys d))
        (fun product =>
           data <- stock_getitem product ;;
           print 69 (capitalize product ++ " - Price: " ++ fmt_money (price data)
                     ++ " | " ++ "Quantity: " ++ str (quantity data)))
  end.

Definition show_total : M unit :=
  print 142 (nl ++ "=== SHOPPING CART ===") ;;
  c <- get_cart ;;
  match c with
  | [] => print 144 "Your cart is empty."
  | _ =>
      total <- for_fold c 0%float
        (fun total '(product, qty, price) =>
           subtotal <- lift (int_mul_float qty price) OverflowError ;;
           let total := PrimFloat.add total subtotal in
           print 151 (capitalize product ++ " x" ++ str qty ++ " - "
                      ++ fmt_money subtotal) ;;
           ret total) ;;
      print 153 (nl ++ "Total purchase value: " ++ fmt_money total)
  end.

(** [from difflib import get_close_matches] *)
Variable get_close_matches : string -> list string -> nat -> float -> list string.

Definition choose_product_name_body (fuel : nat) : M (loop_ctl (option string)) :=
  try_except
    (line <- safe_input "Enter the product name (or 0 to cancel): " ;;
     let product := lower (strip line) in
     if String.eqb product "0" || String.eqb product EmptyString then ret (Break None)
     else
       d <- get_stock ;;
       if dict_contains d product then ret (Break (Some product))
       else
         let matches := get_close_matches product (keys d) 3%nat 0.6%float in
         match matches with
         | _ :: _ =>
             print 89 (nl ++ "Product not found. Did you mean:") ;;
             for_each (enumerate matches 1)
               (fun '(i, m) => print 91 (str i ++ ") " ++ capitalize m)) ;;
             print 92 "0) None of these (type again)" ;;
             choice <- read_positive_int fuel "Choose an option: " 0
                         (Some (len matches)) ;;
             if choice =? 0 then ret Continue
             else
               m <- lift (list_getitem matches (choice - 1)) IndexError ;;
               ret (Break (Some m))
         | [] =>
             print 98 ("Product not found and no suggestions. "
                       ++ "Use 'Show stock' to see available products.") ;;
             ret Continue
         end)
    (fun e =>
       match e with
       | KeyboardInterrupt =>
           print 100 (nl ++ "Action cancelled by user.") ;;
           ret (Break None)
       | _ => raise e
       end).

Definition choose_product_name (fuel : nat) : M (option string) :=
  while_true fuel (choose_product_name_body fuel).

Definition add_product (fuel : nat) : M unit :=
  try_except
    (chosen <- choose_product_name fuel ;;
     match chosen with
     | None | Some EmptyString => print 114 "No product selected."
     | Some product =>
         data <- stock_getitem product ;;
         let available := quantity data in
         if available <=? 0 then
           print 119 ("No stock available for '" ++ product ++ "'.")
         else
           quantity <- read_positive_int fuel
               ("Enter the desired quantity (available: " ++ str available ++ "): ")
               1 None ;;
           if available <? quantity then
             print 128 ("Not enough stock. Only " ++ str available ++ " left.")
           else
             data <- stock_getitem product ;;
             let unit_price := price data in
             cart_append 132 (product, quantity, unit_price) ;;
             stock_set_quantity 133 product (available - quantity) ;;
             print 135 (str quantity ++ "x " ++ product ++ " added to cart!")
     end)
    (fun e =>
       match e with
       | KeyboardInterrupt => print 137 (nl ++ "Action cancelled by user.")
       | _ => raise e
       end).

Definition menu_body (fuel : nat) : M (loop_ctl unit) :=
  print 159 (nl ++ "=== MENU ===") ;;
  print 160 "1) Show stock" ;;
  print 161 "2) Add product to cart" ;;
  print 162 "3) Checkout (show total)" ;;
  print 163 "4) Show final stock" ;;
  print 164 "0) Exit" ;;
  try_except
    (line <- safe_input "Choose an option: " ;;
     let option := strip line in
     sleep 168 SLEEP_SHORT ;;
     if String.eqb option "1" then show_stock ;; ret Continue
     else if String.eqb option "2" then add_product fuel ;; ret Continue
     else if String.eqb option "3" then show_total ;; ret Continue
     else if String.eqb option "4" then show_stock ;; ret Continue
     else if String.eqb option "0" then
       sleep 179 SLEEP_MED ;;
       print 180 "Exiting system..." ;;
       ret (Break tt)
     else print 183 "Invalid option! Try again." ;; ret Continue)
    (fun e =>
       match e with
       | KeyboardInterrupt =>
           print 186 (nl ++ "Interruption detected. To exit, choose option 0.") ;;
           ret Continue
       | _ =>
           print 188 ("Unexpected error: " ++ type_name e ++ ": " ++ exn_str e) ;;
           print 189 "The system will continue running." ;;
           ret Continue
       end).

Definition menu (fuel : nat) : M unit :=
  while_true fuel (menu_body fuel).

Definition main (fuel : nat) : M unit :=
  try_except (menu fuel)
    (fun e =>
       if is_Exception e then
         print 197 ("Critical unhandled error: " ++ type_name e ++ ": " ++ exn_str e) ;;
         print 198 "Exiting the program safely."
       else raise e).

End Interrupts.
End Signals.

Section Script.

(** [from difflib import get_close_matches] *)
Variable get_close_matches : string -> list string -> nat -> float -> list string.

Definition choose_product_name_body (fuel : nat) : M (loop_ctl (option string)) :=
  try_except
    (line <- safe_input "Enter the product name (or 0 to cancel): " ;;
     let product := lower (strip line) in
     if String.eqb product "0" || String.eqb product EmptyString then ret (Break None)
     else
       d <- get_stock ;;
       if dict_contains d product then ret (Break (Some product))
       else
         let matches := get_close_matches product (keys d) 3%nat 0.6%float in
         match matches with
         | _ :: _ =>
             print (nl ++ "Product not found. Did you mean:") ;;
             for_each (enumerate matches 1)
               (fun '(i, m) => print (str i ++ ") " ++ capitalize m)) ;;
             print "0) None of these (type again)" ;;
             choice <- read_positive_int fuel "Choose an option: " 0
                         (Some (len matches)) ;;
             if choice =? 0 then ret Continue
             else
               m <- lift (list_getitem matches (choice - 1)) IndexError ;;
               ret (Break (Some m))
         | [] =>
             print ("Product not found and no suggestions. "
                    ++ "Use 'Show stock' to see available products.") ;;
             ret Continue
         end)
    (fun e =>
       match e with
       | KeyboardInterrupt =>
           print (nl ++ "Action cancelled by user.") ;;
           ret (Break None)
       | _ => raise e
       end).

Definition choose_product_name (fuel : nat) : M (option string) :=
  while_true fuel (choose_product_name_body fuel).

Definition add_product (fuel : nat) : M unit :=
  try_except
    (chosen <- choose_product_name fuel ;;
     match chosen with
     | None | Some EmptyString => print "No product selected."
     | Some product =>
         data <- stock_getitem product ;;
         let available := quantity data in
         if available <=? 0 then
           print ("No stock available for '" ++ product ++ "'.")
         else
           quantity <- read_positive_int fuel
               ("Enter the desired quantity (available: " ++ str available ++ "): ")
               1 None ;;
           if available <? quantity then
             print ("Not enough stock. Only " ++ str available ++ " left.")
           else
             data <- stock_getitem product ;;
             let unit_price := price data in
             cart_append (product, quantity, unit_price) ;;
             stock_set_quantity product (available - quantity) ;;
             print (str quantity ++ "x " ++ product ++ " added to cart!")
     end)
    (fun e =>
       match e with
       | KeyboardInterrupt => print (nl ++ "Action cancelled by user.")
       | _ => raise e
       end).

Definition menu_body (fuel : nat) : M (loop_ctl unit) :=
  print (nl ++ "=== MENU ===") ;;
  print "1) Show stock" ;;
  print "2) Add product to cart" ;;
  print "3) Checkout (show total)" ;;
  print "4) Show final stock" ;;
  print "0) Exit" ;;
  try_except
    (line <- safe_input "Choose an option: " ;;
     let option := strip line in
     sleep SLEEP_SHORT ;;
     if String.eqb option "1" then show_stock ;; ret Continue
     else if String.eqb option "2" then add_product fuel ;; ret Continue
     else if String.eqb option "3" then show_total ;; ret Continue
     else if String.eqb option "4" then show_stock ;; ret Continue
     else if String.eqb option "0" then
       sleep SLEEP_MED ;;
       print "Exiting system..." ;;
       ret (Break tt)
     else print "Invalid option! Try again." ;; ret Continue)
    (fun e =>
       match e with
       | KeyboardInterrupt =>
           print (nl ++ "Interruption detected. To exit, choose option 0.") ;;
           ret Continue
       | _ =>
           print ("Unexpected error: " ++ type_name e ++ ": " ++ exn_str e) ;;
           print "The system will continue running." ;;
           ret Continue
       end).

Definition menu (fuel : nat) : M unit :=
  while_true fuel (menu_body fuel).

Definition main (fuel : nat) : M unit :=
  try_except (menu fuel)
    (fun e =>
       if is_Exception e then
         print ("Critical unhandled error: " ++ type_name e ++ ": " ++ exn_str e) ;;
         print "Exiting the program safely."
       else raise e).

(** The script on the input [ins].  Every iteration of every loop reads
    the terminal, so a bound above the number of input events is never
    reached ([total_menu_loop]). *)
Definition run (ins : list input_event) : outcome unit * World :=
  main (S (List.length ins)) (initial_world ins).

(** ** Vocabulary of the specification *)

(** The catalog and the cart are the same in [w] and [w']. *)
Definition same_store (w w' : World) : Prop :=
  stock w' = stock w /\ cart w' = cart w.

(** [w'] has read some of the input of [w]. *)
Definition input_suffix (w w' : World) : Prop :=
  exists consumed, stdin w = (consumed ++ stdin w')%list.

(** [w'] has written after the output of [w]. *)
Definition output_extends (w w' : World) : Prop :=
  exists out, stdout w' = (stdout w ++ out)%list.

(** Only the terminal differs. *)
Definition terminal_only (w w' : World) : Prop :=
  same_store w w' /\ input_suffix w w' /\ output_extends w w'.

(** Only the output differs. *)
Definition display_only (w w' : World) : Prop :=
  same_store w w' /\ stdin w' = stdin w /\ output_extends w w'.

(** What a computation writes from [w]. *)
Definition emitted {A : Type} (m : M A) (w : World) : list output_event :=
  skipn (List.length (stdout w)) (stdout (snd (m w))).

Definition emit_all (out : list output_event) (w : World) : World :=
  mkWorld (stock w) (cart w) (stdin w) (stdout w ++ out)%list.

(** A catalog entry against the entry it was seeded with. *)
Definition entry_ok (seeded current : string * Product) : Prop :=
  fst current = fst seeded
  /\ price (snd current) = price (snd seeded)
  /\ 0 <= quantity (snd current) <= quantity (snd seeded).

Definition catalog_ok (d : Stock) : Prop := Forall2 entry_ok initial_stock d.

(** A cart line holds a seeded product, its seeded price, and a quantity
    that the seeded quantity covers. *)
Definition line_ok (l : CartLine) : Prop :=
  let '(product, qty, unit_price) := l in
  exists seeded,
    dict_get initial_stock product = Some seeded
    /\ unit_price = price seeded
    /\ 1 <= qty <= quantity seeded.

Definition store_ok (w : World) : Prop :=
  catalog_ok (stock w) /\ Forall line_ok (cart w).

(** The subtotal of a line, [qty * price]. *)
Definition subtotal (l : CartLine) : option float :=
  let '(_, qty, unit_price) := l in int_mul_float qty unit_price.

(** The sum of the subtotals, accumulated from [acc] in the order of the
    lines. *)
Fixpoint cart_sum (acc : float) (c : list CartLine) : option float :=
  match c with
  | [] => Some acc
  | l :: c' =>
      match subtotal l with
      | Some s => cart_sum (PrimFloat.add acc s) c'
      | None => None
      end
  end.

(** The line that [show_total] prints for a cart line. *)
Definition line_report (l : CartLine) : option output_event :=
  let '(product, qty, _) := l in
  match subtotal l with
  | Some s =>
      Some (Printed (capitalize product ++ " x" ++ str qty ++ " - " ++ fmt_money s))
  | None => None
  end.

(** What [show_total] prints for the lines of a cart, and the total it
    reaches, if no subtotal overflows. *)
Fixpoint cart_report (acc : float) (c : list CartLine)
    : list output_event * option float :=
  match c with
  | [] => ([], Some acc)
  | l :: c' =>
      match line_report l, subtotal l with
      | Some o, Some s =>
          let (out, total) := cart_report (PrimFloat.add acc s) c' in
          (o :: out, total)
      | _, _ => ([], None)
      end
  end.

(** How [show_total] ends and what it prints, from the cart alone. *)
Definition show_total_view (c : list CartLine) : outcome unit * list output_event :=
  let header := Printed (nl ++ "=== SHOPPING CART ===") in
  match c with
  | [] => (Return tt, [header; Printed "Your cart is empty."])
  | _ =>
      match cart_report 0%float c with
      | (out, Some total) =>
          (Return tt,
           header :: out
             ++ [Printed (nl ++ "Total purchase value: " ++ fmt_money total)])%list
      | (out, None) => (Raise OverflowError, header :: out)
      end
  end.

(** The states of the menu loop, and the state after an iteration. *)
Inductive menu_state : Type := Running | Exiting.

Definition state_after (c : loop_ctl unit) : menu_state :=
  match c with
  | Continue => Running
  | Break _ => Exiting
  end.

(** What the menu prints on top of every iteration, and its prompt. *)
Definition menu_banner : list output_event :=
  [ Printed (nl ++ "=== MENU ===");
    Printed "1) Show stock";
    Printed "2) Add product to cart";
    Printed "3) Checkout (show total)";
    Printed "4) Show final stock";
    Printed "0) Exit";
    Prompted "Choose an option: " ].

(** What the menu does with the end of a handler. *)
Definition menu_resume (r : outcome unit * World) : outcome (loop_ctl unit) * World :=
  match r with
  | (Return _, w) => (Return Continue, w)
  | (Raise KeyboardInterrupt, w) =>
      (Return Continue,
       emit (Printed (nl ++ "Interruption detected. To exit, choose option 0.")) w)
  | (Raise e, w) =>
      (Return Continue,
       emit (Printed "The system will continue running.")
         (emit (Printed ("Unexpected error: " ++ type_name e ++ ": " ++ exn_str e)) w))
  | (Blocked, w) => (Blocked, w)
  | (OutOfFuel, w) => (OutOfFuel, w)
  end.

(** A computation steps along the relation [R]. *)
Definition respects {A : Type} (R : World -> World -> Prop) (m : M A) : Prop :=
  forall w, R w (snd (m w)).

(** [m'] does what [m] does wherever [m] does not run out of fuel. *)
Definition refines {A : Type} (m m' : M A) : Prop :=
  forall w o w', m w = (o, w') -> o <> OutOfFuel -> m' w = (o, w').

(** A computation that ends has read the terminal. *)
Definition consumes {A : Type} (m : M A) : Prop :=
  forall w,
    match m w with
    | (Blocked, _) | (OutOfFuel, _) => True
    | (_, w') => (List.length (stdin w') < List.length (stdin w))%nat
    end.

(** A computation does not run out of fuel in front of less than [n]
    input events. *)
Definition total_below {A : Type} (n : nat) (m : M A) : Prop :=
  forall w, (List.length (stdin w) < n)%nat -> fst (m w) <> OutOfFuel.

(** Two texts that differ by the case of their letters only. *)
Definition same_ignoring_case (s t : string) : Prop := lower s = lower t.

(** The list of suggestions that [choose_product_name] prints. *)
Definition suggestions (matches : list string) : list output_event :=
  (Printed (nl ++ "Product not found. Did you mean:")
   :: map (fun im => Printed (str (fst im) ++ ") " ++ capitalize (snd im)))
          (enumerate matches 1)
   ++ [Printed "0) None of these (type again)"])%list.

(** What [choose_product_name] does with the end of its prompt for a
    choice among [matches]; [again] is the next iteration. *)
Definition choose_resume (matches : list string) (again : M (option string))
    (r : outcome Z * World) : outcome (option string) * World :=
  match r with
  | (Return choice, w) =>
      if choice =? 0 then again w
      else
        match list_getitem matches (choice - 1) with
        | Some m => (Return (Some m), w)
        | None => (Raise IndexError, w)
        end
  | (Raise KeyboardInterrupt, w) =>
      (Return None, emit (Printed (nl ++ "Action cancelled by user.")) w)
  | (Raise e, w) => (Raise e, w)
  | (Blocked, w) => (Blocked, w)
  | (OutOfFuel, w) => (OutOfFuel, w)
  end.

(** The loop of [choose_product_name], with the fuel of the loop and the
    fuel of the prompts for a choice apart. *)
Definition choose_loop (n k : nat) : M (option string) :=
  while_true n (choose_product_name_body k).

(** The two updates of [add_product]: the line is appended to the cart,
    then the quantity of the product is set in the catalog. *)
Definition commit (product : string) (qty : Z) (unit_price : float) (left : Z)
    (w : World) : World :=
  let w' := set_cart (cart w ++ [(product, qty, unit_price)])%list w in
  set_stock (dict_set_quantity (stock w') product left) w'.

(** The prompt of [add_product] for a quantity. *)
Definition quantity_prompt (available : Z) : string :=
  "Enter the desired quantity (available: " ++ str available ++ "): ".

(** What [add_product] does once the product is chosen and in stock, with
    the end of its prompt for a quantity. *)
Definition add_resume (product : string) (data : Product)
    (r : outcome Z * World) : outcome unit * World :=
  match r with
  | (Return qty, w) =>
      if quantity data <? qty then
        (Return tt,
         emit (Printed ("Not enough stock. Only " ++ str (quantity data) ++ " left.")) w)
      else
        (Return tt,
         emit (Printed (str qty ++ "x " ++ product ++ " added to cart!"))
           (commit product qty (price data) (quantity data - qty) w))
  | (Raise KeyboardInterrupt, w) =>
      (Return tt, emit (Printed (nl ++ "Action cancelled by user.")) w)
  | (Raise e, w) => (Raise e, w)
  | (Blocked, w) => (Blocked, w)
  | (OutOfFuel, w) => (OutOfFuel, w)
  end.

(** What [add_product] does with the end of [choose_product_name]. *)
Definition add_chosen (fuel : nat) (r : outcome (option string) * World)
    : outcome unit * World :=
  match r with
  | (Return None, w) | (Return (Some EmptyString), w) =>
      (Return tt, emit (Printed "No product selected.") w)
  | (Return (Some product), w) =>
      match dict_get (stock w) product with
      | None => (Raise (KeyError product), w)
      | Some data =>
          if quantity data <=? 0 then
            (Return tt,
             emit (Printed ("No stock available for '" ++ product ++ "'.")) w)
          else
            add_resume product data
              (read_positive_int fuel (quantity_prompt (quantity data)) 1 None w)
      end
  | (Raise KeyboardInterrupt, w) =>
      (Return tt, emit (Printed (nl ++ "Action cancelled by user.")) w)
  | (Raise e, w) => (Raise e, w)
  | (Blocked, w) => (Blocked, w)
  | (OutOfFuel, w) => (OutOfFuel, w)
  end.

(** A property of the world that a step keeps. *)
Definition keeps (P : World -> Prop) (w w' : World) : Prop := P w -> P w'.

(** The states of the script: the initial state in front of any input, and
    the states that the operations and the menu lead to, whatever the user
    types next. *)
Inductive reachable : World -> Prop :=
| reachable_start (ins : list input_event) : reachable (initial_world ins)
| reachable_show_stock (w : World) :
    reachable w -> reachable (snd (show_stock w))
| reachable_add_product (fuel : nat) (w : World) :
    reachable w -> reachable (snd (add_product fuel w))
| reachable_show_total (w : World) :
    reachable w -> reachable (snd (show_total w))
| reachable_menu (fuel : nat) (w : World) :
    reachable w -> reachable (snd (menu fuel w))
| reachable_main (fuel : nat) (w : World) :
    reachable w -> reachable (snd (main fuel w))
| reachable_input (ins : list input_event) (w : World) :
    reachable w -> reachable (set_stdin ins w).

(** The loop of [menu], with the fuel of the loop and the fuel of the
    operations apart. *)
Definition menu_loop (n k : nat) : M unit := while_true n (menu_body k).

(** The state after 3 rice were added: 7 rice are left. *)
Definition after_rice (ins : list input_event) : World :=
  mkWorld (dict_set_quantity initial_stock "rice" 7) [("rice", 3, 5.5%float)] ins [].






(** *** Further vocabulary *)

(** A text made of decimal digits. *)
Fixpoint all_digits (s : string) : Prop :=
  match s with
  | EmptyString => True
  | String c s' => (48 <= ord c <= 57) /\ all_digits s'
  end.

(** A float that is a number: neither an infinity nor a NaN. *)
Definition is_amount (x : float) : Prop :=
  match Prim2SF x with
  | S754_zero _ | S754_finite _ _ _ => True
  | _ => False
  end.

(** The line [text] holds the integer [v], which [read_positive_int]
    accepts between [minimum] and [maximum]. *)
Definition acceptable (minimum : Z) (maximum : option Z) (text : string) (v : Z)
    : Prop :=
  int_of_str (strip text) = Some v
  /\ minimum <= v
  /\ (forall m, maximum = Some m -> v <= m).

(** The prompts among output events. *)
Fixpoint count_prompts (out : list output_event) : nat :=
  match out with
  | [] => O
  | Prompted _ :: out' => S (count_prompts out')
  | Printed _ :: out' => count_prompts out'
  end.

(** The quantity of a product that the lines of a cart hold. *)
Fixpoint cart_quantity (product : string) (c : list CartLine) : Z :=
  match c with
  | [] => 0
  | (name, qty, _) :: c' =>
      (if String.eqb product name then qty else 0) + cart_quantity product c'
  end.

(** What was seeded of every product is in the catalog or in the cart. *)
Definition conserved (d : Stock) (c : list CartLine) : Prop :=
  forall product seeded,
    dict_get initial_stock product = Some seeded ->
    exists data,
      dict_get d product = Some data
      /\ quantity data + cart_quantity product c = quantity seeded.

(** From [w] to [w'] the cart got lines at its end, and the catalog kept
    its keys and prices, no quantity going up. *)
Definition grows (w w' : World) : Prop :=
  (exists added, cart w' = (cart w ++ added)%list)
  /\ keys (stock w') = keys (stock w)
  /\ (forall product data',
        dict_get (stock w') product = Some data' ->
        exists data,
          dict_get (stock w) product = Some data
          /\ price data' = price data
          /\ quantity data' <= quantity data).

(** A property of the catalog and the cart, as a property of the world. *)
Definition on_store (P : Stock -> list CartLine -> Prop) (w : World) : Prop :=
  P (stock w) (cart w).

(** The line that [show_stock] prints for a product. *)
Definition stock_line (product : string) (data : Product) : output_event :=
  Printed (capitalize product ++ " - Price: " ++ fmt_money (price data)
           ++ " | " ++ "Quantity: " ++ str (quantity data)).

(** The two lines of the menu for an exception of a handler. *)
Definition error_report (e : exn) : list output_event :=
  [ Printed ("Unexpected error: " ++ type_name e ++ ": " ++ exn_str e);
    Printed "The system will continue running." ].

(** *** Interrupts *)

(** No interrupt arrives between two statements: the user interrupts the
    script at its prompts only, where [input] raises. *)
Definition quiet (interrupt_at : Z -> World -> bool) : Prop :=
  forall line w, interrupt_at line w = false.

(** Two computations that do the same in every world. *)
Definition agrees {A : Type} (m m' : M A) : Prop := forall w, m w = m' w.

(** The states of the script when interrupts arrive as [interrupt_at]
    tells. *)
Inductive reachable_under (interrupt_at : Z -> World -> bool) : World -> Prop :=
| under_start (ins : list input_event) :
    reachable_under interrupt_at (initial_world ins)
| under_show_stock (w : World) :
    reachable_under interrupt_at w ->
    reachable_under interrupt_at (snd (Signals.show_stock interrupt_at w))
| under_add_product (fuel : nat) (w : World) :
    reachable_under interrupt_at w ->
    reachable_under interrupt_at
      (snd (Signals.add_product interrupt_at get_close_matches fuel w))
| under_show_total (w : World) :
    reachable_under interrupt_at w ->
    reachable_under interrupt_at (snd (Signals.show_total interrupt_at w))
| under_menu (fuel : nat) (w : World) :
    reachable_under interrupt_at w ->
    reachable_under interrupt_at
      (snd (Signals.menu interrupt_at get_close_matches fuel w))
| under_main (fuel : nat) (w : World) :
    reachable_under interrupt_at w ->
    reachable_under interrupt_at
      (snd (Signals.main interrupt_at get_close_matches fuel w))
| under_input (ins : list input_event) (w : World) :
    reachable_under interrupt_at w ->
    reachable_under interrupt_at (set_stdin ins w).

(** The first of the two updates of [add_product] alone. *)
Definition half_commit (product : string) (qty : Z) (unit_price : float)
    (w : World) : World :=
  set_cart (cart w ++ [(product, qty, unit_price)])%list w.

(** [R] along a step that keeps the catalog and the cart. *)
Definition with_store (R : World -> World -> Prop) (w w' : World) : Prop :=
  R w w' /\ same_store w w'.

(** Where [add_product] can leave the world [w] when interrupts arrive
    anywhere: with the catalog and the cart as before; or, the product and
    the quantity being read in [w2], with the line appended to the cart
    and the catalog not yet updated, or with both updates. *)
Definition sale_end (R : World -> World -> Prop) (w w' : World) : Prop :=
  with_store R w w'
  \/ exists w2 product data qty out,
       with_store R w w2
       /\ dict_get (stock w2) product = Some data
       /\ 1 <= qty <= quantity data
       /\ (w' = emit_all out (half_commit product qty (price data) w2)
           \/ w' = emit_all out
                     (commit product qty (price data) (quantity data - qty) w2)).


(** What was seeded of every product is still in the catalog or in the
    cart. *)
Definition never_lost (d : Stock) (c : list CartLine) : Prop :=
  forall product seeded,
    dict_get initial_stock product = Some seeded ->
    exists data,
      dict_get d product = Some data
      /\ quantity seeded <= quantity data + cart_quantity product c.

(** ** The monad and its loops *)

(** Relations between the world before and the world after: a [Frame] is
    reflexive and transitive, and holds along what the terminal writes
    ([Writes]) or reads ([Reads]). *)
Class Frame (R : World -> World -> Prop) : Prop := {
  frame_refl : forall w, R w w;
  frame_trans : forall w1 w2 w3, R w1 w2 -> R w2 w3 -> R w1 w3
}.

Class Writes (R : World -> World -> Prop) : Prop :=
  frame_emit : forall w o, R w (emit o w).

Class Reads (R : World -> World -> Prop) : Prop :=
  frame_read : forall w i rest, stdin w = i :: rest -> R w (set_stdin rest w).

(** The relation holds along any update of the catalog or of the cart. *)
Class Stores (R : World -> World -> Prop) : Prop := {
  frame_set_cart : forall w c, R w (set_cart c w);
  frame_set_stock : forall w d, R w (set_stock d w)
}.

Section Respects.

Context (R : World -> World -> Prop) `{Frame R}.

Lemma respects_ret {A : Type} (a : A) : respects R (ret a).
Proof. intro w. apply frame_refl. Qed.

Lemma respects_raise {A : Type} (e : exn) : respects R (@raise A e).
Proof. intro w. apply frame_refl. Qed.

Lemma respects_lift {A : Type} (o : option A) (e : exn) : respects R (lift o e).
Proof. destruct o; [apply respects_ret | apply respects_raise]. Qed.

Lemma respects_bind {A B : Type} (m : M A) (k : A -> M B) :
  respects R m -> (forall a, respects R (k a)) -> respects R (bind m k).
Proof.
  intros Hm Hk w. unfold bind. specialize (Hm w).
  destruct (m w) as [[a | e | | ] w1]; simpl in *; auto.
  eapply frame_trans; [exact Hm | apply Hk].
Qed.

Lemma respects_try_except {A : Type} (m : M A) (h : exn -> M A) :
  respects R m -> (forall e, respects R (h e)) -> respects R (try_except m h).
Proof.
  intros Hm Hh w. unfold try_except. specialize (Hm w).
  destruct (m w) as [[a | e | | ] w1]; simpl in *; auto.
  eapply frame_trans; [exact Hm | apply Hh].
Qed.

Lemma respects_while_true {A : Type} (fuel : nat) (body : M (loop_ctl A)) :
  respects R body -> respects R (while_true fuel body).
Proof.
  intro Hb. induction fuel as [| fuel IH]; simpl.
  - intro w. apply frame_refl.
  - apply respects_bind; [exact Hb |].
    intros [| a]; [exact IH | apply respects_ret].
Qed.

Lemma respects_for_each {A : Type} (l : list A) (body : A -> M unit) :
  (forall x, respects R (body x)) -> respects R (for_each l body).
Proof.
  intro Hb. induction l as [| x l IH]; simpl.
  - apply respects_ret.
  - apply respects_bind; [apply Hb | intros _; exact IH].
Qed.

Lemma respects_for_fold {A B : Type} (l : list A) (acc : B) (body : B -> A -> M B) :
  (forall b x, respects R (body b x)) -> respects R (for_fold l acc body).
Proof.
  intro Hb. revert acc. induction l as [| x l IH]; simpl; intro acc.
  - apply respects_ret.
  - apply respects_bind; [apply Hb | intro b; apply IH].
Qed.

Lemma respects_sleep (seconds : float) : respects R (sleep seconds).
Proof. apply respects_ret. Qed.

Lemma respects_int (s : string) : respects R (int s).
Proof. apply respects_lift. Qed.

Lemma respects_get_stock : respects R get_stock.
Proof. intro w. apply frame_refl. Qed.

Lemma respects_get_cart : respects R get_cart.
Proof. intro w. apply frame_refl. Qed.

Lemma respects_stock_getitem (product : string) : respects R (stock_getitem product).
Proof.
  apply respects_bind; [apply respects_get_stock | intro; apply respects_lift].
Qed.

Context `{Writes R}.

Lemma respects_print (text : string) : respects R (print text).
Proof. intro w. apply frame_emit. Qed.

Context `{Reads R}.

Lemma respects_input (prompt : string) : respects R (input prompt).
Proof.
  intro w. unfold input.
  destruct (stdin w) as [| [text | | ] rest] eqn:E; simpl;
    try apply frame_emit;
    (eapply frame_trans;
     [apply frame_emit | eapply (frame_read (emit (Prompted prompt) w)); simpl; exact E]).
Qed.

Lemma respects_safe_input (prompt : string) : respects R (safe_input prompt).
Proof.
  apply respects_try_except; [apply respects_input |].
  intros [ | | | | | ]; apply respects_raise.
Qed.

End Respects.

(** Structural proof that a computation steps along a relation. *)
Ltac respects_step :=
  first
    [ progress intros
    | assumption
    | apply respects_ret | apply respects_raise | apply respects_lift
    | apply respects_print | apply respects_safe_input | apply respects_input
    | apply respects_sleep | apply respects_int
    | apply respects_get_stock | apply respects_get_cart
    | apply respects_stock_getitem
    | apply respects_bind | apply respects_try_except
    | apply respects_while_true | apply respects_for_each
    | apply respects_for_fold
    | match goal with
      | |- respects _ (match ?x with _ => _ end) => destruct x
      | |- respects _ (let _ := _ in _) => cbv zeta
      | |- Frame _ => typeclasses eauto
      | |- Writes _ => typeclasses eauto
      | |- Reads _ => typeclasses eauto
      end ].

Ltac respects_tac := repeat respects_step.

Section Functions.

Context (R : World -> World -> Prop) `{Frame R} `{Writes R}.

Lemma respects_show_stock : respects R show_stock.
Proof. unfold show_stock. respects_tac. Qed.

Lemma respects_show_total : respects R show_total.
Proof. unfold show_total. respects_tac. Qed.

Context `{Reads R}.

Lemma respects_read_positive_int (fuel : nat) (prompt : string) (minimum : Z)
    (maximum : option Z) :
  respects R (read_positive_int fuel prompt minimum maximum).
Proof. unfold read_positive_int, read_positive_int_body. respects_tac. Qed.

Lemma respects_choose_product_name (fuel : nat) :
  respects R (choose_product_name fuel).
Proof.
  unfold choose_product_name, choose_product_name_body.
  pose proof (respects_read_positive_int fuel) as Hr.
  respects_tac.
Qed.

End Functions.

Ltac frame_tac :=
  repeat first
    [ apply respects_show_stock | apply respects_show_total
    | apply respects_read_positive_int | apply respects_choose_product_name
    | respects_step ].

Lemma refines_refl {A : Type} (m : M A) : refines m m.
Proof. intros w o w' E _. exact E. Qed.

Lemma refines_bind {A B : Type} (m m' : M A) (k k' : A -> M B) :
  refines m m' -> (forall a, refines (k a) (k' a)) ->
  refines (bind m k) (bind m' k').
Proof.
  intros Hm Hk w o w' E Ho. unfold bind in *.
  destruct (m w) as [[a | e | | ] w1] eqn:Em.
  - rewrite (Hm _ _ _ Em) by discriminate. apply Hk; assumption.
  - rewrite (Hm _ _ _ Em) by discriminate. exact E.
  - rewrite (Hm _ _ _ Em) by discriminate. exact E.
  - inversion E; subst. contradiction.
Qed.

Lemma refines_try_except {A : Type} (m m' : M A) (h h' : exn -> M A) :
  refines m m' -> (forall e, refines (h e) (h' e)) ->
  refines (try_except m h) (try_except m' h').
Proof.
  intros Hm Hh w o w' E Ho. unfold try_except in *.
  destruct (m w) as [[a | e | | ] w1] eqn:Em.
  - rewrite (Hm _ _ _ Em) by discriminate. exact E.
  - rewrite (Hm _ _ _ Em) by discriminate. apply Hh; assumption.
  - rewrite (Hm _ _ _ Em) by discriminate. exact E.
  - inversion E; subst. contradiction.
Qed.

Lemma refines_while_true {A : Type} (n n' : nat) (body body' : M (loop_ctl A)) :
  (n <= n')%nat -> refines body body' ->
  refines (while_true n body) (while_true n' body').
Proof.
  intros Hn Hb. revert n' Hn.
  induction n as [| n IH]; intros n' Hn.
  - intros w o w' E Ho. inversion E; subst. contradiction.
  - destruct n' as [| n']; [lia |]. simpl.
    apply refines_bind; [exact Hb |].
    intros [| a]; [apply IH; lia | apply refines_refl].
Qed.

Lemma input_suffix_length (w w' : World) :
  input_suffix w w' -> (List.length (stdin w') <= List.length (stdin w))%nat.
Proof. intros [pre E]. rewrite E, length_app. lia. Qed.

Lemma consumes_input (prompt : string) : consumes (input prompt).
Proof.
  intro w. unfold input.
  destruct (stdin w) as [| [text | | ] rest]; simpl; auto.
Qed.

Lemma consumes_safe_input (prompt : string) : consumes (safe_input prompt).
Proof.
  intro w. generalize (consumes_input prompt w).
  unfold safe_input, try_except.
  destruct (input prompt w) as [[a | e | | ] w1]; auto.
  destruct e; auto.
Qed.

Lemma consumes_bind {A B : Type} (m : M A) (k : A -> M B) :
  consumes m -> (forall a, respects input_suffix (k a)) -> consumes (bind m k).
Proof.
  intros Hm Hk w. specialize (Hm w). unfold bind.
  destruct (m w) as [[a | e | | ] w1]; auto.
  specialize (Hk a w1). apply input_suffix_length in Hk.
  destruct (k a w1) as [[b | e | | ] w2]; simpl in *; auto; lia.
Qed.

Lemma consumes_try_except {A : Type} (m : M A) (h : exn -> M A) :
  consumes m -> (forall e, respects input_suffix (h e)) ->
  consumes (try_except m h).
Proof.
  intros Hm Hh w. specialize (Hm w). unfold try_except.
  destruct (m w) as [[a | e | | ] w1]; auto.
  specialize (Hh e w1). apply input_suffix_length in Hh.
  destruct (h e w1) as [[b | e' | | ] w2]; simpl in *; auto; lia.
Qed.

Lemma total_never {A : Type} (n : nat) (m : M A) :
  (forall w, fst (m w) <> OutOfFuel) -> total_below n m.
Proof. intros H w _. apply H. Qed.

Lemma total_bind {A B : Type} (n : nat) (m : M A) (k : A -> M B) :
  total_below n m -> respects input_suffix m ->
  (forall a, total_below n (k a)) -> total_below n (bind m k).
Proof.
  intros Hm Hs Hk w Hw. specialize (Hm w Hw). specialize (Hs w).
  apply input_suffix_length in Hs. unfold bind.
  destruct (m w) as [[a | e | | ] w1]; simpl in *; try discriminate.
  - apply Hk. lia.
  - contradiction.
Qed.

Lemma total_try_except {A : Type} (n : nat) (m : M A) (h : exn -> M A) :
  total_below n m -> respects input_suffix m ->
  (forall e, total_below n (h e)) -> total_below n (try_except m h).
Proof.
  intros Hm Hs Hh w Hw. specialize (Hm w Hw). specialize (Hs w).
  apply input_suffix_length in Hs. unfold try_except.
  destruct (m w) as [[a | e | | ] w1]; simpl in *; try discriminate.
  - apply Hh. lia.
  - contradiction.
Qed.

Lemma total_while_true {A : Type} (n fuel : nat) (body : M (loop_ctl A)) :
  (n <= fuel)%nat -> consumes body -> total_below n body ->
  total_below n (while_true fuel body).
Proof.
  intros Hn Hc Hb w Hw.
  assert (Hf : (List.length (stdin w) < fuel)%nat) by lia. clear Hn.
  revert w Hw Hf. induction fuel as [| fuel IH]; intros w Hw Hf; [lia |].
  simpl. unfold bind. specialize (Hc w). specialize (Hb w Hw).
  destruct (body w) as [[[| a] | e | | ] w1]; simpl in *; try discriminate.
  - apply IH; lia.
  - contradiction.
Qed.

Lemma total_for_each {A : Type} (n : nat) (l : list A) (body : A -> M unit) :
  (forall x, total_below n (body x)) ->
  (forall x, respects input_suffix (body x)) ->
  total_below n (for_each l body).
Proof.
  intros Hb Hs. induction l as [| x l IH]; simpl.
  - apply total_never. discriminate.
  - apply total_bind; auto.
Qed.


#[local] Instance same_store_frame : Frame same_store.
Proof.
  split.
  - intro w. split; reflexivity.
  - intros w1 w2 w3 [H1 H2] [H3 H4]. split; congruence.
Qed.

#[local] Instance same_store_writes : Writes same_store.
Proof. intros w o. split; reflexivity. Qed.

#[local] Instance same_store_reads : Reads same_store.
Proof. intros w i rest _. split; reflexivity. Qed.

#[local] Instance input_suffix_frame : Frame input_suffix.
Proof.
  split.
  - intro w. exists []. reflexivity.
  - intros w1 w2 w3 [p1 H1] [p2 H2]. exists (p1 ++ p2)%list.
    rewrite H1, H2, app_assoc. reflexivity.
Qed.

#[local] Instance input_suffix_writes : Writes input_suffix.
Proof. intros w o. exists []. reflexivity. Qed.

#[local] Instance input_suffix_reads : Reads input_suffix.
Proof. intros w i rest E. exists [i]. rewrite E. reflexivity. Qed.

#[local] Instance output_extends_frame : Frame output_extends.
Proof.
  split.
  - intro w. exists []. rewrite app_nil_r. reflexivity.
  - intros w1 w2 w3 [o1 H1] [o2 H2]. exists (o1 ++ o2)%list.
    rewrite H2, H1, app_assoc. reflexivity.
Qed.

#[local] Instance output_extends_writes : Writes output_extends.
Proof. intros w o. exists [o]. reflexivity. Qed.

#[local] Instance output_extends_reads : Reads output_extends.
Proof. intros w i rest _. exists []. simpl. rewrite app_nil_r. reflexivity. Qed.

#[local] Instance terminal_only_frame : Frame terminal_only.
Proof.
  split.
  - intro w. split; [| split]; apply frame_refl.
  - intros w1 w2 w3 (A1 & B1 & C1) (A2 & B2 & C2).
    split; [| split]; eapply frame_trans; eassumption.
Qed.

#[local] Instance terminal_only_writes : Writes terminal_only.
Proof. intros w o. split; [| split]; apply frame_emit. Qed.

#[local] Instance terminal_only_reads : Reads terminal_only.
Proof. intros w i rest E. split; [| split]; apply (frame_read _ _ _ E). Qed.

#[local] Instance display_only_frame : Frame display_only.
Proof.
  split.
  - intro w. split; [| split]; [apply frame_refl | reflexivity | apply frame_refl].
  - intros w1 w2 w3 (A1 & B1 & C1) (A2 & B2 & C2).
    split; [| split].
    + eapply frame_trans; eassumption.
    + congruence.
    + eapply frame_trans; eassumption.
Qed.

#[local] Instance display_only_writes : Writes display_only.
Proof.
  intros w o. split; [| split];
    [apply frame_emit | reflexivity | apply frame_emit].
Qed.

(** More fuel does not change what a function does. *)
Ltac refines_tac :=
  repeat first
    [ progress intros
    | assumption
    | apply refines_refl
    | apply refines_while_true; [lia |]
    | apply refines_bind | apply refines_try_except
    | match goal with
      | |- refines (match ?x with _ => _ end) _ => destruct x
      | |- refines (let _ := _ in _) _ => cbv zeta
      end ].

Lemma refines_read_positive_int (n n' : nat) (prompt : string) (minimum : Z)
    (maximum : option Z) :
  (n <= n')%nat ->
  refines (read_positive_int n prompt minimum maximum)
          (read_positive_int n' prompt minimum maximum).
Proof. intro Hn. unfold read_positive_int. refines_tac. Qed.

Lemma refines_choose_product_name (n n' : nat) :
  (n <= n')%nat -> refines (choose_product_name n) (choose_product_name n').
Proof.
  intro Hn. unfold choose_product_name, choose_product_name_body.
  pose proof (fun p mn mx => refines_read_positive_int n n' p mn mx Hn) as Hr.
  refines_tac; apply Hr.
Qed.

Lemma refines_add_product (n n' : nat) :
  (n <= n')%nat -> refines (add_product n) (add_product n').
Proof.
  intro Hn. unfold add_product.
  pose proof (fun p mn mx => refines_read_positive_int n n' p mn mx Hn) as Hr.
  pose proof (refines_choose_product_name n n' Hn) as Hc.
  refines_tac; apply Hr.
Qed.

Lemma refines_menu (n n' : nat) :
  (n <= n')%nat -> refines (menu n) (menu n').
Proof.
  intro Hn. unfold menu, menu_body.
  pose proof (refines_add_product n n' Hn) as Ha.
  refines_tac.
Qed.

Lemma refines_main (n n' : nat) :
  (n <= n')%nat -> refines (main n) (main n').
Proof.
  intro Hn. unfold main.
  pose proof (refines_menu n n' Hn) as Ha.
  refines_tac.
Qed.


Lemma total_ret {A : Type} (n : nat) (a : A) : total_below n (ret a).
Proof. apply total_never. discriminate. Qed.

Lemma total_raise {A : Type} (n : nat) (e : exn) : total_below n (@raise A e).
Proof. apply total_never. discriminate. Qed.

Lemma total_lift {A : Type} (n : nat) (o : option A) (e : exn) :
  total_below n (lift o e).
Proof. destruct o; [apply total_ret | apply total_raise]. Qed.

Lemma total_print (n : nat) (text : string) : total_below n (print text).
Proof. apply total_never. discriminate. Qed.

Lemma total_safe_input (n : nat) (prompt : string) :
  total_below n (safe_input prompt).
Proof.
  apply total_never. intro w. unfold safe_input, try_except, input.
  destruct (stdin w) as [| [text | | ] rest]; discriminate.
Qed.

Lemma total_get_stock (n : nat) : total_below n get_stock.
Proof. apply total_never. discriminate. Qed.

Lemma total_get_cart (n : nat) : total_below n get_cart.
Proof. apply total_never. discriminate. Qed.

Lemma total_for_fold {A B : Type} (n : nat) (l : list A) (acc : B)
    (body : B -> A -> M B) :
  (forall b x, total_below n (body b x)) ->
  (forall b x, respects input_suffix (body b x)) ->
  total_below n (for_fold l acc body).
Proof.
  intros Hb Hs. revert acc. induction l as [| x l IH]; simpl; intro acc.
  - apply total_ret.
  - apply total_bind; auto.
Qed.

Ltac total_tac :=
  repeat first
    [ progress intros
    | assumption
    | apply total_ret | apply total_raise | apply total_lift
    | apply total_print | apply total_safe_input
    | apply total_get_stock | apply total_get_cart
    | apply total_bind | apply total_try_except
    | apply total_for_each | apply total_for_fold
    | match goal with
      | |- total_below _ (match ?x with _ => _ end) => destruct x
      | |- total_below _ (let _ := _ in _) => cbv zeta
      | H : forall _ _ _, total_below _ _ |- total_below _ _ => apply H
      | |- respects input_suffix _ => solve [frame_tac]
      end ].



Lemma consumes_read_positive_int_body (prompt : string) (minimum : Z)
    (maximum : option Z) :
  consumes (read_positive_int_body prompt minimum maximum).
Proof.
  apply consumes_try_except;
    [apply consumes_bind; [apply consumes_safe_input |] |]; respects_tac.
Qed.

Lemma total_read_positive_int (n fuel : nat) (prompt : string) (minimum : Z)
    (maximum : option Z) :
  (n <= fuel)%nat ->
  total_below n (read_positive_int fuel prompt minimum maximum).
Proof.
  intro Hn. apply total_while_true;
    [exact Hn | apply consumes_read_positive_int_body |].
  unfold read_positive_int_body, int. total_tac.
Qed.

Lemma consumes_choose_product_name_body (fuel : nat) :
  consumes (choose_product_name_body fuel).
Proof.
  apply consumes_try_except;
    [apply consumes_bind; [apply consumes_safe_input |] |]; frame_tac.
Qed.


(** ** The quantity validator *)

(** One iteration of [read_positive_int] in front of an input event. *)
Lemma read_positive_int_step (fuel : nat) (prompt : string) (minimum : Z)
    (maximum : option Z) (w : World) (ev : input_event) (rest : list input_event) :
  stdin w = ev :: rest ->
  read_positive_int (S fuel) prompt minimum maximum w =
  let w1 := set_stdin rest (emit (Prompted prompt) w) in
  let again text := read_positive_int fuel prompt minimum maximum
                      (emit (Printed text) w1) in
  match ev with
  | Line text =>
      match int_of_str (strip text) with
      | None => again "Invalid input: please enter an integer."
      | Some v =>
          if v <? minimum then
            again ("Attention: please enter an integer >= " ++ str minimum ++ ".")
          else
            match maximum with
            | Some m =>
                if m <? v then
                  again ("Attention: the maximum allowed is " ++ str m ++ ".")
                else (Return v, w1)
            | None => (Return v, w1)
            end
      end
  | CtrlC =>
      (Raise KeyboardInterrupt,
       emit (Printed (nl ++ "Operation cancelled by user.")) w1)
  | CtrlD => (Raise EOFError, w1)
  end.
Proof.
  intro E. destruct w as [st c i o]. simpl in E. subst i.
  unfold read_positive_int. simpl while_true.
  unfold bind at 1, read_positive_int_body, try_except, bind, safe_input,
    try_except, input, int, lift.
  destruct ev as [text | | ]; simpl; try reflexivity.
  destruct (int_of_str (strip text)) as [v |]; simpl; [| reflexivity].
  destruct (v <? minimum); simpl; [reflexivity |].
  destruct maximum as [m |]; [| reflexivity].
  destruct (m <? v); reflexivity.
Qed.

Lemma read_positive_int_blocked (fuel : nat) (prompt : string) (minimum : Z)
    (maximum : option Z) (w : World) :
  stdin w = [] ->
  read_positive_int (S fuel) prompt minimum maximum w =
  (Blocked, emit (Prompted prompt) w).
Proof.
  intro E. destruct w as [st c i o]. simpl in E. subst i. reflexivity.
Qed.

(** As soon as the fuel exceeds the input, its amount is irrelevant. *)
Lemma fuel_irrelevant {A : Type} (f : nat -> M A) :
  (forall n n', (n <= n')%nat -> refines (f n) (f n')) ->
  (forall n, total_below n (f n)) ->
  forall n1 n2 w,
    (List.length (stdin w) < n1)%nat -> (List.length (stdin w) < n2)%nat ->
    f n1 w = f n2 w.
Proof.
  intros Hmono Htotal n1 n2 w H1 H2.
  pose (k := S (List.length (stdin w))).
  assert (Hk : fst (f k w) <> OutOfFuel) by (apply Htotal; unfold k; lia).
  destruct (f k w) as [o w'] eqn:E. simpl in Hk.
  rewrite (Hmono k n1 ltac:(unfold k; lia) w o w' E Hk).
  rewrite (Hmono k n2 ltac:(unfold k; lia) w o w' E Hk).
  reflexivity.
Qed.

Lemma read_positive_int_fuel (prompt : string) (minimum : Z) (maximum : option Z)
    (n1 n2 : nat) (w : World) :
  (List.length (stdin w) < n1)%nat -> (List.length (stdin w) < n2)%nat ->
  read_positive_int n1 prompt minimum maximum w =
  read_positive_int n2 prompt minimum maximum w.
Proof.
  apply (fuel_irrelevant (fun n => read_positive_int n prompt minimum maximum)).
  - intros. apply refines_read_positive_int. assumption.
  - intros. apply total_read_positive_int. lia.
Qed.

Lemma read_positive_int_range (fuel : nat) (prompt : string) (minimum : Z)
    (maximum : option Z) (w : World) (v : Z) (w' : World) :
  read_positive_int fuel prompt minimum maximum w = (Return v, w') ->
  minimum <= v /\ (forall m, maximum = Some m -> v <= m).
Proof.
  revert w. induction fuel as [| fuel IH]; intros w E; [discriminate |].
  destruct (stdin w) as [| ev rest] eqn:Ein.
  - rewrite read_positive_int_blocked in E by assumption. discriminate.
  - rewrite (read_positive_int_step _ _ _ _ _ _ _ Ein) in E. cbv zeta in E.
    destruct ev as [text | | ]; try discriminate.
    destruct (int_of_str (strip text)) as [x |]; [| eauto].
    destruct (x <? minimum) eqn:Emin; [eauto |].
    apply Z.ltb_ge in Emin.
    destruct maximum as [m |].
    + destruct (m <? x) eqn:Emax; [eauto |].
      apply Z.ltb_ge in Emax. inversion E; subst.
      split; [assumption |]. intros m' Hm. inversion Hm; subst. assumption.
    + inversion E; subst. split; [assumption | discriminate].
Qed.

(** What [read_positive_int] returns was the last line read, and the
    catalog and the cart are as before. *)
Lemma read_positive_int_returns (fuel : nat) (prompt : string) (minimum : Z)
    (maximum : option Z) (w : World) (v : Z) (w' : World) :
  read_positive_int fuel prompt minimum maximum w = (Return v, w') ->
  exists consumed text,
    stdin w = (consumed ++ Line text :: stdin w')%list
    /\ int_of_str (strip text) = Some v.
Proof.
  revert w. induction fuel as [| fuel IH]; intros w E; [discriminate |].
  destruct (stdin w) as [| ev rest] eqn:Ein.
  - rewrite read_positive_int_blocked in E by assumption. discriminate.
  - rewrite (read_positive_int_step _ _ _ _ _ _ _ Ein) in E. cbv zeta in E.
    assert (Hagain : forall msg,
      read_positive_int fuel prompt minimum maximum
        (emit (Printed msg) (set_stdin rest (emit (Prompted prompt) w)))
      = (Return v, w') ->
      exists consumed text,
        ev :: rest = (consumed ++ Line text :: stdin w')%list
        /\ int_of_str (strip text) = Some v).
    { intros msg E'. destruct (IH _ E') as (pre & text & Hpre & Hv).
      simpl in Hpre. exists (ev :: pre), text. rewrite Hpre. auto. }
    destruct ev as [text | | ]; try discriminate.
    destruct (int_of_str (strip text)) as [x |] eqn:Ex; [| eauto].
    destruct (x <? minimum); [eauto |].
    destruct maximum as [m |].
    + destruct (m <? x); [eauto |].
      inversion E; subst. exists [], text. simpl. auto.
    + inversion E; subst. exists [], text. simpl. auto.
Qed.

(** C6: the quantity validator returns only an integer between the
    minimum and the maximum (when there is one); a line that is not an
    integer, an integer below the minimum and an integer above the maximum
    each get their own message and a new prompt; a valid integer is
    returned; an interrupt is raised to the caller after its message. *)
Theorem read_positive_int_spec (prompt : string) (minimum : Z) (maximum : option Z) :
  let rpi fuel := read_positive_int fuel prompt minimum maximum in
  let read rest w := set_stdin rest (emit (Prompted prompt) w) in
  let not_integer := "Invalid input: please enter an integer." in
  let too_small := "Attention: please enter an integer >= " ++ str minimum ++ "." in
  let too_large m := "Attention: the maximum allowed is " ++ str m ++ "." in
  (forall fuel w v w',
     rpi fuel w = (Return v, w') ->
     minimum <= v /\ (forall m, maximum = Some m -> v <= m))
  /\ (forall fuel w text rest,
        (List.length (stdin w) < fuel)%nat ->
        stdin w = Line text :: rest ->
        int_of_str (strip text) = None ->
        rpi fuel w = rpi fuel (emit (Printed not_integer) (read rest w)))
  /\ (forall fuel w text rest v,
        (List.length (stdin w) < fuel)%nat ->
        stdin w = Line text :: rest ->
        int_of_str (strip text) = Some v ->
        v < minimum ->
        rpi fuel w = rpi fuel (emit (Printed too_small) (read rest w)))
  /\ (forall fuel w text rest v m,
        (List.length (stdin w) < fuel)%nat ->
        stdin w = Line text :: rest ->
        int_of_str (strip text) = Some v ->
        minimum <= v -> maximum = Some m -> m < v ->
        rpi fuel w = rpi fuel (emit (Printed (too_large m)) (read rest w)))
  /\ (forall fuel w text rest v,
        (List.length (stdin w) < fuel)%nat ->
        stdin w = Line text :: rest ->
        int_of_str (strip text) = Some v ->
        minimum <= v -> (forall m, maximum = Some m -> v <= m) ->
        rpi fuel w = (Return v, read rest w))
  /\ (forall m,
        not_integer <> too_small /\ not_integer <> too_large m
        /\ too_small <> too_large m)
  /\ (forall fuel w rest,
        (List.length (stdin w) < fuel)%nat ->
        stdin w = CtrlC :: rest ->
        rpi fuel w =
        (Raise KeyboardInterrupt,
         emit (Printed (nl ++ "Operation cancelled by user.")) (read rest w))).
Proof.
  cbv zeta.
  assert (Hstep : forall fuel w ev rest,
    (List.length (stdin w) < fuel)%nat -> stdin w = ev :: rest ->
    exists fuel',
      fuel = S fuel' /\ (List.length rest < fuel')%nat
      /\ forall msg,
           read_positive_int fuel' prompt minimum maximum
             (emit (Printed msg) (set_stdin rest (emit (Prompted prompt) w)))
           = read_positive_int fuel prompt minimum maximum
               (emit (Printed msg) (set_stdin rest (emit (Prompted prompt) w)))).
  { intros fuel w ev rest Hf E. rewrite E in Hf. simpl in Hf.
    destruct fuel as [| fuel']; [lia |]. exists fuel'.
    split; [reflexivity |]. split; [lia |].
    intro msg. apply read_positive_int_fuel; simpl; lia. }
  split; [| split; [| split; [| split; [| split; [| split]]]]].
  - intros fuel w v w'. apply read_positive_int_range.
  - intros fuel w text rest Hf E Hint.
    destruct (Hstep _ _ _ _ Hf E) as (fuel' & -> & _ & Hsame).
    rewrite (read_positive_int_step _ _ _ _ _ _ _ E). cbv zeta.
    rewrite Hint. apply Hsame.
  - intros fuel w text rest v Hf E Hint Hv.
    destruct (Hstep _ _ _ _ Hf E) as (fuel' & -> & _ & Hsame).
    rewrite (read_positive_int_step _ _ _ _ _ _ _ E). cbv zeta.
    rewrite Hint. apply Z.ltb_lt in Hv. rewrite Hv. apply Hsame.
  - intros fuel w text rest v m Hf E Hint Hmin -> Hmax.
    destruct (Hstep _ _ _ _ Hf E) as (fuel' & -> & _ & Hsame).
    rewrite (read_positive_int_step _ _ _ _ _ _ _ E). cbv zeta.
    rewrite Hint. apply Z.ltb_ge in Hmin. rewrite Hmin.
    apply Z.ltb_lt in Hmax. rewrite Hmax. apply Hsame.
  - intros fuel w text rest v Hf E Hint Hmin Hmax.
    destruct (Hstep _ _ _ _ Hf E) as (fuel' & -> & _ & _).
    rewrite (read_positive_int_step _ _ _ _ _ _ _ E). cbv zeta.
    rewrite Hint. apply Z.ltb_ge in Hmin. rewrite Hmin.
    destruct maximum as [m |]; [| reflexivity].
    specialize (Hmax m eq_refl). apply Z.ltb_ge in Hmax. rewrite Hmax.
    reflexivity.
  - intro m. simpl. repeat split; discriminate.
  - intros fuel w rest Hf E.
    destruct (Hstep _ _ _ _ Hf E) as (fuel' & -> & _ & _).
    rewrite (read_positive_int_step _ _ _ _ _ _ _ E). reflexivity.
Qed.

(** ** The product resolver *)

Lemma emit_all_nil (w : World) : emit_all [] w = w.
Proof. destruct w. unfold emit_all. simpl. rewrite app_nil_r. reflexivity. Qed.

Lemma emit_all_cons (o : output_event) (out : list output_event) (w : World) :
  emit_all (o :: out) w = emit_all out (emit o w).
Proof.
  destruct w. unfold emit_all, emit. simpl. rewrite <- app_assoc. reflexivity.
Qed.

Lemma emit_all_app (out1 out2 : list output_event) (w : World) :
  emit_all (out1 ++ out2) w = emit_all out2 (emit_all out1 w).
Proof.
  destruct w. unfold emit_all. simpl. rewrite app_assoc. reflexivity.
Qed.

Lemma emit_all_one (o : output_event) (w : World) : emit_all [o] w = emit o w.
Proof. reflexivity. Qed.

Lemma print_suggestions (matches : list (Z * string)) (w : World) :
  for_each matches (fun '(i, m) => print (str i ++ ") " ++ capitalize m)) w =
  (Return tt,
   emit_all (map (fun im => Printed (str (fst im) ++ ") " ++ capitalize (snd im)))
                 matches) w).
Proof.
  revert w. induction matches as [| [i m] l IH]; intro w; simpl.
  - rewrite emit_all_nil. reflexivity.
  - unfold bind. simpl. rewrite IH, emit_all_cons. reflexivity.
Qed.

Lemma safe_input_eq (prompt : string) (w : World) (ev : input_event)
    (rest : list input_event) :
  stdin w = ev :: rest ->
  safe_input prompt w =
  (match ev with
   | Line text => Return text
   | CtrlC => Raise KeyboardInterrupt
   | CtrlD => Raise EOFError
   end,
   set_stdin rest (emit (Prompted prompt) w)).
Proof.
  intro E. unfold safe_input, try_except, input. rewrite E.
  destruct ev; reflexivity.
Qed.

Lemma safe_input_blocked (prompt : string) (w : World) :
  stdin w = [] -> safe_input prompt w = (Blocked, emit (Prompted prompt) w).
Proof. intro E. unfold safe_input, try_except, input. rewrite E. reflexivity. Qed.

(** One iteration of the loop of [choose_product_name] in front of an
    input event. *)
Lemma choose_loop_step (n k : nat) (w : World) (ev : input_event)
    (rest : list input_event) :
  stdin w = ev :: rest ->
  choose_loop (S n) k w =
  let w1 := set_stdin rest
              (emit (Prompted "Enter the product name (or 0 to cancel): ") w) in
  match ev with
  | Line text =>
      let product := lower (strip text) in
      if String.eqb product "0" || String.eqb product EmptyString then (Return None, w1)
      else if dict_contains (stock w) product then (Return (Some product), w1)
      else
        match get_close_matches product (keys (stock w)) 3%nat 0.6%float with
        | [] =>
            choose_loop n k
              (emit (Printed ("Product not found and no suggestions. "
                              ++ "Use 'Show stock' to see available products."))
                    w1)
        | matches =>
            choose_resume matches (choose_loop n k)
              (read_positive_int k "Choose an option: " 0 (Some (len matches))
                 (emit_all (suggestions matches) w1))
        end
  | CtrlC =>
      (Return None, emit (Printed (nl ++ "Action cancelled by user.")) w1)
  | CtrlD => (Raise EOFError, w1)
  end.
Proof.
  intro E.
  change (choose_loop (S n) k w)
    with (bind (choose_product_name_body k)
            (fun c => match c with
                      | Continue => choose_loop n k
                      | Break a => ret a
                      end) w).
  generalize (choose_loop n k). intro again.
  unfold bind at 1, choose_product_name_body, try_except at 1, bind at 1.
  rewrite (safe_input_eq _ _ _ _ E).
  destruct ev as [text | | ]; cbv beta iota zeta; try reflexivity.
  destruct (String.eqb (lower (strip text)) "0"
            || String.eqb (lower (strip text)) EmptyString); [reflexivity |].
  unfold bind at 1, get_stock at 1. cbv beta iota.
  change (stock (set_stdin rest (emit ?o w))) with (stock w).
  destruct (dict_contains (stock w) (lower (strip text))); [reflexivity |].
  destruct (get_close_matches (lower (strip text)) (keys (stock w)) 3%nat 0.6%float)
    as [| m0 ms] eqn:Em; [reflexivity |].
  generalize dependent (m0 :: ms). intros matches _.
  unfold bind at 1, print at 1. cbv beta iota.
  unfold bind at 1. rewrite print_suggestions. cbv beta iota.
  unfold bind at 1, print at 1. cbv beta iota.
  unfold suggestions.
  rewrite emit_all_cons, emit_all_app, emit_all_one.
  unfold bind at 1.
  match goal with
  | |- context [read_positive_int k ?p ?a ?b ?x] =>
      destruct (read_positive_int k p a b x) as [[choice | e | | ] w3]
  end; unfold choose_resume; cbv beta iota; try reflexivity.
  - destruct (choice =? 0); [reflexivity |].
    unfold bind, lift.
    destruct (list_getitem matches (choice - 1)); reflexivity.
  - destruct e; reflexivity.
Qed.

Lemma refines_choose_loop (n k n' k' : nat) :
  (n <= n')%nat -> (k <= k')%nat ->
  refines (choose_loop n k) (choose_loop n' k').
Proof.
  intros Hn Hk. unfold choose_loop, choose_product_name_body.
  pose proof (fun p mn mx => refines_read_positive_int k k' p mn mx Hk) as Hr.
  refines_tac; apply Hr.
Qed.

Lemma total_choose_loop (m n k : nat) :
  (m <= n)%nat -> (m <= k)%nat -> total_below m (choose_loop n k).
Proof.
  intros Hn Hk. apply total_while_true;
    [exact Hn | apply consumes_choose_product_name_body |].
  pose proof (fun p mn mx => total_read_positive_int m k p mn mx Hk) as Ht.
  unfold choose_product_name_body. total_tac.
Qed.

Lemma choose_loop_fuel (n k n' k' : nat) (w : World) :
  (List.length (stdin w) < n)%nat -> (List.length (stdin w) < k)%nat ->
  (List.length (stdin w) < n')%nat -> (List.length (stdin w) < k')%nat ->
  choose_loop n k w = choose_loop n' k' w.
Proof.
  intros Hn Hk Hn' Hk'.
  pose (b := S (List.length (stdin w))).
  assert (Hb : fst (choose_loop b b w) <> OutOfFuel)
    by (apply (total_choose_loop b b b); unfold b; lia).
  destruct (choose_loop b b w) as [o w'] eqn:E. simpl in Hb.
  rewrite (refines_choose_loop b b n k ltac:(unfold b; lia) ltac:(unfold b; lia)
             w o w' E Hb).
  rewrite (refines_choose_loop b b n' k' ltac:(unfold b; lia) ltac:(unfold b; lia)
             w o w' E Hb).
  reflexivity.
Qed.

Lemma dict_contains_In (d : Stock) (k : string) :
  dict_contains d k = true <-> In k (keys d).
Proof.
  unfold dict_contains. induction d as [| [k' v] d IH]; simpl.
  - split; [discriminate | contradiction].
  - destruct (String.eqb k k') eqn:E.
    + apply String.eqb_eq in E. subst. split; auto.
    + apply String.eqb_neq in E. rewrite IH. split; [auto |].
      intros [H | H]; [congruence | exact H].
Qed.

Lemma list_getitem_nth {A : Type} (l : list A) (c : Z) :
  1 <= c <= len l ->
  exists x, nth_error l (Z.to_nat (c - 1)) = Some x
            /\ list_getitem l (c - 1) = Some x.
Proof.
  intros Hc. unfold list_getitem.
  destruct (c - 1 <? 0) eqn:E; [apply Z.ltb_lt in E; lia |].
  destruct (nth_error l (Z.to_nat (c - 1))) as [x |] eqn:En; [eauto |].
  apply nth_error_None in En. unfold len in Hc. lia.
Qed.

(** C5: the product resolver in front of a line of input.  A line that is
    a key of the catalog, up to the case of its letters and to the white
    space around it, is returned at once, the prompt for the name being
    all that is written; a blank line and the line 0 return no product;
    when no key is close to the line, the resolver writes so and prompts
    again; otherwise it offers the close matches, at most three of them,
    returns the match of the number chosen, and prompts again for the
    name when the choice is 0. *)
Theorem choose_product_name_spec (fuel : nat) (w : World) (text : string)
    (rest : list input_event) :
  (forall word possibilities n cutoff,
     (List.length (get_close_matches word possibilities n cutoff) <= n)%nat) ->
  (List.length (stdin w) < fuel)%nat ->
  stdin w = Line text :: rest ->
  let product := lower (strip text) in
  let matches := get_close_matches product (keys (stock w)) 3%nat 0.6%float in
  let w1 := set_stdin rest
              (emit (Prompted "Enter the product name (or 0 to cancel): ") w) in
  let w2 := emit_all (suggestions matches) w1 in
  let chosen rest' := set_stdin rest' (emit (Prompted "Choose an option: ") w2) in
  (keys (stock w) = keys initial_stock ->
   forall key, In key (keys (stock w)) -> same_ignoring_case (strip text) key ->
   choose_product_name fuel w = (Return (Some key), w1))
  /\ (strip text = EmptyString \/ strip text = "0" ->
      choose_product_name fuel w = (Return None, w1))
  /\ (product <> EmptyString -> product <> "0" ->
      dict_contains (stock w) product = false ->
      (matches = [] ->
       choose_product_name fuel w =
       choose_product_name fuel
         (emit (Printed ("Product not found and no suggestions. "
                         ++ "Use 'Show stock' to see available products.")) w1))
      /\ (matches <> [] ->
          (List.length matches <= 3)%nat
          /\ forall line rest' choice,
               rest = Line line :: rest' ->
               int_of_str (strip line) = Some choice ->
               (choice = 0 ->
                choose_product_name fuel w = choose_product_name fuel (chosen rest'))
               /\ (1 <= choice <= len matches ->
                   exists m,
                     nth_error matches (Z.to_nat (choice - 1)) = Some m
                     /\ choose_product_name fuel w = (Return (Some m), chosen rest')))).
Proof.
  intros Hgcm Hfuel E. cbv zeta.
  set (product := lower (strip text)).
  assert (Hlen := Hgcm product (keys (stock w)) 3%nat 0.6%float).
  remember (get_close_matches product (keys (stock w)) 3%nat 0.6%float)
    as matches eqn:Ematches.
  set (w1 := set_stdin rest
               (emit (Prompted "Enter the product name (or 0 to cancel): ") w)).
  set (w2 := emit_all (suggestions matches) w1).
  rewrite E in Hfuel. simpl in Hfuel.
  destruct fuel as [| n]; [lia |].
  change (choose_product_name (S n)) with (choose_loop (S n) (S n)).
  rewrite (choose_loop_step n (S n) w _ _ E). cbv zeta.
  fold product. fold w1. rewrite <- Ematches.
  assert (Hagain : forall w', stdin w' = rest \/ (exists l, rest = l :: stdin w') ->
            choose_loop n (S n) w' = choose_loop (S n) (S n) w').
  { intros w' Hw'. apply choose_loop_fuel;
      destruct Hw' as [-> | [l ->]]; simpl in *; lia. }
  split; [| split].
  - intros Hkeys key Hin Hcase.
    assert (Hp : product = key /\ String.eqb key "0" || String.eqb key EmptyString = false).
    { unfold same_ignoring_case in Hcase. unfold product. rewrite Hcase.
      rewrite Hkeys in Hin. simpl in Hin.
      destruct Hin as [<- | [<- | [<- | [<- | []]]]]; split; reflexivity. }
    destruct Hp as [-> Hp]. rewrite Hp.
    apply dict_contains_In in Hin. rewrite Hin. reflexivity.
  - intros Hblank.
    assert (Hp : String.eqb product "0" || String.eqb product EmptyString = true).
    { unfold product. destruct Hblank as [-> | ->]; reflexivity. }
    rewrite Hp. reflexivity.
  - intros Hne H0 Hnot.
    apply String.eqb_neq in Hne, H0. rewrite Hne, H0, Hnot. simpl orb. cbv iota.
    split.
    + intros ->. apply Hagain. left. reflexivity.
    + intros Hm. split; [exact Hlen |].
      intros line rest' choice Hrest Hint.
      assert (Hin2 : stdin w2 = Line line :: rest') by (rewrite <- Hrest; reflexivity).
      assert (Hmatch :
        forall (X : Type) (a : X) (b : list string -> X),
          match matches with [] => a | _ :: _ => b matches end = b matches)
        by (intros; destruct matches; [congruence | reflexivity]).
      clear Ematches.
      destruct matches as [| m0 ms]; [congruence |].
      generalize dependent (m0 :: ms). clear m0 ms. intros matches Hlen w2 Hm Hin2 _.
      fold w2.
      rewrite (read_positive_int_step n _ _ _ _ _ _ Hin2). cbv zeta.
      rewrite Hint.
      split.
      * intros ->. simpl. unfold choose_resume.
        destruct (len matches) eqn:El; try (unfold len in El; lia);
          simpl; apply Hagain; right; exists (Line line); exact Hrest.
      * intros Hc.
        destruct (list_getitem_nth matches choice Hc) as (m & Hnth & Hget).
        exists m. split; [exact Hnth |].
        assert (H1 : (choice <? 0) = false) by (apply Z.ltb_ge; lia).
        assert (H2 : (len matches <? choice) = false) by (apply Z.ltb_ge; lia).
        rewrite H1, H2. unfold choose_resume.
        assert (H3 : (choice =? 0) = false) by (apply Z.eqb_neq; lia).
        rewrite H3, Hget. reflexivity.
Qed.

(** ** Adding to the cart *)

Lemma add_product_eq (fuel : nat) (w : World) :
  add_product fuel w = add_chosen fuel (choose_product_name fuel w).
Proof.
  unfold add_product, try_except, bind at 1.
  destruct (choose_product_name fuel w) as [[[product |] | e | | ] w1];
    try reflexivity; [| destruct e; reflexivity].
  unfold add_chosen.
  destruct product as [| ch product]; [reflexivity |].
  generalize (String ch product). clear ch product. intro product.
  unfold bind at 1, stock_getitem at 1, bind at 1, get_stock at 1, lift at 1.
  cbv beta iota.
  destruct (dict_get (stock w1) product) as [data |] eqn:Eget; [| reflexivity].
  unfold ret at 1.
  destruct (quantity data <=? 0); [reflexivity |].
  unfold bind at 1. fold (quantity_prompt (quantity data)).
  destruct (read_positive_int fuel (quantity_prompt (quantity data)) 1 None w1)
    as [[qty | e | | ] w2] eqn:Eread; try reflexivity; [| destruct e; reflexivity].
  unfold add_resume.
  destruct (quantity data <? qty); [reflexivity |].
  assert (Hs : stock w2 = stock w1).
  { pose proof (respects_read_positive_int same_store fuel
                  (quantity_prompt (quantity data)) 1 None w1) as Hr.
    rewrite Eread in Hr. apply Hr. }
  unfold bind, stock_getitem, bind, get_stock, lift, cart_append,
    stock_set_quantity, bind, stock_getitem, bind, get_stock, lift, print, commit.
  cbv beta iota zeta. rewrite Hs, Eget. simpl. rewrite Hs, Eget.
  unfold ret. simpl. rewrite ?Hs. reflexivity.
Qed.

Lemma dict_get_set_same (d : Stock) (k : string) (q : Z) (v : Product) :
  dict_get d k = Some v ->
  dict_get (dict_set_quantity d k q) k = Some (mkProduct (price v) q).
Proof.
  induction d as [| [k' v'] d IH]; simpl; [discriminate |].
  destruct (String.eqb k k') eqn:E; simpl; rewrite E.
  - intro H. inversion H; subst. reflexivity.
  - exact IH.
Qed.

Lemma dict_get_set_other (d : Stock) (k k' : string) (q : Z) :
  k' <> k -> dict_get (dict_set_quantity d k q) k' = dict_get d k'.
Proof.
  intro Hne. induction d as [| [k0 v0] d IH]; simpl; [reflexivity |].
  destruct (String.eqb k k0) eqn:E; simpl.
  - apply String.eqb_eq in E. subst k0.
    apply String.eqb_neq in Hne. rewrite Hne. reflexivity.
  - rewrite IH. reflexivity.
Qed.

Lemma keys_set_quantity (d : Stock) (k : string) (q : Z) :
  keys (dict_set_quantity d k q) = keys d.
Proof.
  unfold keys. induction d as [| [k0 v0] d IH]; simpl; [reflexivity |].
  destruct (String.eqb k k0); simpl; [reflexivity | rewrite IH; reflexivity].
Qed.

(** Once the product is chosen and a quantity is read, [add_product] is
    left with the comparison of the quantity with the stock. *)
Lemma add_product_chosen (fuel : nat) (w : World) (product : string)
    (data : Product) (qty : Z) (w1 w2 : World) :
  product <> EmptyString ->
  dict_get (stock w) product = Some data ->
  0 < quantity data ->
  choose_product_name fuel w = (Return (Some product), w1) ->
  read_positive_int fuel (quantity_prompt (quantity data)) 1 None w1
    = (Return qty, w2) ->
  add_product fuel w = add_resume product data (Return qty, w2)
  /\ same_store w w2 /\ 1 <= qty.
Proof.
  intros Hne Hget Hpos Hchoose Hread.
  assert (H1 : same_store w w1).
  { pose proof (respects_choose_product_name same_store fuel w) as H.
    rewrite Hchoose in H. exact H. }
  assert (H2 : same_store w1 w2).
  { pose proof (respects_read_positive_int same_store fuel
                  (quantity_prompt (quantity data)) 1 None w1) as H.
    rewrite Hread in H. exact H. }
  split; [| split].
  - rewrite add_product_eq, Hchoose. unfold add_chosen.
    destruct product as [| ch product]; [congruence |].
    destruct H1 as [Hs1 _]. rewrite Hs1, Hget.
    apply Z.leb_gt in Hpos. rewrite Hpos, Hread. reflexivity.
  - eapply frame_trans; eassumption.
  - apply (read_positive_int_range _ _ _ _ _ _ _ Hread).
Qed.

(** C1: when the product is in the catalog with a positive quantity and
    the quantity asked is at most that quantity, [add_product] appends the
    line (product, quantity asked, price of the catalog) at the end of the
    cart, then sets the quantity of the product in the catalog to what is
    left; nothing else changes in the catalog.  From the initial stock,
    adding 3 rice gives the cart [("rice", 3, 5.50)], 7 rice in the
    catalog, and the total 16.50 at the checkout. *)
Theorem add_product_success :
  (forall fuel w product unit_price available qty w1 w2,
     product <> EmptyString ->
     dict_get (stock w) product = Some (mkProduct unit_price available) ->
     0 < available ->
     choose_product_name fuel w = (Return (Some product), w1) ->
     read_positive_int fuel (quantity_prompt available) 1 None w1
       = (Return qty, w2) ->
     qty <= available ->
     let w3 := commit product qty unit_price (available - qty) w2 in
     1 <= qty
     /\ add_product fuel w =
        (Return tt,
         emit (Printed (str qty ++ "x " ++ product ++ " added to cart!")) w3)
     /\ cart w3 = (cart w ++ [(product, qty, unit_price)])%list
     /\ stock w3 = dict_set_quantity (stock w) product (available - qty)
     /\ dict_get (stock w3) product = Some (mkProduct unit_price (available - qty))
     /\ (forall other, other <> product ->
           dict_get (stock w3) other = dict_get (stock w) other)
     /\ keys (stock w3) = keys (stock w))
  /\ (forall fuel rest,
        (2 < fuel)%nat ->
        exists w',
          add_product fuel (initial_world (Line "rice" :: Line "3" :: rest))
            = (Return tt, w')
          /\ cart w' = [("rice", 3, 5.5%float)]
          /\ dict_get (stock w') "rice" = Some (mkProduct 5.5 7)
          /\ stdin w' = rest
          /\ emitted show_total w' =
             [ Printed (nl ++ "=== SHOPPING CART ===");
               Printed "Rice x3 - € 16.50";
               Printed (nl ++ "Total purchase value: € 16.50") ]).
Proof.
  split.
  - intros fuel w product unit_price available qty w1 w2
      Hne Hget Hpos Hchoose Hread Hle w3.
    destruct (add_product_chosen fuel w product _ qty w1 w2
                Hne Hget Hpos Hchoose Hread) as (Heq & [Hs Hc] & Hqty).
    assert (Hstock : stock w3 = dict_set_quantity (stock w) product (available - qty)).
    { unfold w3, commit. simpl. rewrite Hs. reflexivity. }
    split; [exact Hqty |]. split; [| split; [| split; [| split; [| split]]]].
    + rewrite Heq. unfold add_resume. simpl.
      apply Z.ltb_ge in Hle. rewrite Hle. reflexivity.
    + unfold w3, commit. simpl. rewrite Hc. reflexivity.
    + exact Hstock.
    + rewrite Hstock. apply (dict_get_set_same _ _ _ _ Hget).
    + intros other Hother. rewrite Hstock. apply dict_get_set_other. exact Hother.
    + rewrite Hstock. apply keys_set_quantity.
  - intros fuel rest Hfuel.
    pose (w := initial_world (Line "rice" :: Line "3" :: rest)).
    destruct (add_product 3 w) as [o w'] eqn:E.
    assert (E' := E). vm_compute in E'. inversion E'; subst o w'. clear E'.
    exists (snd (add_product 3 w)). rewrite E.
    split; [| repeat split].
    apply (refines_add_product 3 fuel ltac:(lia) w _ _ E). discriminate.
Qed.

(** C2: with the product chosen and a quantity read (the validator hands
    over quantities from 1 on), a quantity that the stock covers is taken
    from the stock, which gets smaller by exactly that quantity; a
    quantity above the stock is refused with a message that shows the
    quantity left, and the catalog and the cart stay as they were. *)
Theorem add_product_stock_check (fuel : nat) (w : World) (product : string)
    (unit_price : float) (available qty : Z) (w1 w2 : World) :
  product <> EmptyString ->
  dict_get (stock w) product = Some (mkProduct unit_price available) ->
  0 < available ->
  choose_product_name fuel w = (Return (Some product), w1) ->
  read_positive_int fuel (quantity_prompt available) 1 None w1 = (Return qty, w2) ->
  1 <= qty
  /\ (qty <= available ->
      dict_get (stock (snd (add_product fuel w))) product
        = Some (mkProduct unit_price (available - qty))
      /\ available - qty < available)
  /\ (available < qty ->
      add_product fuel w =
      (Return tt,
       emit (Printed ("Not enough stock. Only " ++ str available ++ " left.")) w2)
      /\ stock (snd (add_product fuel w)) = stock w
      /\ cart (snd (add_product fuel w)) = cart w).
Proof.
  intros Hne Hget Hpos Hchoose Hread.
  destruct (add_product_chosen fuel w product _ qty w1 w2
              Hne Hget Hpos Hchoose Hread) as (Heq & [Hs Hc] & Hqty).
  rewrite Heq. unfold add_resume. simpl quantity. simpl price.
  split; [exact Hqty |]. split.
  - intro Hle. apply Z.ltb_ge in Hle. rewrite Hle. simpl. rewrite Hs.
    split; [apply (dict_get_set_same _ _ _ _ Hget) | lia].
  - intro Hgt. apply Z.ltb_lt in Hgt. rewrite Hgt. simpl.
    split; [reflexivity | split; assumption].
Qed.

(** [add_product] leaves the catalog and the cart as they were, or it ends
    with both updates done, after a line with the quantity. *)
Lemma add_product_cases (fuel : nat) (w : World) :
  same_store w (snd (add_product fuel w))
  \/ exists product data qty w2 consumed text,
       dict_get (stock w) product = Some data
       /\ 1 <= qty <= quantity data
       /\ same_store w w2
       /\ stdin w = (consumed ++ Line text :: stdin w2)%list
       /\ add_product fuel w =
          (Return tt,
           emit (Printed (str qty ++ "x " ++ product ++ " added to cart!"))
             (commit product qty (price data) (quantity data - qty) w2)).
Proof.
  rewrite add_product_eq.
  pose proof (respects_choose_product_name terminal_only fuel w) as H1.
  destruct (choose_product_name fuel w) as [[[product |] | e | | ] w1];
    simpl in H1; destruct H1 as (Hs1 & Hi1 & _);
    try (left; exact Hs1);
    try (left; apply (frame_trans _ _ _ Hs1); apply frame_emit);
    [| destruct e; left;
       solve [exact Hs1 | apply (frame_trans _ _ _ Hs1); apply frame_emit]].
  unfold add_chosen.
  destruct product as [| ch product];
    [left; apply (frame_trans _ _ _ Hs1); apply frame_emit |].
  generalize (String ch product). clear ch product. intro product.
  destruct (dict_get (stock w1) product) as [data |] eqn:Eget;
    [| left; exact Hs1].
  destruct (quantity data <=? 0);
    [left; apply (frame_trans _ _ _ Hs1); apply frame_emit |].
  pose proof (respects_read_positive_int same_store fuel
                (quantity_prompt (quantity data)) 1 None w1) as H2.
  destruct (read_positive_int fuel (quantity_prompt (quantity data)) 1 None w1)
    as [[qty | e | | ] w2] eqn:Eread; simpl in H2;
    pose proof (frame_trans _ _ _ Hs1 H2) as Hs2;
    try (left; exact Hs2);
    [| destruct e; left;
       solve [exact Hs2 | apply (frame_trans _ _ _ Hs2); apply frame_emit]].
  unfold add_resume.
  destruct (quantity data <? qty) eqn:Elt;
    [left; apply (frame_trans _ _ _ Hs2); apply frame_emit |].
  right. apply Z.ltb_ge in Elt.
  destruct (read_positive_int_range _ _ _ _ _ _ _ Eread) as [Hmin _].
  destruct (read_positive_int_returns _ _ _ _ _ _ _ Eread)
    as (consumed & text & Hin & _).
  destruct Hi1 as [consumed0 Hin0].
  exists product, data, qty, w2, (consumed0 ++ consumed)%list, text.
  destruct Hs1 as [Hst1 _].
  repeat split; try lia; try apply Hs2.
  - rewrite <- Hst1. exact Eget.
  - rewrite Hin0, Hin, app_assoc. reflexivity.
Qed.

(** *** Interrupts *)













(** ** The invariant of the catalog *)

Lemma entries_ok_get (seed d : Stock) (product : string) (data : Product) :
  Forall2 entry_ok seed d ->
  dict_get d product = Some data ->
  exists seeded,
    dict_get seed product = Some seeded
    /\ price data = price seeded
    /\ 0 <= quantity data <= quantity seeded.
Proof.
  induction 1 as [| [k0 v0] [k v] seed d (Hk & Hp & Hq) _ IH]; simpl;
    [discriminate |].
  simpl in Hk, Hp, Hq. subst k0.
  destruct (String.eqb product k); [| exact IH].
  intro H. inversion H; subst. exists v0. auto.
Qed.

Lemma entries_ok_keys (seed d : Stock) :
  Forall2 entry_ok seed d -> keys d = keys seed.
Proof.
  unfold keys. induction 1 as [| [k0 v0] [k v] seed d (Hk & _) _ IH]; simpl;
    [reflexivity |].
  simpl in Hk. rewrite Hk, IH. reflexivity.
Qed.

Lemma entries_ok_set (seed d : Stock) (product : string) (data : Product) (q : Z) :
  Forall2 entry_ok seed d ->
  dict_get d product = Some data ->
  0 <= q <= quantity data ->
  Forall2 entry_ok seed (dict_set_quantity d product q).
Proof.
  intros H Hget Hq. revert Hget.
  induction H as [| [k0 v0] [k v] seed d (Hk & Hp & Hv) Hrest IH]; simpl;
    [constructor |].
  simpl in Hk, Hp, Hv.
  destruct (String.eqb product k).
  - intro E. inversion E; subst. constructor; [| exact Hrest].
    repeat split; simpl; try assumption; lia.
  - intro E. constructor; [unfold entry_ok; simpl; auto | exact (IH E)].
Qed.

Lemma store_ok_commit (w : World) (product : string) (data : Product) (qty : Z) :
  store_ok w ->
  dict_get (stock w) product = Some data ->
  1 <= qty <= quantity data ->
  store_ok (commit product qty (price data) (quantity data - qty) w).
Proof.
  intros [Hcat Hcart] Hget Hq. split; unfold commit; simpl.
  - apply (entries_ok_set _ _ _ data); [assumption | assumption | lia].
  - apply Forall_app. split; [exact Hcart |].
    constructor; [| constructor].
    destruct (entries_ok_get _ _ _ _ Hcat Hget) as (seeded & Hs & Hp & Hb).
    exists seeded. repeat split; try assumption; lia.
Qed.

#[local] Instance keeps_frame (P : World -> Prop) : Frame (keeps P).
Proof. split; unfold keeps; auto. Qed.

#[local] Instance keeps_store_ok_writes : Writes (keeps store_ok).
Proof. intros w o H. exact H. Qed.

#[local] Instance keeps_store_ok_reads : Reads (keeps store_ok).
Proof. intros w i rest _ H. exact H. Qed.

Lemma same_store_ok (w w' : World) : same_store w w' -> store_ok w -> store_ok w'.
Proof. intros [Hs Hc] H. unfold store_ok. rewrite Hs, Hc. exact H. Qed.

Lemma add_product_keeps_store_ok (fuel : nat) :
  respects (keeps store_ok) (add_product fuel).
Proof.
  intros w Hok.
  destruct (add_product_cases fuel w) as
    [Hsame | (product & data & qty & w2 & pre & text & Hget & Hq & Hs & _ & Heq)].
  - exact (same_store_ok _ _ Hsame Hok).
  - rewrite Heq. simpl. apply (frame_emit (R := keeps store_ok)).
    apply store_ok_commit; [exact (same_store_ok _ _ Hs Hok) | | exact Hq].
    destruct Hs as [Hs _]. rewrite Hs. exact Hget.
Qed.

Lemma menu_keeps_store_ok (fuel : nat) : respects (keeps store_ok) (menu fuel).
Proof.
  pose proof (add_product_keeps_store_ok fuel) as Ha.
  unfold menu, menu_body. frame_tac.
Qed.

Lemma main_keeps_store_ok (fuel : nat) : respects (keeps store_ok) (main fuel).
Proof.
  pose proof (menu_keeps_store_ok fuel) as Hm.
  unfold main. frame_tac.
Qed.

Lemma initial_store_ok (ins : list input_event) : store_ok (initial_world ins).
Proof.
  split; simpl; [| constructor].
  unfold catalog_ok, initial_stock.
  repeat constructor; simpl; lia.
Qed.

Lemma reachable_store_ok (w : World) : reachable w -> store_ok w.
Proof.
  induction 1 as [ins | w _ IH | fuel w _ IH | w _ IH | fuel w _ IH
                 | fuel w _ IH | ins w _ IH].
  - apply initial_store_ok.
  - exact (respects_show_stock (keeps store_ok) w IH).
  - exact (add_product_keeps_store_ok fuel w IH).
  - exact (respects_show_total (keeps store_ok) w IH).
  - exact (menu_keeps_store_ok fuel w IH).
  - exact (main_keeps_store_ok fuel w IH).
  - exact IH.
Qed.

(** C4: in every state that the script reaches from the initial stock, the
    catalog has the products it was seeded with, each with a quantity that
    is not negative and with the price it was seeded with. *)
Theorem catalog_invariant (w : World) :
  reachable w ->
  keys (stock w) = keys initial_stock
  /\ forall product data,
       dict_get (stock w) product = Some data ->
       0 <= quantity data
       /\ exists seeded,
            dict_get initial_stock product = Some seeded
            /\ price data = price seeded.
Proof.
  intro H. destruct (reachable_store_ok w H) as [Hcat _]. split.
  - exact (entries_ok_keys _ _ Hcat).
  - intros product data Hget.
    destruct (entries_ok_get _ _ _ _ Hcat Hget) as (seeded & Hs & Hp & Hq).
    split; [lia | exists seeded; auto].
Qed.

(** ** The checkout *)

Lemma show_total_loop (c : list CartLine) (acc : float) (w : World) :
  for_fold c acc
    (fun total '(product, qty, price) =>
       subtotal <- lift (int_mul_float qty price) OverflowError ;;
       let total := PrimFloat.add total subtotal in
       print (capitalize product ++ " x" ++ str qty ++ " - " ++ fmt_money subtotal) ;;
       ret total) w
  = match cart_report acc c with
    | (out, Some total) => (Return total, emit_all out w)
    | (out, None) => (Raise OverflowError, emit_all out w)
    end.
Proof.
  revert acc w. induction c as [| [[product qty] unit_price] c IH]; intros acc w.
  - simpl. rewrite emit_all_nil. reflexivity.
  - simpl for_fold. simpl cart_report. unfold line_report, subtotal.
    unfold bind at 1, bind at 1, lift.
    destruct (int_mul_float qty unit_price) as [s |].
    + unfold ret at 1. unfold bind at 1, print at 1, ret at 1.
      rewrite IH.
      destruct (cart_report (PrimFloat.add acc s) c) as [out [total |]];
        rewrite emit_all_cons; reflexivity.
    + unfold raise. rewrite emit_all_nil. reflexivity.
Qed.

Lemma show_total_eq (w : World) :
  show_total w =
  (fst (show_total_view (cart w)), emit_all (snd (show_total_view (cart w))) w).
Proof.
  unfold show_total, show_total_view.
  unfold bind at 1, print at 1, bind at 1, get_cart at 1.
  change (cart (emit ?o w)) with (cart w).
  destruct (cart w) as [| l c];
    [simpl fst; simpl snd; rewrite emit_all_cons; reflexivity |].
  generalize (l :: c). clear l c. intro c.
  unfold bind at 1. rewrite show_total_loop.
  destruct (cart_report 0%float c) as [out [total |]]; simpl fst; simpl snd.
  - unfold print. rewrite emit_all_cons, emit_all_app. reflexivity.
  - rewrite emit_all_cons. reflexivity.
Qed.

Lemma cart_sum_report (acc : float) (c : list CartLine) :
  cart_sum acc c = snd (cart_report acc c).
Proof.
  revert acc. induction c as [| [[product qty] unit_price] c IH]; intro acc;
    [reflexivity |].
  simpl. unfold line_report, subtotal.
  destruct (int_mul_float qty unit_price) as [s |]; [| reflexivity].
  rewrite IH. destruct (cart_report (PrimFloat.add acc s) c). reflexivity.
Qed.

Lemma cart_report_lines (acc : float) (c : list CartLine) (total : float) :
  cart_sum acc c = Some total ->
  map line_report c = map Some (fst (cart_report acc c)).
Proof.
  revert acc. induction c as [| l c IH]; intros acc H; [reflexivity |].
  simpl in *. destruct l as [[product qty] unit_price].
  unfold line_report, subtotal in *.
  destruct (int_mul_float qty unit_price) as [s |]; [| discriminate].
  specialize (IH _ H).
  destruct (cart_report (PrimFloat.add acc s) c) as [out r]. simpl in *.
  rewrite IH. reflexivity.
Qed.

Lemma emitted_emit_all {A : Type} (m : M A) (o : outcome A)
    (out : list output_event) (w : World) :
  m w = (o, emit_all out w) -> emitted m w = out.
Proof.
  intro E. unfold emitted. rewrite E. simpl.
  rewrite skipn_app, skipn_all, Nat.sub_diag. reflexivity.
Qed.

Lemma float_of_small_int (q : Z) : 1 <= q <= 15 -> float_of_int q <> None.
Proof.
  intro H.
  assert (Hq : q = 1 \/ q = 2 \/ q = 3 \/ q = 4 \/ q = 5 \/ q = 6 \/ q = 7
               \/ q = 8 \/ q = 9 \/ q = 10 \/ q = 11 \/ q = 12 \/ q = 13
               \/ q = 14 \/ q = 15) by lia.
  repeat (destruct Hq as [-> | Hq]; [vm_compute; discriminate |]).
  subst. vm_compute. discriminate.
Qed.

Lemma cart_ok_sum (c : list CartLine) (acc : float) :
  Forall line_ok c -> exists total, cart_sum acc c = Some total.
Proof.
  intro H. revert acc.
  induction H as [| [[product qty] unit_price] c (seeded & Hs & _ & Hq) _ IH];
    intro acc; simpl; [eauto |].
  assert (Hsmall : 1 <= qty <= 15).
  { unfold initial_stock in Hs. simpl in Hs.
    repeat match type of Hs with
           | (if ?b then _ else _) = _ => destruct b
           end;
      try discriminate; inversion Hs; subst; simpl in Hq; lia. }
  unfold int_mul_float.
  destruct (float_of_int qty) eqn:E;
    [apply IH | exfalso; exact (float_of_small_int _ Hsmall E)].
Qed.

(** C3: the checkout prints, after the lines of the cart, the sum of the
    subtotals quantity × unit price of the lines, with the unit prices that
    the lines hold; what it does is the same whatever the catalog holds;
    an empty cart gets the message of the empty cart and no total.  In
    every state that the script reaches the sum is defined. *)
Theorem show_total_spec (w : World) :
  let header := Printed (nl ++ "=== SHOPPING CART ===") in
  (cart w = [] ->
   show_total w = (Return tt, emit_all [header; Printed "Your cart is empty."] w))
  /\ (cart w <> [] ->
      forall total, cart_sum 0%float (cart w) = Some total ->
      exists lines,
        map line_report (cart w) = map Some lines
        /\ show_total w =
           (Return tt,
            emit_all
              (header :: lines
                 ++ [Printed (nl ++ "Total purchase value: " ++ fmt_money total)])
              w))
  /\ (forall d,
        show_total (set_stock d w)
        = (fst (show_total w), set_stock d (snd (show_total w))))
  /\ (reachable w -> exists total, cart_sum 0%float (cart w) = Some total).
Proof.
  cbv zeta. split; [| split; [| split]].
  - intro E. rewrite show_total_eq, E. reflexivity.
  - intros Hne total Hsum.
    exists (fst (cart_report 0%float (cart w))).
    split; [exact (cart_report_lines _ _ _ Hsum) |].
    rewrite show_total_eq. unfold show_total_view.
    rewrite cart_sum_report in Hsum.
    destruct (cart w) as [| l c]; [congruence |].
    destruct (cart_report 0%float (l :: c)) as [out r]. simpl in Hsum. subst r.
    reflexivity.
  - intro d. rewrite !show_total_eq. reflexivity.
  - intro H. apply cart_ok_sum. apply (reachable_store_ok w H).
Qed.

(** C9: the checkout and the display of the stock change neither the
    catalog nor the cart (nor do they read the input); the checkout run
    any number of times in a row ends the same way and prints the same
    lines and the same total each time. *)
Theorem display_is_read_only (w : World) :
  display_only w (snd (show_total w))
  /\ display_only w (snd (show_stock w))
  /\ forall n,
       let wn := Nat.iter n (fun w' => snd (show_total w')) w in
       same_store w wn
       /\ fst (show_total wn) = fst (show_total w)
       /\ emitted show_total wn = emitted show_total w.
Proof.
  split; [apply respects_show_total; typeclasses eauto |].
  split; [apply respects_show_stock; typeclasses eauto |].
  assert (Hview : forall w0,
    fst (show_total w0) = fst (show_total_view (cart w0))
    /\ emitted show_total w0 = snd (show_total_view (cart w0))).
  { intro w0. split.
    - rewrite show_total_eq. reflexivity.
    - eapply emitted_emit_all. apply show_total_eq. }
  intro n. cbv zeta.
  assert (Hs : same_store w (Nat.iter n (fun w' => snd (show_total w')) w)).
  { induction n as [| n IH]; simpl; [apply frame_refl |].
    eapply frame_trans; [exact IH |].
    apply (respects_show_total same_store). }
  split; [exact Hs |].
  destruct Hs as [_ Hc].
  destruct (Hview w) as [H1 H2].
  destruct (Hview (Nat.iter n (fun w' => snd (show_total w')) w)) as [H3 H4].
  rewrite H1, H2, H3, H4, Hc. split; reflexivity.
Qed.

(** ** The menu *)

#[local] Instance input_suffix_stores : Stores input_suffix.
Proof. split; intros; exists []; reflexivity. Qed.

#[local] Instance output_extends_stores : Stores output_extends.
Proof. split; intros; exists []; simpl; rewrite app_nil_r; reflexivity. Qed.

Lemma respects_cart_append (R : World -> World -> Prop) `{Stores R}
    (line : CartLine) :
  respects R (cart_append line).
Proof. intro w. apply frame_set_cart. Qed.

Lemma respects_stock_set_quantity (R : World -> World -> Prop) `{Frame R}
    `{Stores R} (product : string) (q : Z) :
  respects R (stock_set_quantity product q).
Proof.
  unfold stock_set_quantity. apply respects_bind; [assumption | |].
  - apply respects_stock_getitem. assumption.
  - intros _ w. apply frame_set_stock.
Qed.

Ltac store_tac :=
  repeat first
    [ apply respects_cart_append | apply respects_stock_set_quantity
    | apply respects_show_stock | apply respects_show_total
    | apply respects_read_positive_int | apply respects_choose_product_name
    | respects_step
    | match goal with
      | |- Stores _ => typeclasses eauto
      end ].

Lemma respects_add_product (R : World -> World -> Prop) `{Frame R} `{Writes R}
    `{Reads R} `{Stores R} (fuel : nat) :
  respects R (add_product fuel).
Proof. unfold add_product. store_tac. Qed.

Lemma respects_menu_body (R : World -> World -> Prop) `{Frame R} `{Writes R}
    `{Reads R} `{Stores R} (fuel : nat) :
  respects R (menu_body fuel).
Proof.
  pose proof (respects_add_product R fuel) as Ha.
  unfold menu_body. store_tac.
Qed.










Lemma menu_body_blocked (fuel : nat) (w : World) :
  stdin w = [] -> menu_body fuel w = (Blocked, emit_all menu_banner w).
Proof.
  intro E. unfold menu_body, menu_banner.
  repeat (unfold bind at 1, print at 1; cbv beta iota).
  unfold try_except, bind at 1.
  rewrite safe_input_blocked by (simpl; exact E).
  rewrite !emit_all_cons, emit_all_nil. reflexivity.
Qed.

(** One iteration of the menu in front of an input event. *)
Lemma menu_body_step (fuel : nat) (w : World) (ev : input_event)
    (rest : list input_event) :
  stdin w = ev :: rest ->
  menu_body fuel w =
  let w0 := set_stdin rest (emit_all menu_banner w) in
  match ev with
  | Line text =>
      let option := strip text in
      if String.eqb option "1" then menu_resume (show_stock w0)
      else if String.eqb option "2" then menu_resume (add_product fuel w0)
      else if String.eqb option "3" then menu_resume (show_total w0)
      else if String.eqb option "4" then menu_resume (show_stock w0)
      else if String.eqb option "0" then
        (Return (Break tt), emit (Printed "Exiting system...") w0)
      else (Return Continue, emit (Printed "Invalid option! Try again.") w0)
  | CtrlC => menu_resume (Raise KeyboardInterrupt, w0)
  | CtrlD => menu_resume (Raise EOFError, w0)
  end.
Proof.
  intro E. unfold menu_body, menu_banner.
  repeat (unfold bind at 1, print at 1; cbv beta iota).
  unfold try_except, bind at 1.
  rewrite (safe_input_eq _ _ ev rest) by (simpl; exact E).
  rewrite !emit_all_cons, emit_all_nil.
  destruct ev as [text | | ]; cbv beta iota zeta; try reflexivity.
  unfold bind at 1, sleep at 1, ret at 1.
  repeat match goal with
         | |- context [String.eqb (strip text) ?s] =>
             destruct (String.eqb (strip text) s)
         end;
    try reflexivity;
    unfold bind at 1;
    match goal with
    | |- context [menu_resume (?h ?x)] =>
        destruct (h x) as [[[] | e | | ] w1]
    end; try reflexivity; destruct e; reflexivity.
Qed.

Lemma menu_resume_running (r : outcome unit * World) :
  match menu_resume r with
  | (Return c, _) => state_after c = Running
  | (Raise _, _) => False
  | (Blocked, _) => fst r = Blocked
  | (OutOfFuel, _) => fst r = OutOfFuel
  end.
Proof. destruct r as [[[] | e | | ] w]; try destruct e; reflexivity. Qed.

Lemma menu_body_outcome (fuel : nat) (w : World) :
  match menu_body fuel w with
  | (Return Continue, _) => True
  | (Return (Break _), w') =>
      exists text rest,
        stdin w = Line text :: rest /\ strip text = "0"
        /\ w' = emit (Printed "Exiting system...")
                  (set_stdin rest (emit_all menu_banner w))
  | (Raise _, _) => False
  | (Blocked, _) | (OutOfFuel, _) => True
  end.
Proof.
  destruct (stdin w) as [| ev rest] eqn:E.
  - rewrite menu_body_blocked by exact E. exact I.
  - rewrite (menu_body_step _ _ _ _ E). cbv zeta.
    assert (Hr : forall r,
      match menu_resume r with
      | (Return Continue, _) => True
      | (Return (Break _), w') =>
          exists text rest0,
            ev :: rest = Line text :: rest0 /\ strip text = "0"
            /\ w' = emit (Printed "Exiting system...")
                      (set_stdin rest0 (emit_all menu_banner w))
      | (Raise _, _) => False
      | (Blocked, _) | (OutOfFuel, _) => True
      end).
    { intro r. generalize (menu_resume_running r).
      destruct (menu_resume r) as [[[| []] | e | | ] w']; simpl; auto.
      discriminate. }
    destruct ev as [text | | ]; try apply Hr.
    repeat match goal with
           | |- context [String.eqb (strip text) ?s] =>
               destruct (String.eqb (strip text) s) eqn:?
           end; try apply Hr; try exact I.
    exists text, rest. repeat split.
    apply String.eqb_eq. assumption.
Qed.

Lemma menu_loop_outcome (n k : nat) (w : World) :
  match menu_loop n k w with
  | (Return _, w') =>
      exists consumed text out,
        stdin w = (consumed ++ Line text :: stdin w')%list
        /\ strip text = "0"
        /\ stdout w' = (out ++ [Printed "Exiting system..."])%list
  | (Raise _, _) => False
  | (Blocked, _) | (OutOfFuel, _) => True
  end.
Proof.
  revert w. induction n as [| n IH]; intro w; [exact I |].
  change (menu_loop (S n) k w)
    with (bind (menu_body k)
            (fun c => match c with
                      | Continue => menu_loop n k
                      | Break a => ret a
                      end) w).
  unfold bind.
  pose proof (menu_body_outcome k w) as Hb.
  pose proof (respects_menu_body input_suffix k w) as Hs.
  destruct (menu_body k w) as [[[| []] | e | | ] w1]; simpl in Hs; auto.
  - specialize (IH w1).
    destruct (menu_loop n k w1) as [[[] | e | | ] w']; auto.
    destruct IH as (consumed & text & out & Hin & H0 & Hout).
    destruct Hs as [consumed0 Hin0].
    exists (consumed0 ++ consumed)%list, text, out.
    rewrite Hin0, Hin, app_assoc. auto.
  - destruct Hb as (text & rest & Hin & H0 & ->).
    exists [], text, (stdout (emit_all menu_banner w)). simpl. auto.
Qed.


(** C10: the options 4 and 1 of the menu run the same operation: from the
    same state, in front of the same remaining input, the iteration of
    the menu ends the same way, with the same output and the same state,
    and so does the rest of the loop; the catalog and the cart are as
    before. *)
Theorem final_stock_is_show_stock (fuel : nat) (w : World) (one four : string)
    (rest : list input_event) :
  strip one = "1" -> strip four = "4" ->
  let w1 := set_stdin (Line one :: rest) w in
  let w4 := set_stdin (Line four :: rest) w in
  menu_body fuel w4 = menu_body fuel w1
  /\ ((0 < fuel)%nat -> menu fuel w4 = menu fuel w1)
  /\ menu_body fuel w1
     = menu_resume (show_stock (set_stdin rest (emit_all menu_banner w)))
  /\ same_store w (snd (menu_body fuel w4))
  /\ same_store w (snd (menu_body fuel w1)).
Proof.
  intros H1 H4 w1 w4.
  assert (E1 : menu_body fuel w1
               = menu_resume (show_stock (set_stdin rest (emit_all menu_banner w)))).
  { rewrite (menu_body_step fuel w1 (Line one) rest eq_refl). cbv zeta.
    rewrite H1. reflexivity. }
  assert (E4 : menu_body fuel w4
               = menu_resume (show_stock (set_stdin rest (emit_all menu_banner w)))).
  { rewrite (menu_body_step fuel w4 (Line four) rest eq_refl). cbv zeta.
    rewrite H4. reflexivity. }
  assert (Hsame : same_store w
            (snd (menu_resume (show_stock (set_stdin rest (emit_all menu_banner w)))))).
  { pose proof (respects_show_stock same_store
                  (set_stdin rest (emit_all menu_banner w))) as Hs.
    destruct (show_stock (set_stdin rest (emit_all menu_banner w)))
      as [[[] | e | | ] w']; simpl in *; try exact Hs; destruct e; exact Hs. }
  split; [congruence |]. split; [| split; [exact E1 | split]].
  - intro Hfuel. destruct fuel as [| n]; [lia |].
    change (menu (S n)) with
      (bind (menu_body (S n))
         (fun c => match c with
                   | Continue => menu_loop n (S n)
                   | Break a => ret a
                   end)).
    unfold bind. rewrite E4, E1. reflexivity.
  - rewrite E4. exact Hsame.
  - rewrite E1. exact Hsame.
Qed.

(** ** Further properties of the script *)

(** *** What every run keeps *)

(** A relation that holds along the terminal and along the two updates
    of a sale holds along [add_product], [menu] and [main]. *)
Lemma respects_sale (R : World -> World -> Prop) `{Frame R} `{Writes R}
    `{Reads R} :
  (forall w product data qty,
     dict_get (stock w) product = Some data ->
     1 <= qty <= quantity data ->
     R w (commit product qty (price data) (quantity data - qty) w)) ->
  forall fuel,
    respects R (add_product fuel)
    /\ respects R (menu fuel)
    /\ respects R (main fuel).
Proof.
  intros Hcommit fuel.
  assert (Ha : respects R (add_product fuel)).
  { intro w. rewrite add_product_eq.
    pose proof (respects_choose_product_name R fuel w) as Hk1.
    destruct (choose_product_name fuel w) as [[[product |] | e | | ] w1];
      simpl in Hk1; unfold add_chosen; simpl snd;
      try exact Hk1;
      try (apply (frame_trans _ _ _ Hk1); apply frame_emit);
      [| destruct e; simpl;
         solve [exact Hk1 | apply (frame_trans _ _ _ Hk1); apply frame_emit]].
    destruct product as [| ch product];
      [simpl; apply (frame_trans _ _ _ Hk1); apply frame_emit |].
    generalize (String ch product). clear ch product. intro product.
    destruct (dict_get (stock w1) product) as [data |] eqn:Eget;
      [| exact Hk1].
    destruct (quantity data <=? 0);
      [simpl; apply (frame_trans _ _ _ Hk1); apply frame_emit |].
    pose proof (respects_read_positive_int R fuel
                  (quantity_prompt (quantity data)) 1 None w1) as Hk2.
    pose proof (respects_read_positive_int same_store fuel
                  (quantity_prompt (quantity data)) 1 None w1) as Hs.
    destruct (read_positive_int fuel (quantity_prompt (quantity data)) 1 None w1)
      as [[qty | e | | ] w2] eqn:Eread; simpl in Hk2, Hs;
      pose proof (frame_trans _ _ _ Hk1 Hk2) as Hk3; unfold add_resume;
      try exact Hk3;
      [| destruct e; simpl;
         solve [exact Hk3 | apply (frame_trans _ _ _ Hk3); apply frame_emit]].
    destruct (quantity data <? qty) eqn:Elt; simpl;
      [apply (frame_trans _ _ _ Hk3); apply frame_emit |].
    apply Z.ltb_ge in Elt.
    destruct (read_positive_int_range _ _ _ _ _ _ _ Eread) as [Hmin _].
    apply (frame_trans _ _ _ Hk3).
    eapply frame_trans; [| apply frame_emit].
    apply Hcommit; [| lia].
    destruct Hs as [Hs _]. rewrite Hs. exact Eget. }
  assert (Hm : respects R (menu fuel)).
  { unfold menu, menu_body. frame_tac. }
  split; [exact Ha |]. split; [exact Hm |].
  unfold main. frame_tac.
Qed.

#[local] Instance keeps_on_store_writes (P : Stock -> list CartLine -> Prop) :
  Writes (keeps (on_store P)).
Proof. intros w o H. exact H. Qed.

#[local] Instance keeps_on_store_reads (P : Stock -> list CartLine -> Prop) :
  Reads (keeps (on_store P)).
Proof. intros w i rest _ H. exact H. Qed.

(** A property of the catalog and the cart that holds initially and that
    every sale keeps holds in every state of the script. *)
Lemma reachable_store (P : Stock -> list CartLine -> Prop) :
  P initial_stock [] ->
  (forall d c product data qty,
     P d c ->
     dict_get d product = Some data ->
     1 <= qty <= quantity data ->
     P (dict_set_quantity d product (quantity data - qty))
       (c ++ [(product, qty, price data)])%list) ->
  forall w, reachable w -> P (stock w) (cart w).
Proof.
  intros Hinit Hstep.
  assert (Hsale : forall fuel,
            respects (keeps (on_store P)) (add_product fuel)
            /\ respects (keeps (on_store P)) (menu fuel)
            /\ respects (keeps (on_store P)) (main fuel)).
  { apply respects_sale; try typeclasses eauto.
    intros w product data qty Hget Hq Hp.
    unfold on_store, commit. simpl. apply Hstep; assumption. }
  induction 1 as [ins | w _ IH | fuel w _ IH | w _ IH | fuel w _ IH
                 | fuel w _ IH | ins w _ IH].
  - exact Hinit.
  - exact (respects_show_stock (keeps (on_store P)) w IH).
  - exact (proj1 (Hsale fuel) w IH).
  - exact (respects_show_total (keeps (on_store P)) w IH).
  - exact (proj1 (proj2 (Hsale fuel)) w IH).
  - exact (proj2 (proj2 (Hsale fuel)) w IH).
  - exact IH.
Qed.

Lemma cart_quantity_app (product : string) (c1 c2 : list CartLine) :
  cart_quantity product (c1 ++ c2) = cart_quantity product c1 + cart_quantity product c2.
Proof.
  induction c1 as [| [[name qty] unit_price] c1 IH]; simpl; [reflexivity |].
  rewrite IH. lia.
Qed.

(** With interrupts at the prompts only, in every state of the script,
    for every product, the quantity in
    the catalog and the quantities of the product in the lines of the cart
    add up to the quantity the product was seeded with. *)
Theorem stock_conservation (w : World) :
  reachable w ->
  forall product seeded,
    dict_get initial_stock product = Some seeded ->
    exists data,
      dict_get (stock w) product = Some data
      /\ quantity data + cart_quantity product (cart w) = quantity seeded.
Proof.
  apply (reachable_store conserved).
  - intros product seeded Hs. exists seeded. simpl. split; [exact Hs | lia].
  - intros d c product data qty Hc Hget Hq other seeded Hs.
    destruct (Hc other seeded Hs) as (data0 & Hget0 & Hsum).
    rewrite cart_quantity_app. simpl.
    destruct (String.eqb other product) eqn:E.
    + apply String.eqb_eq in E. subst other.
      rewrite Hget0 in Hget. inversion Hget; subst data0.
      exists (mkProduct (price data) (quantity data - qty)).
      split; [apply dict_get_set_same; exact Hget0 | simpl; lia].
    + apply String.eqb_neq in E. exists data0.
      split; [rewrite dict_get_set_other; assumption | lia].
Qed.

(** X2: in every state of the script, every line of the cart names a
    seeded product, holds the price the product was seeded with, and a
    quantity from 1 to the quantity the product was seeded with. *)
Theorem cart_lines_valid (w : World) :
  reachable w ->
  forall product qty unit_price,
    In (product, qty, unit_price) (cart w) ->
    exists seeded,
      dict_get initial_stock product = Some seeded
      /\ unit_price = price seeded
      /\ 1 <= qty <= quantity seeded.
Proof.
  intros H product qty unit_price Hin.
  destruct (reachable_store_ok w H) as [_ Hcart].
  rewrite Forall_forall in Hcart. exact (Hcart _ Hin).
Qed.

#[local] Instance grows_frame : Frame grows.
Proof.
  split.
  - intro w. split; [exists []; rewrite app_nil_r; reflexivity |].
    split; [reflexivity |]. intros product data' H. exists data'.
    split; [exact H | split; [reflexivity | lia]].
  - intros w1 w2 w3 ([a1 H1] & K1 & Q1) ([a2 H2] & K2 & Q2).
    split; [exists (a1 ++ a2)%list; rewrite H2, H1, app_assoc; reflexivity |].
    split; [congruence |]. intros product data3 H3.
    destruct (Q2 _ _ H3) as (data2 & G2 & P2 & L2).
    destruct (Q1 _ _ G2) as (data1 & G1 & P1 & L1).
    exists data1. split; [exact G1 | split; [congruence | lia]].
Qed.

Lemma same_store_grows (w w' : World) : same_store w w' -> grows w w'.
Proof.
  intros [Hs Hc]. unfold grows. rewrite Hs, Hc.
  apply (frame_refl (R := grows)).
Qed.

#[local] Instance grows_writes : Writes grows.
Proof. intros w o. apply same_store_grows. split; reflexivity. Qed.

#[local] Instance grows_reads : Reads grows.
Proof. intros w i rest _. apply same_store_grows. split; reflexivity. Qed.

(** X3: whatever the state and the input, [main] (and so [menu] and
    [add_product]) only adds lines at the end of the cart, keeps the keys
    and the prices of the catalog, and lets no quantity go up: no line is
    ever taken out of the cart, also not by the checkout, and nothing is
    ever restocked or repriced. *)
Theorem store_only_grows (fuel : nat) (w : World) :
  grows w (snd (add_product fuel w))
  /\ grows w (snd (menu fuel w))
  /\ grows w (snd (main fuel w)).
Proof.
  assert (H : respects grows (add_product fuel)
              /\ respects grows (menu fuel)
              /\ respects grows (main fuel)).
  { apply respects_sale; try typeclasses eauto.
    intros w0 product data qty Hget Hq.
    unfold grows, commit. simpl.
    split; [eexists; reflexivity |].
    split; [apply keys_set_quantity |].
    intros other data' Hget'.
    destruct (String.eqb other product) eqn:E.
    - apply String.eqb_eq in E. subst other.
      rewrite (dict_get_set_same _ _ _ _ Hget) in Hget'.
      inversion Hget'; subst data'. exists data. simpl.
      split; [exact Hget | split; [reflexivity | lia]].
    - apply String.eqb_neq in E.
      rewrite dict_get_set_other in Hget' by exact E.
      exists data'. split; [exact Hget' | split; [reflexivity | lia]]. }
  destruct H as (Ha & Hm & Hmain).
  split; [apply Ha | split; [apply Hm | apply Hmain]].
Qed.

(** *** The display of the stock *)

Lemma insert_sorted_perm (x : string) (l : list string) :
  Permutation (x :: l) (insert_sorted x l).
Proof.
  induction l as [| y l IH]; simpl; [reflexivity |].
  destruct (String.leb x y); [reflexivity |].
  rewrite perm_swap. apply perm_skip. exact IH.
Qed.

Lemma sorted_perm (l : list string) : Permutation l (sorted l).
Proof.
  induction l as [| x l IH]; simpl; [reflexivity |].
  rewrite <- insert_sorted_perm. apply perm_skip. exact IH.
Qed.

Lemma insert_sorted_sorted (x : string) (l : list string) :
  Sorted (fun a b => String.leb a b = true) l ->
  Sorted (fun a b => String.leb a b = true) (insert_sorted x l).
Proof.
  induction 1 as [| y l Hl IH Hy]; simpl; [repeat constructor |].
  destruct (String.leb x y) eqn:E.
  - constructor; [constructor; assumption | constructor; exact E].
  - assert (Hyx : String.leb y x = true)
      by (destruct (String.leb_total x y); congruence).
    constructor; [exact IH |].
    destruct l as [| z l]; simpl; [constructor; exact Hyx |].
    destruct (String.leb x z); constructor;
      [exact Hyx | inversion Hy; assumption].
Qed.

Lemma sorted_sorted (l : list string) :
  Sorted (fun a b => String.leb a b = true) (sorted l).
Proof.
  induction l as [| x l IH]; simpl; [constructor |].
  apply insert_sorted_sorted. exact IH.
Qed.

Lemma for_each_cons {A : Type} (x : A) (l : list A) (body : A -> M unit) :
  for_each (x :: l) body = (body x ;; for_each l body).
Proof. reflexivity. Qed.

Lemma show_stock_loop (products : list string) (w : World) :
  (forall product, In product products -> In product (keys (stock w))) ->
  exists lines,
    Forall2 (fun product line =>
               exists data,
                 dict_get (stock w) product = Some data
                 /\ line = stock_line product data)
            products lines
    /\ for_each products
         (fun product =>
            data <- stock_getitem product ;;
            print (capitalize product ++ " - Price: " ++ fmt_money (price data)
                   ++ " | " ++ "Quantity: " ++ str (quantity data))) w
       = (Return tt, emit_all lines w).
Proof.
  revert w. induction products as [| product products IH]; intros w Hin.
  - exists []. split; [constructor |]. simpl. rewrite emit_all_nil. reflexivity.
  - assert (Hk : In product (keys (stock w))) by (apply Hin; left; reflexivity).
    apply dict_contains_In in Hk. unfold dict_contains in Hk.
    destruct (dict_get (stock w) product) as [data |] eqn:Eget; [| discriminate].
    destruct (IH (emit (stock_line product data) w)) as (lines & Hl & Heq).
    { intros p Hp. apply Hin. right. exact Hp. }
    exists (stock_line product data :: lines). split.
    + constructor; [exists data; auto | exact Hl].
    + rewrite for_each_cons.
      unfold bind at 1, bind at 1, stock_getitem at 1, bind at 1,
        get_stock at 1, lift at 1.
      cbv beta iota. rewrite Eget. unfold ret at 1, print at 1.
      cbv beta iota. unfold stock_line in Heq |- *. rewrite Heq.
      rewrite emit_all_cons. reflexivity.
Qed.

(** What [show_stock] prints for a catalog that is not empty. *)
Lemma show_stock_listing (w : World) :
  stock w <> [] ->
  exists products lines,
    Permutation (keys (stock w)) products
    /\ Sorted (fun a b => String.leb a b = true) products
    /\ Forall2 (fun product line =>
                  exists data,
                    dict_get (stock w) product = Some data
                    /\ line = stock_line product data)
               products lines
    /\ show_stock w =
       (Return tt, emit_all (Printed (nl ++ "=== AVAILABLE STOCK ===") :: lines) w).
Proof.
  intro Hne.
  destruct (show_stock_loop (sorted (keys (stock w)))
              (emit (Printed (nl ++ "=== AVAILABLE STOCK ===")) w))
    as (lines & Hl & Heq).
  { intros p Hp. simpl. apply (Permutation_in _ (Permutation_sym (sorted_perm _))).
    exact Hp. }
  exists (sorted (keys (stock w))), lines.
  split; [apply sorted_perm |]. split; [apply sorted_sorted |].
  split; [exact Hl |].
  unfold show_stock. unfold bind at 1, print at 1, bind at 1, get_stock at 1.
  change (stock (emit ?o w)) with (stock w).
  rewrite emit_all_cons.
  destruct (stock w) as [| entry d]; [congruence | exact Heq].
Qed.

(** X4: [show_stock] always ends normally.  For an empty catalog it
    prints its title and the message of the empty catalog; otherwise it
    prints its title and then one line for each key of the catalog, with
    the price and the quantity of the key, the keys in ascending order. *)
Theorem show_stock_spec (w : World) :
  let header := Printed (nl ++ "=== AVAILABLE STOCK ===") in
  (stock w = [] ->
   show_stock w =
   (Return tt, emit_all [header; Printed "No products available."] w))
  /\ (stock w <> [] ->
      exists products lines,
        Permutation (keys (stock w)) products
        /\ Sorted (fun a b => String.leb a b = true) products
        /\ Forall2 (fun product line =>
                      exists data,
                        dict_get (stock w) product = Some data
                        /\ line = stock_line product data)
                   products lines
        /\ show_stock w = (Return tt, emit_all (header :: lines) w)).
Proof.
  cbv zeta. split; [| apply show_stock_listing].
  intro E. unfold show_stock.
  unfold bind at 1, print at 1, bind at 1, get_stock at 1.
  change (stock (emit ?o w)) with (stock w). rewrite E.
  rewrite emit_all_cons. reflexivity.
Qed.

(** X5: what the catalog holds for a product is what [show_stock] shows:
    the line of the product with its price and its quantity is among the
    lines printed. *)
Theorem show_stock_shows_entry (w : World) (product : string) (data : Product) :
  dict_get (stock w) product = Some data ->
  In (stock_line product data) (emitted show_stock w).
Proof.
  intro Hget.
  assert (Hne : stock w <> []) by (intro E; rewrite E in Hget; discriminate).
  destruct (show_stock_listing w Hne) as (products & lines & Hp & _ & Hl & Heq).
  rewrite (emitted_emit_all _ _ _ _ Heq). right.
  assert (Hin : In product products).
  { apply (Permutation_in _ Hp). apply dict_contains_In.
    unfold dict_contains. rewrite Hget. reflexivity. }
  clear Heq Hp. induction Hl as [| p line products lines (d & Hd & ->) _ IH];
    [contradiction |].
  destruct Hin as [-> | Hin]; [| right; exact (IH Hin)].
  left. rewrite Hget in Hd. inversion Hd. reflexivity.
Qed.

(** *** The quantity validator, over the whole input *)

Lemma read_again_world (w : World) (rest : list input_event) (prompt msg : string)
    (rest' : list input_event) (out : list output_event) :
  set_stdin rest'
    (emit_all out (emit (Printed msg) (set_stdin rest (emit (Prompted prompt) w))))
  = set_stdin rest' (emit_all (Prompted prompt :: Printed msg :: out) w).
Proof.
  destruct w. unfold set_stdin, emit_all, emit. simpl.
  rewrite <- !app_assoc. reflexivity.
Qed.

(** X6: [read_positive_int] returns the integer of the first line of the
    input that holds an integer between the minimum and the maximum,
    having read the lines before it and no further; it has prompted once
    for each line read and printed one message for each line turned
    down. *)
Theorem read_positive_int_first_acceptable (fuel : nat) (prompt : string)
    (minimum : Z) (maximum : option Z) (w : World) (rejected : list string)
    (text : string) (v : Z) (rest : list input_event) :
  (List.length (stdin w) < fuel)%nat ->
  stdin w = (map Line rejected ++ Line text :: rest)%list ->
  Forall (fun t => forall v', ~ acceptable minimum maximum t v') rejected ->
  acceptable minimum maximum text v ->
  exists out,
    read_positive_int fuel prompt minimum maximum w
      = (Return v, set_stdin rest (emit_all out w))
    /\ count_prompts out = S (List.length rejected)
    /\ List.length out = (2 * List.length rejected + 1)%nat.
Proof.
  intros Hfuel Hin Hrej (Hint & Hmin & Hmax).
  revert fuel w Hfuel Hin.
  induction Hrej as [| t rejected Ht _ IH]; intros fuel w Hfuel Hin;
    simpl in Hin; rewrite Hin in Hfuel; simpl in Hfuel;
    (destruct fuel as [| fuel]; [lia |]);
    rewrite (read_positive_int_step _ _ _ _ _ _ _ Hin); cbv zeta.
  - exists [Prompted prompt]. split; [| split; reflexivity].
    rewrite Hint. apply Z.ltb_ge in Hmin. rewrite Hmin.
    destruct maximum as [m |]; [| reflexivity].
    specialize (Hmax m eq_refl). apply Z.ltb_ge in Hmax. rewrite Hmax.
    reflexivity.
  - assert (Hagain : forall msg,
      exists out,
        read_positive_int fuel prompt minimum maximum
          (emit (Printed msg)
             (set_stdin (map Line rejected ++ Line text :: rest)%list
                (emit (Prompted prompt) w)))
        = (Return v, set_stdin rest (emit_all out w))
        /\ count_prompts out = S (S (List.length rejected))
        /\ List.length out = (2 * S (List.length rejected) + 1)%nat).
    { intro msg.
      destruct (IH fuel
                  (emit (Printed msg)
                     (set_stdin (map Line rejected ++ Line text :: rest)%list
                        (emit (Prompted prompt) w))))
        as (out & Heq & Hp & Hl).
      - simpl. rewrite length_app in *. simpl in *. lia.
      - reflexivity.
      - exists (Prompted prompt :: Printed msg :: out).
        rewrite Heq, read_again_world. simpl. split; [reflexivity |]. lia. }
    destruct (int_of_str (strip t)) as [x |] eqn:Ex; [| apply Hagain].
    destruct (x <? minimum) eqn:Exmin; [apply Hagain |].
    apply Z.ltb_ge in Exmin.
    destruct maximum as [m |].
    + destruct (m <? x) eqn:Exmax; [apply Hagain |].
      apply Z.ltb_ge in Exmax. exfalso. apply (Ht x).
      split; [exact Ex | split; [exact Exmin |]].
      intros m' Hm'. inversion Hm'; subst. exact Exmax.
    + exfalso. apply (Ht x).
      split; [exact Ex | split; [exact Exmin | discriminate]].
Qed.



(** X8: the three functions that talk to the user, [safe_input],
    [read_positive_int] and [choose_product_name], change nothing but the
    terminal: the catalog and the cart are as before, the input left is an
    end of the input before, and the output before is the beginning of the
    output after. *)
Theorem prompts_touch_only_the_terminal (fuel : nat) (prompt : string)
    (minimum : Z) (maximum : option Z) (w : World) :
  terminal_only w (snd (safe_input prompt w))
  /\ terminal_only w (snd (read_positive_int fuel prompt minimum maximum w))
  /\ terminal_only w (snd (choose_product_name fuel w)).
Proof.
  split; [apply (respects_safe_input terminal_only) |].
  split; [apply (respects_read_positive_int terminal_only) |].
  apply (respects_choose_product_name terminal_only).
Qed.

(** *** The product resolver and the sale, over the whole input *)





(** X11: for a product whose quantity in the catalog is 0 (or less),
    [add_product] prints that there is no stock and ends, without a prompt
    for a quantity, reading nothing after the choice of the product; the
    catalog and the cart are as before. *)
Theorem add_product_sold_out (fuel : nat) (w : World) (product : string)
    (data : Product) (w1 : World) :
  product <> EmptyString ->
  dict_get (stock w) product = Some data ->
  quantity data <= 0 ->
  choose_product_name fuel w = (Return (Some product), w1) ->
  add_product fuel w =
  (Return tt, emit (Printed ("No stock available for '" ++ product ++ "'.")) w1)
  /\ same_store w (snd (add_product fuel w))
  /\ stdin (snd (add_product fuel w)) = stdin w1.
Proof.
  intros Hne Hget Hq Hchoose.
  pose proof (respects_choose_product_name same_store fuel w) as Hs.
  rewrite Hchoose in Hs. simpl in Hs.
  assert (Heq : add_product fuel w =
                (Return tt,
                 emit (Printed ("No stock available for '" ++ product ++ "'.")) w1)).
  { rewrite add_product_eq, Hchoose. unfold add_chosen.
    destruct product as [| ch product]; [congruence |].
    destruct Hs as [Hst _]. rewrite Hst, Hget.
    apply Z.leb_le in Hq. rewrite Hq. reflexivity. }
  rewrite Heq. split; [reflexivity |]. split; [exact Hs | reflexivity].
Qed.

(** *** The entry point *)

(** X12: [main] does exactly what [menu] does: no exception ever reaches
    the handler of [main], whose two messages are never printed. *)
Theorem main_is_menu (fuel : nat) (w : World) :
  main fuel w = menu fuel w.
Proof.
  unfold main, try_except.
  pose proof (menu_loop_outcome fuel fuel w) as H.
  change (menu_loop fuel fuel) with (menu fuel) in H.
  destruct (menu fuel w) as [[[] | e | | ] w']; try reflexivity.
  contradiction.
Qed.

Lemma menu_loop_end_of_file (n m k : nat) (w : World) :
  stdin w = repeat CtrlD n ->
  (n < m)%nat ->
  menu_loop m k w =
  (Blocked,
   mkWorld (stock w) (cart w) []
     (stdout w
        ++ List.concat (repeat (menu_banner ++ error_report EOFError)%list n)
        ++ menu_banner)%list).
Proof.
  revert m w. induction n as [| n IH]; intros m w E Hm;
    (destruct m as [| m]; [lia |]);
    change (menu_loop (S m) k w)
      with (bind (menu_body k)
              (fun c => match c with
                        | Continue => menu_loop m k
                        | Break a => ret a
                        end) w);
    unfold bind.
  - rewrite menu_body_blocked by exact E.
    destruct w as [d c i o]. simpl in E. subst i. reflexivity.
  - simpl in E. rewrite (menu_body_step _ _ _ _ E). cbv zeta.
    unfold menu_resume.
    rewrite IH; [| reflexivity | lia].
    destruct w as [d c i o]. unfold emit, set_stdin, emit_all. simpl.
    rewrite <- !app_assoc. reflexivity.
Qed.

(** X13: in front of an input that holds nothing but ends of file, the
    menu never exits: for each of them it prints its options, then reports
    the [EOFError] and goes on; it is left waiting at its prompt, the
    catalog and the cart as before. *)
Theorem menu_at_end_of_file (n fuel : nat) (w : World) :
  stdin w = repeat CtrlD n ->
  (n < fuel)%nat ->
  menu fuel w =
  (Blocked,
   mkWorld (stock w) (cart w) []
     (stdout w
        ++ List.concat (repeat (menu_banner ++ error_report EOFError)%list n)
        ++ menu_banner)%list).
Proof. apply menu_loop_end_of_file. Qed.

(** *** The wrappers *)

(** X14: [safe_input] does exactly what [input] does: a line is returned,
    an interrupt and an end of file are raised again as they are; the
    wrapper handles neither. *)
Theorem safe_input_is_input (prompt : string) (w : World) :
  safe_input prompt w = input prompt w
  /\ (forall rest, stdin w = CtrlC :: rest ->
        fst (safe_input prompt w) = Raise KeyboardInterrupt)
  /\ (forall rest, stdin w = CtrlD :: rest ->
        fst (safe_input prompt w) = Raise EOFError).
Proof.
  split; [| split].
  - unfold safe_input, try_except.
    destruct (input prompt w) as [[text | e | | ] w']; try reflexivity.
    destruct e; reflexivity.
  - intros rest E. rewrite (safe_input_eq _ _ _ _ E). reflexivity.
  - intros rest E. rewrite (safe_input_eq _ _ _ _ E). reflexivity.
Qed.

Lemma string_of_uint_digits (u : Decimal.uint) :
  all_digits (NilEmpty.string_of_uint u).
Proof.
  induction u; simpl; try (split; [vm_compute; split; discriminate | assumption]).
  exact I.
Qed.

Lemma str_nonneg (n : Z) : 0 <= n -> all_digits (str n) /\ str n <> EmptyString.
Proof.
  intro Hn. unfold str. destruct n as [| p | p]; [| | lia].
  - split; [vm_compute; repeat split; discriminate | discriminate].
  - simpl. pose proof (string_of_uint_digits (Pos.to_uint p)) as Hd.
    destruct (Pos.to_uint p); simpl in *;
      try (split; [exact Hd | discriminate]).
    split; [vm_compute; repeat split; discriminate | discriminate].
Qed.

Lemma str_digit (n : Z) :
  0 <= n <= 9 ->
  exists c, str n = String c EmptyString /\ 48 <= ord c <= 57.
Proof.
  intro Hn.
  rewrite <- (Z2Nat.id n) by lia.
  assert (Hk : (Z.to_nat n < 10)%nat) by lia.
  revert Hk. generalize (Z.to_nat n) as k. intros k Hk.
  do 10 (destruct k as [| k];
         [eexists; split; [reflexivity | vm_compute; split; discriminate] |]).
  lia.
Qed.

Lemma round_half_even_nonneg (num den : Z) :
  0 <= num -> 0 < den -> 0 <= round_half_even num den.
Proof.
  intros Hn Hd. unfold round_half_even.
  assert (0 <= num / den) by (apply Z.div_pos; assumption).
  destruct (2 * (num mod den) <? den); [assumption |].
  destruct (den <? 2 * (num mod den)); [lia |].
  destruct (Z.even (num / den)); lia.
Qed.

(** X15: for every value that is a number, [fmt_money] gives the currency
    sign, a space, a minus sign for a negative value, at least one digit,
    a point, and exactly two digits. *)
Theorem fmt_money_two_decimals (value : float) :
  is_amount value ->
  exists sign whole d1 d2,
    fmt_money value =
    CURRENCY ++ " " ++ sign ++ whole ++ "." ++ String d1 (String d2 EmptyString)
    /\ (sign = EmptyString \/ sign = "-")
    /\ whole <> EmptyString
    /\ all_digits whole
    /\ 48 <= ord d1 <= 57
    /\ 48 <= ord d2 <= 57.
Proof.
  unfold is_amount, fmt_money, format_2f.
  destruct (Prim2SF value) as [s | s | | s m e]; try contradiction; intros _.
  - exists (if s then "-" else EmptyString), "0", "0"%char, "0"%char.
    split; [destruct s; reflexivity |].
    split; [destruct s; auto |].
    split; [discriminate |].
    vm_compute. repeat split; discriminate.
  - set (h := if 0 <=? e then Z.pos m * 2 ^ e * 100
              else round_half_even (Z.pos m * 100) (2 ^ (- e))).
    assert (Hh : 0 <= h).
    { unfold h. destruct (0 <=? e) eqn:Ee.
      - apply Z.leb_le in Ee.
        assert (0 < 2 ^ e) by (apply Z.pow_pos_nonneg; lia). nia.
      - apply Z.leb_gt in Ee. apply round_half_even_nonneg; [lia |].
        apply Z.pow_pos_nonneg; lia. }
    assert (H100 : 0 <= h mod 100 < 100) by (apply Z.mod_pos_bound; lia).
    destruct (str_digit (h mod 100 / 10)) as (d1 & E1 & H1).
    { assert (0 <= h mod 100 / 10) by (apply Z.div_pos; lia).
      assert (h mod 100 / 10 < 10) by (apply Z.div_lt_upper_bound; lia).
      lia. }
    destruct (str_digit ((h mod 100) mod 10)) as (d2 & E2 & H2).
    { pose proof (Z.mod_pos_bound (h mod 100) 10 ltac:(lia)). lia. }
    destruct (str_nonneg (h / 100) ltac:(apply Z.div_pos; lia)) as [Hd Hne].
    exists (if s then "-" else EmptyString), (str (h / 100)), d1, d2.
    split.
    + unfold two_digits. rewrite E1, E2. reflexivity.
    + split; [destruct s; auto |]. auto.
Qed.

(** ** Interrupts between two statements *)

Section Interrupts.

Variable interrupt_at : Z -> World -> bool.

(** *** Computations that agree *)

Lemma agrees_refl {A : Type} (m : M A) : agrees m m.
Proof. intro w. reflexivity. Qed.

Lemma agrees_bind {A B : Type} (m m' : M A) (k k' : A -> M B) :
  agrees m m' -> (forall a, agrees (k a) (k' a)) -> agrees (bind m k) (bind m' k').
Proof.
  intros Hm Hk w. unfold bind. rewrite Hm.
  destruct (m' w) as [[a | e | | ] w1]; [apply Hk | | | ]; reflexivity.
Qed.

Lemma agrees_try_except {A : Type} (m m' : M A) (h h' : exn -> M A) :
  agrees m m' -> (forall e, agrees (h e) (h' e)) ->
  agrees (try_except m h) (try_except m' h').
Proof.
  intros Hm Hh w. unfold try_except. rewrite Hm.
  destruct (m' w) as [[a | e | | ] w1]; [| apply Hh | | ]; reflexivity.
Qed.

Lemma agrees_while_true {A : Type} (fuel : nat) (body body' : M (loop_ctl A)) :
  agrees body body' -> agrees (while_true fuel body) (while_true fuel body').
Proof.
  intro Hb. induction fuel as [| fuel IH]; simpl; [apply agrees_refl |].
  apply agrees_bind; [exact Hb |].
  intros [| a]; [exact IH | apply agrees_refl].
Qed.

Lemma agrees_for_each {A : Type} (l : list A) (body body' : A -> M unit) :
  (forall x, agrees (body x) (body' x)) ->
  agrees (for_each l body) (for_each l body').
Proof.
  intro Hb. induction l as [| x l IH]; simpl; [apply agrees_refl |].
  apply agrees_bind; [apply Hb | intros _; exact IH].
Qed.

Lemma agrees_for_fold {A B : Type} (l : list A) (acc : B)
    (body body' : B -> A -> M B) :
  (forall b x, agrees (body b x) (body' b x)) ->
  agrees (for_fold l acc body) (for_fold l acc body').
Proof.
  intro Hb. revert acc. induction l as [| x l IH]; simpl; intro acc;
    [apply agrees_refl |].
  apply agrees_bind; [apply Hb | intro b; apply IH].
Qed.

(** *** Whatever the interrupts *)

Lemma respects_checkpoint (R : World -> World -> Prop) `{Frame R} (line : Z) :
  respects R (Signals.checkpoint interrupt_at line).
Proof.
  intro w. unfold Signals.checkpoint.
  destruct (interrupt_at line w); apply frame_refl.
Qed.

Lemma respects_print_at (R : World -> World -> Prop) `{Frame R} `{Writes R}
    (line : Z) (text : string) :
  respects R (Signals.print interrupt_at line text).
Proof.
  unfold Signals.print. apply respects_bind; [assumption | |].
  - apply respects_print. assumption.
  - intros _. apply respects_checkpoint. assumption.
Qed.

Lemma respects_sleep_at (R : World -> World -> Prop) `{Frame R}
    (line : Z) (seconds : float) :
  respects R (Signals.sleep interrupt_at line seconds).
Proof. apply respects_checkpoint. assumption. Qed.

Lemma respects_safe_input_at (R : World -> World -> Prop) `{Frame R} `{Writes R}
    `{Reads R} (prompt : string) :
  respects R (Signals.safe_input interrupt_at prompt).
Proof.
  unfold Signals.safe_input, Signals.input.
  apply respects_try_except; [assumption | |].
  - apply respects_bind; [assumption | |].
    + apply respects_input; assumption.
    + intro text. apply respects_bind; [assumption | |].
      * apply respects_checkpoint. assumption.
      * intros _. apply respects_ret. assumption.
  - intros [ | | | | | ]; apply respects_raise; assumption.
Qed.

Ltac interrupts_tac :=
  repeat first
    [ progress intros
    | assumption
    | apply respects_checkpoint | apply respects_print_at
    | apply respects_sleep_at | apply respects_safe_input_at
    | respects_step ].

Lemma respects_read_positive_int_at (R : World -> World -> Prop) `{Frame R}
    `{Writes R} `{Reads R} (fuel : nat) (prompt : string) (minimum : Z)
    (maximum : option Z) :
  respects R (Signals.read_positive_int interrupt_at fuel prompt minimum maximum).
Proof.
  unfold Signals.read_positive_int, Signals.read_positive_int_body.
  interrupts_tac.
Qed.

Lemma respects_show_stock_at (R : World -> World -> Prop) `{Frame R} `{Writes R} :
  respects R (Signals.show_stock interrupt_at).
Proof. unfold Signals.show_stock. interrupts_tac. Qed.

Lemma respects_show_total_at (R : World -> World -> Prop) `{Frame R} `{Writes R} :
  respects R (Signals.show_total interrupt_at).
Proof. unfold Signals.show_total. interrupts_tac. Qed.

Lemma respects_choose_product_name_at (R : World -> World -> Prop) `{Frame R}
    `{Writes R} `{Reads R} (fuel : nat) :
  respects R (Signals.choose_product_name interrupt_at get_close_matches fuel).
Proof.
  pose proof (respects_read_positive_int_at R fuel) as Hr.
  unfold Signals.choose_product_name, Signals.choose_product_name_body.
  interrupts_tac.
Qed.

Lemma while_true_break {A : Type} (P : A -> Prop) (fuel : nat)
    (body : M (loop_ctl A)) :
  (forall w a w', body w = (Return (Break a), w') -> P a) ->
  forall w a w', while_true fuel body w = (Return a, w') -> P a.
Proof.
  intro Hb. induction fuel as [| fuel IH]; intros w a w' E; [discriminate |].
  cbn [while_true] in E. unfold bind in E.
  destruct (body w) as [[[| b] | e | | ] w1] eqn:Eb; try discriminate.
  - exact (IH _ _ _ E).
  - inversion E; subst. exact (Hb _ _ _ Eb).
Qed.

(** What [read_positive_int] returns is in its range, whatever the
    interrupts. *)
Lemma read_positive_int_range_at (fuel : nat) (prompt : string) (minimum : Z)
    (maximum : option Z) (w : World) (v : Z) (w' : World) :
  Signals.read_positive_int interrupt_at fuel prompt minimum maximum w
    = (Return v, w') ->
  minimum <= v /\ (forall m, maximum = Some m -> v <= m).
Proof.
  apply (while_true_break
           (fun v => minimum <= v /\ (forall m, maximum = Some m -> v <= m))).
  clear w v w'. intros w v w'.
  unfold Signals.read_positive_int_body, try_except. unfold bind at 1.
  destruct (Signals.safe_input interrupt_at prompt w) as [[line | e | | ] w1];
    cbv zeta.
  - unfold bind at 1, int, lift.
    destruct (int_of_str (strip line)) as [value |].
    + unfold ret at 1. cbv beta iota.
      destruct (value <? minimum) eqn:Emin.
      { unfold Signals.print, Signals.checkpoint, bind, print, ret, raise.
        repeat match goal with
               | |- context [interrupt_at ?l ?x] => destruct (interrupt_at l x)
               end; discriminate. }
      apply Z.ltb_ge in Emin.
      destruct maximum as [m |].
      * destruct (m <? value) eqn:Emax.
        { unfold Signals.print, Signals.checkpoint, bind, print, ret, raise.
          repeat match goal with
                 | |- context [interrupt_at ?l ?x] => destruct (interrupt_at l x)
                 end; discriminate. }
        apply Z.ltb_ge in Emax. unfold ret. intro E. inversion E; subst.
        split; [assumption |]. intros m' Hm. inversion Hm; subst. assumption.
      * unfold ret. intro E. inversion E; subst.
        split; [assumption | discriminate].
    + unfold raise at 1. cbv beta iota.
      destruct (int_error (strip line));
        unfold Signals.print, Signals.checkpoint, bind, print, ret, raise;
        repeat match goal with
               | |- context [interrupt_at ?l ?x] => destruct (interrupt_at l x)
               end; discriminate.
  - destruct e;
      unfold Signals.print, Signals.checkpoint, bind, print, ret, raise;
      repeat match goal with
             | |- context [interrupt_at ?l ?x] => destruct (interrupt_at l x)
             end; discriminate.
  - discriminate.
  - discriminate.
Qed.

#[local] Instance with_store_frame (R : World -> World -> Prop) `{Frame R} :
  Frame (with_store R).
Proof.
  split.
  - intro w. split; apply frame_refl.
  - intros w1 w2 w3 [A1 B1] [A2 B2].
    split; eapply frame_trans; eassumption.
Qed.

#[local] Instance with_store_writes (R : World -> World -> Prop) `{Writes R} :
  Writes (with_store R).
Proof. intros w o. split; apply frame_emit. Qed.

#[local] Instance with_store_reads (R : World -> World -> Prop) `{Reads R} :
  Reads (with_store R).
Proof. intros w i rest E. split; apply (frame_read _ _ _ E). Qed.

Lemma sale_end_emit (R : World -> World -> Prop) `{Frame R} `{Writes R}
    (w w' : World) (o : output_event) :
  sale_end R w w' -> sale_end R w (emit o w').
Proof.
  intros [Hs | (w2 & product & data & qty & out & Hs & Hget & Hq & E)].
  - left. apply (frame_trans _ _ _ Hs). apply frame_emit.
  - right. exists w2, product, data, qty, (out ++ [o])%list.
    rewrite !emit_all_app, !emit_all_one.
    destruct E as [-> | ->]; auto 6.
Qed.

Lemma sale_end_print_at (R : World -> World -> Prop) `{Frame R} `{Writes R}
    (w w' : World) (line : Z) (text : string) :
  sale_end R w w' ->
  sale_end R w (snd (Signals.print interrupt_at line text w')).
Proof.
  intro Hs. unfold Signals.print, bind, print, Signals.checkpoint.
  destruct (interrupt_at line (emit (Printed text) w')); simpl;
    apply sale_end_emit; assumption.
Qed.

(** The two updates of [add_product] and its last message, from the
    world [w2] in which the quantity was read. *)
Lemma sale_block (w2 : World) (product : string) (data : Product) (qty : Z)
    (text : string) :
  dict_get (stock w2) product = Some data ->
  let w' :=
    snd ((Signals.cart_append interrupt_at 132 (product, qty, price data) ;;
          Signals.stock_set_quantity interrupt_at 133 product (quantity data - qty) ;;
          Signals.print interrupt_at 135 text) w2) in
  w' = half_commit product qty (price data) w2
  \/ w' = commit product qty (price data) (quantity data - qty) w2
  \/ w' = emit (Printed text)
            (commit product qty (price data) (quantity data - qty) w2).
Proof.
  intro Hget. cbv zeta.
  unfold Signals.cart_append, Signals.stock_set_quantity, Signals.print,
    Signals.checkpoint, bind, cart_append, stock_set_quantity, stock_getitem,
    bind, get_stock, lift, print, ret.
  destruct (interrupt_at 132 _); [left; reflexivity |].
  cbv beta iota. cbn [stock set_cart]. rewrite Hget. cbv beta iota.
  destruct (interrupt_at 133 _); [right; left; reflexivity |].
  cbv beta iota.
  destruct (interrupt_at 135 _); right; right; reflexivity.
Qed.

(** Whatever the interrupts, [add_product] leaves the catalog and the cart
    as they were, or with the line of a valid sale appended to the cart and
    the catalog updated or not. *)
Lemma interrupted_sale (R : World -> World -> Prop) `{Frame R} `{Writes R}
    `{Reads R} (fuel : nat) (w : World) :
  sale_end R w (snd (Signals.add_product interrupt_at get_close_matches fuel w)).
Proof.
  unfold Signals.add_product, try_except.
  match goal with
  | |- context [match ?b w with _ => _ end] =>
      assert (HB : sale_end R w (snd (b w)));
      [| destruct (b w) as [[[] | e | | ] wb]; simpl in HB |- *; try exact HB;
         destruct e; simpl; try exact HB; apply sale_end_print_at; assumption]
  end.
  unfold bind at 1.
  pose proof (respects_choose_product_name_at (with_store R) fuel w) as Hk1.
  destruct (Signals.choose_product_name interrupt_at get_close_matches fuel w)
    as [[[product |] | e | | ] w1]; simpl in Hk1;
    try (left; exact Hk1);
    [| apply sale_end_print_at; try assumption; left; exact Hk1].
  destruct product as [| ch product];
    [apply sale_end_print_at; try assumption; left; exact Hk1 |].
  generalize (String ch product). clear ch product. intro product.
  unfold bind at 1, stock_getitem at 1, bind at 1, get_stock at 1, lift at 1.
  cbv beta iota.
  destruct (dict_get (stock w1) product) as [data |] eqn:Eget;
    [| left; exact Hk1].
  unfold ret at 1. cbv beta iota zeta.
  destruct (quantity data <=? 0);
    [apply sale_end_print_at; try assumption; left; exact Hk1 |].
  unfold bind at 1.
  pose proof (respects_read_positive_int_at (with_store R) fuel
                ("Enter the desired quantity (available: "
                 ++ str (quantity data) ++ "): ") 1 None w1) as Hk2.
  destruct (Signals.read_positive_int interrupt_at fuel
              ("Enter the desired quantity (available: "
               ++ str (quantity data) ++ "): ") 1 None w1)
    as [[qty | e | | ] w2] eqn:Eread; simpl in Hk2;
    pose proof (frame_trans _ _ _ Hk1 Hk2) as Hk3;
    try (left; exact Hk3).
  destruct (quantity data <? qty) eqn:Elt;
    [apply sale_end_print_at; try assumption; left; exact Hk3 |].
  apply Z.ltb_ge in Elt.
  destruct (read_positive_int_range_at _ _ _ _ _ _ _ Eread) as [Hmin _].
  assert (Hget2 : dict_get (stock w2) product = Some data).
  { destruct Hk2 as [_ [Hs _]]. rewrite Hs. exact Eget. }
  unfold bind at 1, stock_getitem at 1, bind at 1, get_stock at 1, lift at 1.
  cbv beta iota. rewrite Hget2. unfold ret at 1. cbv beta iota zeta.
  right. exists w2, product, data, qty.
  destruct (sale_block w2 product data qty
              (str qty ++ "x " ++ product ++ " added to cart!") Hget2)
    as [E | [E | E]]; cbv zeta in E; rewrite E.
  - exists []. rewrite !emit_all_nil.
    split; [exact Hk3 | split; [exact Hget2 | split; [lia | left; reflexivity]]].
  - exists []. rewrite !emit_all_nil.
    split; [exact Hk3 | split; [exact Hget2 | split; [lia | right; reflexivity]]].
  - exists [Printed (str qty ++ "x " ++ product ++ " added to cart!")].
    rewrite !emit_all_one.
    split; [exact Hk3 | split; [exact Hget2 | split; [lia | right; reflexivity]]].
Qed.

Lemma frame_emit_all (R : World -> World -> Prop) `{Frame R} `{Writes R}
    (out : list output_event) (w : World) :
  R w (emit_all out w).
Proof.
  revert w. induction out as [| o out IH]; intro w.
  - rewrite emit_all_nil. apply frame_refl.
  - rewrite emit_all_cons.
    eapply frame_trans; [apply frame_emit | apply IH].
Qed.

(** A relation that holds along the terminal, along the first update of a
    sale and along both holds along [add_product], [menu] and [main],
    whatever the interrupts. *)
Lemma respects_sale_at (R : World -> World -> Prop) `{Frame R} `{Writes R}
    `{Reads R} :
  (forall w product data qty,
     dict_get (stock w) product = Some data ->
     1 <= qty <= quantity data ->
     R w (half_commit product qty (price data) w)) ->
  (forall w product data qty,
     dict_get (stock w) product = Some data ->
     1 <= qty <= quantity data ->
     R w (commit product qty (price data) (quantity data - qty) w)) ->
  forall fuel,
    respects R (Signals.add_product interrupt_at get_close_matches fuel)
    /\ respects R (Signals.menu interrupt_at get_close_matches fuel)
    /\ respects R (Signals.main interrupt_at get_close_matches fuel).
Proof.
  intros Hhalf Hfull fuel.
  assert (Ha : respects R (Signals.add_product interrupt_at get_close_matches fuel)).
  { intro w.
    destruct (interrupted_sale R fuel w)
      as [[Hr _] | (w2 & product & data & qty & out & [Hr _] & Hget & Hq & E)];
      [exact Hr |].
    apply (frame_trans _ _ _ Hr).
    destruct E as [-> | ->].
    - apply (frame_trans _ (half_commit product qty (price data) w2));
        [apply Hhalf; assumption | apply (frame_emit_all R)].
    - apply (frame_trans _
               (commit product qty (price data) (quantity data - qty) w2));
        [apply Hfull; assumption | apply (frame_emit_all R)]. }
  assert (Hm : respects R (Signals.menu interrupt_at get_close_matches fuel)).
  { pose proof (respects_show_stock_at R) as Hs.
    pose proof (respects_show_total_at R) as Ht.
    unfold Signals.menu, Signals.menu_body. interrupts_tac. }
  split; [exact Ha |]. split; [exact Hm |].
  unfold Signals.main. interrupts_tac.
Qed.

(** A property of the catalog and the cart that holds initially and that
    the first update of a sale and both updates keep holds in every state
    of the script, whatever the interrupts. *)
Lemma reachable_under_store (P : Stock -> list CartLine -> Prop) :
  P initial_stock [] ->
  (forall d c product data qty,
     P d c ->
     dict_get d product = Some data ->
     1 <= qty <= quantity data ->
     P d (c ++ [(product, qty, price data)])%list
     /\ P (dict_set_quantity d product (quantity data - qty))
          (c ++ [(product, qty, price data)])%list) ->
  forall w, reachable_under interrupt_at w -> P (stock w) (cart w).
Proof.
  intros Hinit Hstep.
  assert (Hsale : forall fuel,
            respects (keeps (on_store P))
              (Signals.add_product interrupt_at get_close_matches fuel)
            /\ respects (keeps (on_store P))
                 (Signals.menu interrupt_at get_close_matches fuel)
            /\ respects (keeps (on_store P))
                 (Signals.main interrupt_at get_close_matches fuel)).
  { apply respects_sale_at; try typeclasses eauto;
      intros w product data qty Hget Hq Hp;
      unfold on_store, commit, half_commit; simpl;
      apply Hstep; assumption. }
  induction 1 as [ins | w _ IH | fuel w _ IH | w _ IH | fuel w _ IH
                 | fuel w _ IH | ins w _ IH].
  - exact Hinit.
  - exact (respects_show_stock_at (keeps (on_store P)) w IH).
  - exact (proj1 (Hsale fuel) w IH).
  - exact (respects_show_total_at (keeps (on_store P)) w IH).
  - exact (proj1 (proj2 (Hsale fuel)) w IH).
  - exact (proj2 (proj2 (Hsale fuel)) w IH).
  - exact IH.
Qed.








(** *** Interrupts at the prompts only *)

Hypothesis at_prompts_only : quiet interrupt_at.

Lemma quiet_checkpoint (line : Z) (w : World) :
  Signals.checkpoint interrupt_at line w = (Return tt, w).
Proof. unfold Signals.checkpoint. rewrite at_prompts_only. reflexivity. Qed.

Lemma quiet_print (line : Z) (text : string) :
  agrees (Signals.print interrupt_at line text) (print text).
Proof.
  intro w. unfold Signals.print, bind, print. apply quiet_checkpoint.
Qed.

Lemma quiet_sleep (line : Z) (seconds : float) :
  agrees (Signals.sleep interrupt_at line seconds) (sleep seconds).
Proof. intro w. apply quiet_checkpoint. Qed.

Lemma quiet_cart_append (line : Z) (l : CartLine) :
  agrees (Signals.cart_append interrupt_at line l) (cart_append l).
Proof.
  intro w. unfold Signals.cart_append, bind, cart_append. apply quiet_checkpoint.
Qed.

Lemma quiet_stock_set_quantity (line : Z) (product : string) (q : Z) :
  agrees (Signals.stock_set_quantity interrupt_at line product q)
         (stock_set_quantity product q).
Proof.
  intro w. unfold Signals.stock_set_quantity, bind at 1.
  destruct (stock_set_quantity product q w) as [[[] | e | | ] w1];
    try reflexivity.
  apply quiet_checkpoint.
Qed.

Lemma quiet_safe_input (prompt : string) :
  agrees (Signals.safe_input interrupt_at prompt) (safe_input prompt).
Proof.
  intro w. unfold Signals.safe_input, safe_input, try_except, Signals.input,
    bind at 1.
  destruct (input prompt w) as [[text | e | | ] w1]; try reflexivity.
  unfold bind. rewrite quiet_checkpoint. reflexivity.
Qed.

Ltac agrees_tac :=
  repeat first
    [ progress intros
    | assumption
    | apply quiet_print | apply quiet_sleep | apply quiet_cart_append
    | apply quiet_stock_set_quantity | apply quiet_safe_input
    | apply agrees_while_true | apply agrees_for_each | apply agrees_for_fold
    | apply agrees_bind | apply agrees_try_except
    | match goal with
      | |- agrees (match ?x with _ => _ end) _ => destruct x
      | |- agrees (let _ := _ in _) _ => cbv zeta
      end
    | apply agrees_refl ].

Lemma quiet_read_positive_int (fuel : nat) (prompt : string) (minimum : Z)
    (maximum : option Z) :
  agrees (Signals.read_positive_int interrupt_at fuel prompt minimum maximum)
         (read_positive_int fuel prompt minimum maximum).
Proof.
  unfold Signals.read_positive_int, read_positive_int,
    Signals.read_positive_int_body, read_positive_int_body.
  agrees_tac.
Qed.

Lemma quiet_show_stock : agrees (Signals.show_stock interrupt_at) show_stock.
Proof. unfold Signals.show_stock, show_stock. agrees_tac. Qed.

Lemma quiet_show_total : agrees (Signals.show_total interrupt_at) show_total.
Proof. unfold Signals.show_total, show_total. agrees_tac. Qed.

Lemma quiet_choose_product_name (fuel : nat) :
  agrees (Signals.choose_product_name interrupt_at get_close_matches fuel)
         (choose_product_name fuel).
Proof.
  pose proof (quiet_read_positive_int fuel) as Hr.
  unfold Signals.choose_product_name, choose_product_name,
    Signals.choose_product_name_body, choose_product_name_body.
  agrees_tac.
Qed.

Lemma quiet_add_product (fuel : nat) :
  agrees (Signals.add_product interrupt_at get_close_matches fuel)
         (add_product fuel).
Proof.
  pose proof (quiet_read_positive_int fuel) as Hr.
  pose proof (quiet_choose_product_name fuel) as Hc.
  unfold Signals.add_product, add_product.
  agrees_tac.
Qed.

Lemma quiet_menu_body (fuel : nat) :
  agrees (Signals.menu_body interrupt_at get_close_matches fuel) (menu_body fuel).
Proof.
  pose proof (quiet_add_product fuel) as Ha.
  pose proof quiet_show_stock as Hs.
  pose proof quiet_show_total as Ht.
  unfold Signals.menu_body, menu_body.
  agrees_tac.
Qed.

Lemma quiet_menu (fuel : nat) :
  agrees (Signals.menu interrupt_at get_close_matches fuel) (menu fuel).
Proof.
  unfold Signals.menu, menu. apply agrees_while_true. apply quiet_menu_body.
Qed.

Lemma quiet_main (fuel : nat) :
  agrees (Signals.main interrupt_at get_close_matches fuel) (main fuel).
Proof.
  pose proof (quiet_menu fuel) as Hm.
  unfold Signals.main, main.
  agrees_tac.
Qed.

Lemma quiet_reachable (w : World) :
  reachable_under interrupt_at w -> reachable w.
Proof.
  induction 1 as [ins | w _ IH | fuel w _ IH | w _ IH | fuel w _ IH
                 | fuel w _ IH | ins w _ IH].
  - apply reachable_start.
  - rewrite quiet_show_stock. apply reachable_show_stock. exact IH.
  - rewrite quiet_add_product. apply reachable_add_product. exact IH.
  - rewrite quiet_show_total. apply reachable_show_total. exact IH.
  - rewrite quiet_menu. apply reachable_menu. exact IH.
  - rewrite quiet_main. apply reachable_main. exact IH.
  - apply reachable_input. exact IH.
Qed.

End Interrupts.

(** *** The claims about interrupts *)



(** *** Further properties, whatever the interrupts *)

(** X1: in every state of the script, whatever the interrupts, nothing
    that was seeded is lost: for every product, the quantity in the catalog
    and the quantities of the product in the lines of the cart add up to
    the seeded quantity or more; and to the seeded quantity exactly when no
    interrupt arrives between two statements. *)
Theorem stock_conservation_under_interrupts (interrupt_at : Z -> World -> bool)
    (w : World) :
  reachable_under interrupt_at w ->
  forall product seeded,
    dict_get initial_stock product = Some seeded ->
    exists data,
      dict_get (stock w) product = Some data
      /\ quantity seeded <= quantity data + cart_quantity product (cart w)
      /\ (quiet interrupt_at ->
          quantity data + cart_quantity product (cart w) = quantity seeded).
Proof.
  intros Hr product seeded Hs.
  assert (Hn : never_lost (stock w) (cart w)).
  { revert w Hr. apply (reachable_under_store interrupt_at never_lost).
    - intros p s Hp. exists s. simpl. split; [exact Hp | lia].
    - intros d c p data qty Hc Hget Hq. split; intros other s Ho;
        destruct (Hc other s Ho) as (data0 & Hget0 & Hsum);
        rewrite cart_quantity_app; simpl.
      + exists data0. split; [exact Hget0 |].
        destruct (String.eqb other p); lia.
      + destruct (String.eqb other p) eqn:E.
        * apply String.eqb_eq in E. subst other.
          rewrite Hget0 in Hget. inversion Hget; subst data0.
          exists (mkProduct (price data) (quantity data - qty)).
          split; [apply dict_get_set_same; exact Hget0 | simpl; lia].
        * apply String.eqb_neq in E. exists data0.
          split; [rewrite dict_get_set_other; assumption | lia]. }
  destruct (Hn product seeded Hs) as (data & Hget & Hle).
  exists data. split; [exact Hget |]. split; [exact Hle |].
  intro Hq.
  destruct (stock_conservation w (quiet_reachable interrupt_at Hq w Hr)
              product seeded Hs) as (data' & Hget' & Heq).
  rewrite Hget in Hget'. inversion Hget'; subst data'. exact Heq.
Qed.

(** X16: whatever the interrupts, [add_product] leaves the catalog and the
    cart as they were, or it has appended the line of a valid sale to the
    cart, the catalog being updated for it or, when the interrupt fell
    between the two updates, as it was. *)
Theorem add_product_under_interrupts (interrupt_at : Z -> World -> bool)
    (fuel : nat) (w : World) :
  let w' := snd (Signals.add_product interrupt_at get_close_matches fuel w) in
  same_store w w'
  \/ exists product data qty,
       dict_get (stock w) product = Some data
       /\ 1 <= qty <= quantity data
       /\ cart w' = (cart w ++ [(product, qty, price data)])%list
       /\ (stock w' = stock w
           \/ stock w'
              = dict_set_quantity (stock w) product (quantity data - qty)).
Proof.
  cbv zeta.
  destruct (interrupted_sale interrupt_at same_store fuel w)
    as [[Hs _] | (w2 & product & data & qty & out & [[Hs Hc] _] & Hget & Hq & E)];
    [left; exact Hs | right].
  exists product, data, qty. rewrite <- Hs, <- Hc.
  split; [exact Hget |]. split; [exact Hq |].
  destruct E as [-> | ->]; unfold emit_all, half_commit, commit; simpl; auto.
Qed.

(** X17: whatever the interrupts, every state of the script keeps the
    invariant of the catalog and of the cart: the catalog has the seeded
    keys and prices and quantities between 0 and the seeded ones, and every
    line of the cart holds a seeded product, its seeded price and a quantity
    from 1 to the seeded quantity. *)
Theorem store_ok_under_interrupts (interrupt_at : Z -> World -> bool)
    (w : World) :
  reachable_under interrupt_at w -> store_ok w.
Proof.
  apply (reachable_under_store interrupt_at
           (fun d c => catalog_ok d /\ Forall line_ok c)).
  - exact (initial_store_ok []).
  - intros d c product data qty Hok Hget Hq.
    pose proof (store_ok_commit (mkWorld d c [] []) product data qty Hok Hget Hq)
      as [Hcat Hcart].
    unfold commit in Hcat, Hcart. simpl in Hcat, Hcart.
    split; split; try assumption. exact (proj1 Hok).
Qed.

(** X18: whatever the state, the input and the interrupts, [add_product],
    [menu] and [main] only add lines at the end of the cart, keep the keys
    and the prices of the catalog, and let no quantity go up. *)
Theorem store_only_grows_under_interrupts (interrupt_at : Z -> World -> bool)
    (fuel : nat) (w : World) :
  grows w (snd (Signals.add_product interrupt_at get_close_matches fuel w))
  /\ grows w (snd (Signals.menu interrupt_at get_close_matches fuel w))
  /\ grows w (snd (Signals.main interrupt_at get_close_matches fuel w)).
Proof.
  assert (H : respects grows (Signals.add_product interrupt_at get_close_matches fuel)
              /\ respects grows (Signals.menu interrupt_at get_close_matches fuel)
              /\ respects grows (Signals.main interrupt_at get_close_matches fuel)).
  { apply respects_sale_at; try typeclasses eauto;
      intros w0 product data qty Hget Hq; unfold grows, commit, half_commit;
      simpl; (split; [eexists; reflexivity |]).
    - split; [reflexivity |]. intros other data' Hget'. exists data'.
      split; [exact Hget' | split; [reflexivity | lia]].
    - split; [apply keys_set_quantity |].
      intros other data' Hget'.
      destruct (String.eqb other product) eqn:E.
      + apply String.eqb_eq in E. subst other.
        rewrite (dict_get_set_same _ _ _ _ Hget) in Hget'.
        inversion Hget'; subst data'. exists data. simpl.
        split; [exact Hget | split; [reflexivity | lia]].
      + apply String.eqb_neq in E.
        rewrite dict_get_set_other in Hget' by exact E.
        exists data'. split; [exact Hget' | split; [reflexivity | lia]]. }
  destruct H as (Ha & Hm & Hmain).
  split; [apply Ha | split; [apply Hm | apply Hmain]].
Qed.

End Script.

(** ** The script with the library's [get_close_matches] *)

Lemma difflib_at_most (word : string) (possibilities : list string) (n : nat)
    (cutoff : float) :
  (List.length (difflib.get_close_matches word possibilities n cutoff) <= n)%nat.
Proof.
  unfold difflib.get_close_matches, difflib.nlargest.
  rewrite length_map. apply firstn_le_length.
Qed.


(** The example of the library's documentation. *)
Example appel_suggests_apple_ape :
  difflib.get_close_matches "appel" ["ape"; "apple"; "peach"; "puppy"] 3%nat 0.6%float
  = ["apple"; "ape"].
Proof. vm_compute. reflexivity. Qed.

(** The scenario of the misspelt name: [bens] is offered [beans]. *)
Example bens_suggests_beans :
  difflib.get_close_matches "bens" (keys initial_stock) 3%nat 0.6%float = ["beans"].
Proof. vm_compute. reflexivity. Qed.

(** ** Interrupted runs *)



(** ** The claims at concrete inputs *)

Lemma add_product_success_witness :
  let w := initial_world [Line "rice"; Line "3"] in
  let w1 := set_stdin [Line "3"]
              (emit (Prompted "Enter the product name (or 0 to cancel): ") w) in
  let w2 := set_stdin [] (emit (Prompted (quantity_prompt 10)) w1) in
  ("rice" <> EmptyString
   /\ dict_get (stock w) "rice" = Some (mkProduct 5.5 10)
   /\ 0 < 10
   /\ choose_product_name difflib.get_close_matches 3 w = (Return (Some "rice"), w1)
   /\ read_positive_int 3 (quantity_prompt 10) 1 None w1 = (Return 3, w2)
   /\ 3 <= 10)
  /\ add_product difflib.get_close_matches 3 w =
     (Return tt,
      emit (Printed "3x rice added to cart!") (commit "rice" 3 5.5 (10 - 3) w2)).
Proof.
  intros w w1 w2.
  assert (H1 : "rice" <> EmptyString) by discriminate.
  assert (H2 : dict_get (stock w) "rice" = Some (mkProduct 5.5 10)) by reflexivity.
  assert (H3 : 0 < 10) by lia.
  assert (H4 : choose_product_name difflib.get_close_matches 3 w = (Return (Some "rice"), w1))
    by (vm_compute; reflexivity).
  assert (H5 : read_positive_int 3 (quantity_prompt 10) 1 None w1 = (Return 3, w2))
    by (vm_compute; reflexivity).
  assert (H6 : 3 <= 10) by lia.
  split; [repeat split; assumption |].
  exact (proj1 (proj2 (proj1 (add_product_success difflib.get_close_matches)
                         3%nat w "rice" 5.5%float 10 3 w1 w2 H1 H2 H3 H4 H5 H6))).
Defined.

Lemma add_product_stock_check_witness :
  let w := after_rice [Line "rice"; Line "20"] in
  let w1 := set_stdin [Line "20"]
              (emit (Prompted "Enter the product name (or 0 to cancel): ") w) in
  let w2 := set_stdin [] (emit (Prompted (quantity_prompt 7)) w1) in
  ("rice" <> EmptyString
   /\ dict_get (stock w) "rice" = Some (mkProduct 5.5 7)
   /\ 0 < 7
   /\ choose_product_name difflib.get_close_matches 3 w = (Return (Some "rice"), w1)
   /\ read_positive_int 3 (quantity_prompt 7) 1 None w1 = (Return 20, w2)
   /\ 7 < 20)
  /\ add_product difflib.get_close_matches 3 w =
     (Return tt, emit (Printed "Not enough stock. Only 7 left.") w2)
  /\ stock (snd (add_product difflib.get_close_matches 3 w)) = stock w
  /\ cart (snd (add_product difflib.get_close_matches 3 w)) = cart w.
Proof.
  intros w w1 w2.
  assert (H1 : "rice" <> EmptyString) by discriminate.
  assert (H2 : dict_get (stock w) "rice" = Some (mkProduct 5.5 7)) by reflexivity.
  assert (H3 : 0 < 7) by lia.
  assert (H4 : choose_product_name difflib.get_close_matches 3 w = (Return (Some "rice"), w1))
    by (vm_compute; reflexivity).
  assert (H5 : read_positive_int 3 (quantity_prompt 7) 1 None w1 = (Return 20, w2))
    by (vm_compute; reflexivity).
  assert (H6 : 7 < 20) by lia.
  split; [repeat split; assumption |].
  exact (proj2 (proj2 (add_product_stock_check difflib.get_close_matches 3%nat w
                         "rice" 5.5%float 7 20 w1 w2 H1 H2 H3 H4 H5)) H6).
Defined.

Lemma show_total_spec_witness :
  let w := after_rice [] in
  (cart w <> [] /\ cart_sum 0%float (cart w) = Some 16.5%float)
  /\ exists lines,
       map line_report (cart w) = map Some lines
       /\ show_total w =
          (Return tt,
           emit_all
             (Printed (nl ++ "=== SHOPPING CART ===") :: lines
                ++ [Printed (nl ++ "Total purchase value: " ++ fmt_money 16.5)])
             w).
Proof.
  intro w.
  assert (H1 : cart w <> []) by discriminate.
  assert (H2 : cart_sum 0%float (cart w) = Some 16.5%float) by reflexivity.
  split; [split; assumption |].
  exact (proj1 (proj2 (show_total_spec difflib.get_close_matches w))
           H1 16.5%float H2).
Defined.

Lemma catalog_invariant_witness :
  let w := snd (run difflib.get_close_matches [Line "2"; Line "rice"; Line "3"]) in
  reachable difflib.get_close_matches w
  /\ keys (stock w) = keys initial_stock
  /\ forall product data,
       dict_get (stock w) product = Some data ->
       0 <= quantity data
       /\ exists seeded,
            dict_get initial_stock product = Some seeded
            /\ price data = price seeded.
Proof.
  intro w.
  assert (H : reachable difflib.get_close_matches w)
    by (apply reachable_main; apply reachable_start).
  split; [exact H | exact (catalog_invariant difflib.get_close_matches w H)].
Defined.

Lemma choose_product_name_spec_witness :
  let w := initial_world [Line "bens"; Line "1"] in
  let w1 := set_stdin [Line "1"]
              (emit (Prompted "Enter the product name (or 0 to cancel): ") w) in
  let w2 := emit_all (suggestions ["beans"]) w1 in
  ((forall word possibilities n cutoff,
      (List.length (difflib.get_close_matches word possibilities n cutoff) <= n)%nat)
   /\ (List.length (stdin w) < 3)%nat
   /\ stdin w = Line "bens" :: [Line "1"])
  /\ choose_product_name difflib.get_close_matches 3 w =
     (Return (Some "beans"), set_stdin [] (emit (Prompted "Choose an option: ") w2)).
Proof.
  intros w w1 w2.
  assert (H1 : forall word possibilities n cutoff,
            (List.length (difflib.get_close_matches word possibilities n cutoff) <= n)%nat)
    by exact difflib_at_most.
  assert (H2 : (List.length (stdin w) < 3)%nat) by (simpl; lia).
  assert (H3 : stdin w = Line "bens" :: [Line "1"]) by reflexivity.
  split; [repeat split; assumption |].
  destruct (choose_product_name_spec difflib.get_close_matches 3%nat w "bens"
              [Line "1"] H1 H2 H3)
    as (_ & _ & H).
  destruct H as [_ H]; [discriminate | discriminate | reflexivity |].
  destruct H as [_ H]; [vm_compute; discriminate |].
  destruct (H "1" [] 1 eq_refl eq_refl) as [_ Hc].
  destruct Hc as (m & Hm & Hc); [vm_compute; split; discriminate |].
  vm_compute in Hm. inversion Hm; subst m. exact Hc.
Defined.

Lemma read_positive_int_spec_witness :
  let w := initial_world [Line "abc"; Line "0"; Line "9"; Line " 4 "] in
  let rpi := read_positive_int 5 "Choose an option: " 1 (Some 5) in
  let w' := snd (rpi w) in
  (rpi w = (Return 4, w')
   /\ (List.length (stdin w) < 5)%nat
   /\ stdin w = Line "abc" :: [Line "0"; Line "9"; Line " 4 "]
   /\ int_of_str (strip "abc") = None)
  /\ (1 <= 4 /\ forall m, Some 5 = Some m -> 4 <= m)
  /\ rpi w =
     rpi (emit (Printed "Invalid input: please enter an integer.")
            (set_stdin [Line "0"; Line "9"; Line " 4 "]
               (emit (Prompted "Choose an option: ") w)))
  /\ stdout w' =
     [ Prompted "Choose an option: ";
       Printed "Invalid input: please enter an integer.";
       Prompted "Choose an option: ";
       Printed "Attention: please enter an integer >= 1.";
       Prompted "Choose an option: ";
       Printed "Attention: the maximum allowed is 5.";
       Prompted "Choose an option: " ].
Proof.
  intros w rpi w'.
  assert (H1 : rpi w = (Return 4, w')) by (vm_compute; reflexivity).
  assert (H2 : (List.length (stdin w) < 5)%nat) by (simpl; lia).
  assert (H3 : stdin w = Line "abc" :: [Line "0"; Line "9"; Line " 4 "])
    by reflexivity.
  assert (H4 : int_of_str (strip "abc") = None) by reflexivity.
  split; [repeat split; assumption |].
  destruct (read_positive_int_spec "Choose an option: " 1 (Some 5))
    as (Hrange & Hnot & _).
  split; [exact (Hrange 5%nat w 4 w' H1) |].
  split; [exact (Hnot 5%nat w "abc" _ H2 H3 H4) |].
  vm_compute. reflexivity.
Defined.



Lemma display_is_read_only_witness :
  let w := after_rice [] in
  let w3 := Nat.iter 3 (fun w' => snd (show_total w')) w in
  same_store w w3
  /\ fst (show_total w3) = fst (show_total w)
  /\ emitted show_total w3 = emitted show_total w
  /\ emitted show_total w =
     [ Printed (nl ++ "=== SHOPPING CART ===");
       Printed "Rice x3 - € 16.50";
       Printed (nl ++ "Total purchase value: € 16.50") ].
Proof.
  intros w w3.
  destruct (proj2 (proj2 (display_is_read_only w)) 3%nat) as (H1 & H2 & H3).
  split; [exact H1 |]. split; [exact H2 |]. split; [exact H3 |].
  vm_compute. reflexivity.
Defined.

Lemma final_stock_is_show_stock_witness :
  let w := after_rice [] in
  let w1 := set_stdin [Line "1"; Line "0"] w in
  let w4 := set_stdin [Line " 4 "; Line "0"] w in
  (strip "1" = "1" /\ strip " 4 " = "4")
  /\ menu_body difflib.get_close_matches 3 w4 = menu_body difflib.get_close_matches 3 w1
  /\ menu difflib.get_close_matches 3 w4 = menu difflib.get_close_matches 3 w1
  /\ emitted (menu_body difflib.get_close_matches 3) w4 =
     (menu_banner ++
      [ Printed (nl ++ "=== AVAILABLE STOCK ===");
        Printed "Beans - Price: € 7.20 | Quantity: 8";
        Printed "Oil - Price: € 6.00 | Quantity: 5";
        Printed "Pasta - Price: € 3.80 | Quantity: 15";
        Printed "Rice - Price: € 5.50 | Quantity: 7" ])%list.
Proof.
  intros w w1 w4.
  assert (H1 : strip "1" = "1") by reflexivity.
  assert (H4 : strip " 4 " = "4") by reflexivity.
  split; [split; assumption |].
  destruct (final_stock_is_show_stock difflib.get_close_matches 3%nat w
              "1" " 4 " [Line "0"] H1 H4)
    as (Hbody & Hmenu & _).
  split; [exact Hbody |]. split; [apply Hmenu; lia |].
  vm_compute. reflexivity.
Defined.

(** ** The further properties at concrete inputs *)

Lemma stock_conservation_under_interrupts_witness :
  let interrupt_at := fun (line : Z) (_ : World) => line =? 132 in
  let w := snd (Signals.main interrupt_at difflib.get_close_matches 5
                  (initial_world [Line "2"; Line "rice"; Line "3"; Line "0"])) in
  (reachable_under difflib.get_close_matches interrupt_at w
   /\ dict_get initial_stock "rice" = Some (mkProduct 5.5 10))
  /\ cart w = [("rice", 3, 5.5%float)]
  /\ exists data,
       dict_get (stock w) "rice" = Some data
       /\ 10 <= quantity data + cart_quantity "rice" (cart w).
Proof.
  intros interrupt_at w.
  assert (H1 : reachable_under difflib.get_close_matches interrupt_at w)
    by (apply under_main; apply under_start).
  assert (H2 : dict_get initial_stock "rice" = Some (mkProduct 5.5 10))
    by reflexivity.
  split; [split; assumption |]. split; [vm_compute; reflexivity |].
  destruct (stock_conservation_under_interrupts difflib.get_close_matches
              interrupt_at w H1 "rice" _ H2) as (data & Hget & Hle & _).
  exists data. split; [exact Hget | exact Hle].
Defined.

Lemma store_ok_under_interrupts_witness :
  let interrupt_at := fun (line : Z) (_ : World) => line =? 132 in
  let w := snd (Signals.main interrupt_at difflib.get_close_matches 5
                  (initial_world [Line "2"; Line "rice"; Line "3"; Line "0"])) in
  reachable_under difflib.get_close_matches interrupt_at w
  /\ cart w = [("rice", 3, 5.5%float)]
  /\ stock w = initial_stock
  /\ store_ok w.
Proof.
  intros interrupt_at w.
  assert (H1 : reachable_under difflib.get_close_matches interrupt_at w)
    by (apply under_main; apply under_start).
  split; [exact H1 |]. split; [vm_compute; reflexivity |].
  split; [vm_compute; reflexivity |].
  exact (store_ok_under_interrupts difflib.get_close_matches interrupt_at w H1).
Defined.

Lemma cart_lines_valid_witness :
  let w := snd (run difflib.get_close_matches [Line "2"; Line "rice"; Line "3"]) in
  (reachable difflib.get_close_matches w
   /\ In ("rice", 3, 5.5%float) (cart w))
  /\ exists seeded,
       dict_get initial_stock "rice" = Some seeded
       /\ 5.5%float = price seeded
       /\ 1 <= 3 <= quantity seeded.
Proof.
  intro w.
  assert (H1 : reachable difflib.get_close_matches w)
    by (apply reachable_main; apply reachable_start).
  assert (H2 : In ("rice", 3, 5.5%float) (cart w))
    by (vm_compute; left; reflexivity).
  split; [split; assumption |].
  exact (cart_lines_valid difflib.get_close_matches w H1 "rice" 3 5.5%float H2).
Defined.

Lemma show_stock_spec_witness :
  let w := after_rice [] in
  stock w <> []
  /\ exists products lines,
       Permutation (keys (stock w)) products
       /\ Sorted (fun a b => String.leb a b = true) products
       /\ Forall2 (fun product line =>
                     exists data,
                       dict_get (stock w) product = Some data
                       /\ line = stock_line product data)
                  products lines
       /\ show_stock w =
          (Return tt, emit_all (Printed (nl ++ "=== AVAILABLE STOCK ===") :: lines) w).
Proof.
  intro w.
  assert (H1 : stock w <> []) by discriminate.
  split; [exact H1 |].
  exact (proj2 (show_stock_spec w) H1).
Defined.

Lemma show_stock_shows_entry_witness :
  let w := after_rice [] in
  dict_get (stock w) "rice" = Some (mkProduct 5.5 7)
  /\ In (Printed "Rice - Price: € 5.50 | Quantity: 7") (emitted show_stock w).
Proof.
  intro w.
  assert (H1 : dict_get (stock w) "rice" = Some (mkProduct 5.5 7)) by reflexivity.
  split; [exact H1 |].
  exact (show_stock_shows_entry w "rice" (mkProduct 5.5 7) H1).
Defined.

Lemma read_positive_int_first_acceptable_witness :
  let w := initial_world [Line "abc"; Line "0"; Line "9"; Line " 4 "; Line "5"] in
  ((List.length (stdin w) < 6)%nat
   /\ stdin w = (map Line ["abc"; "0"; "9"] ++ Line " 4 " :: [Line "5"])%list
   /\ Forall (fun t => forall v', ~ acceptable 1 (Some 5) t v') ["abc"; "0"; "9"]
   /\ acceptable 1 (Some 5) " 4 " 4)
  /\ exists out,
       read_positive_int 6 "Choose an option: " 1 (Some 5) w
         = (Return 4, set_stdin [Line "5"] (emit_all out w))
       /\ count_prompts out = 4%nat
       /\ List.length out = 7%nat.
Proof.
  intro w.
  assert (H1 : (List.length (stdin w) < 6)%nat) by (simpl; lia).
  assert (H2 : stdin w
               = (map Line ["abc"; "0"; "9"] ++ Line " 4 " :: [Line "5"])%list)
    by reflexivity.
  assert (H3 : Forall (fun t => forall v', ~ acceptable 1 (Some 5) t v')
                 ["abc"; "0"; "9"]).
  { repeat constructor; intros v' (Hi & Hmin & Hmax); vm_compute in Hi;
      try discriminate; inversion Hi; subst v';
      [lia | specialize (Hmax 5 eq_refl); lia]. }
  assert (H4 : acceptable 1 (Some 5) " 4 " 4).
  { split; [reflexivity |]. split; [lia |].
    intros m Hm. inversion Hm. lia. }
  split; [exact (conj H1 (conj H2 (conj H3 H4))) |].
  exact (read_positive_int_first_acceptable 6%nat "Choose an option: " 1 (Some 5)
           w ["abc"; "0"; "9"] " 4 " 4 [Line "5"] H1 H2 H3 H4).
Defined.




Lemma add_product_sold_out_witness :
  let w := mkWorld (dict_set_quantity initial_stock "oil" 0)
             [("oil", 5, 6%float)] [Line "oil"; Line "1"] [] in
  let w1 := set_stdin [Line "1"]
              (emit (Prompted "Enter the product name (or 0 to cancel): ") w) in
  ("oil" <> EmptyString
   /\ dict_get (stock w) "oil" = Some (mkProduct 6 0)
   /\ quantity (mkProduct 6 0) <= 0
   /\ choose_product_name difflib.get_close_matches 3 w = (Return (Some "oil"), w1))
  /\ add_product difflib.get_close_matches 3 w =
     (Return tt, emit (Printed "No stock available for 'oil'.") w1).
Proof.
  intros w w1.
  assert (H1 : "oil" <> EmptyString) by discriminate.
  assert (H2 : dict_get (stock w) "oil" = Some (mkProduct 6 0)) by reflexivity.
  assert (H3 : quantity (mkProduct 6 0) <= 0) by (simpl; lia).
  assert (H4 : choose_product_name difflib.get_close_matches 3 w
               = (Return (Some "oil"), w1)) by (vm_compute; reflexivity).
  split; [exact (conj H1 (conj H2 (conj H3 H4))) |].
  exact (proj1 (add_product_sold_out difflib.get_close_matches 3%nat w "oil"
                  (mkProduct 6 0) w1 H1 H2 H3 H4)).
Defined.

Lemma menu_at_end_of_file_witness :
  let w := initial_world [CtrlD; CtrlD] in
  (stdin w = repeat CtrlD 2 /\ (2 < 3)%nat)
  /\ menu difflib.get_close_matches 3 w =
     (Blocked,
      mkWorld initial_stock [] []
        (menu_banner ++ error_report EOFError
         ++ menu_banner ++ error_report EOFError ++ menu_banner)%list)
  /\ error_report EOFError =
     [ Printed "Unexpected error: EOFError: ";
       Printed "The system will continue running." ].
Proof.
  intro w.
  assert (H1 : stdin w = repeat CtrlD 2) by reflexivity.
  assert (H2 : (2 < 3)%nat) by lia.
  split; [split; assumption |]. split; [| reflexivity].
  exact (menu_at_end_of_file difflib.get_close_matches 2%nat 3%nat w H1 H2).
Defined.

Lemma safe_input_is_input_witness :
  let w := initial_world [CtrlD; Line "1"] in
  stdin w = CtrlD :: [Line "1"]
  /\ fst (safe_input "Choose an option: " w) = Raise EOFError.
Proof.
  intro w.
  assert (H1 : stdin w = CtrlD :: [Line "1"]) by reflexivity.
  split; [exact H1 |].
  exact (proj2 (proj2 (safe_input_is_input "Choose an option: " w)) _ H1).
Defined.

Lemma fmt_money_two_decimals_witness :
  is_amount 16.5%float
  /\ exists sign whole d1 d2,
       fmt_money 16.5 =
       CURRENCY ++ " " ++ sign ++ whole ++ "." ++ String d1 (String d2 EmptyString)
       /\ (sign = EmptyString \/ sign = "-")
       /\ whole <> EmptyString
       /\ all_digits whole
       /\ 48 <= ord d1 <= 57
       /\ 48 <= ord d2 <= 57.
Proof.
  assert (H1 : is_amount 16.5%float) by (vm_compute; exact I).
  split; [exact H1 |].
  exact (fmt_money_two_decimals 16.5%float H1).
Defined.

(** ** Sessions *)

(** A name is found whatever its case and the white space around it. *)
Example resolver_ignores_case :
  choose_product_name difflib.get_close_matches 2 (initial_world [Line "  RiCe "])
  = (Return (Some "rice"),
     mkWorld initial_stock [] []
       [Prompted "Enter the product name (or 0 to cancel): "]).
Proof. vm_compute. reflexivity. Qed.

(** Add 3 rice, check out, leave. *)
Example session_rice :
  let r := run difflib.get_close_matches
             [Line "2"; Line "rice"; Line "3"; Line "3"; Line "0"] in
  fst r = Return tt
  /\ cart (snd r) = [("rice", 3, 5.5%float)]
  /\ dict_get (stock (snd r)) "rice" = Some (mkProduct 5.5 7)
  /\ skipn 7 (stdout (snd r)) =
     (Prompted "Enter the product name (or 0 to cancel): "
      :: Prompted "Enter the desired quantity (available: 10): "
      :: Printed "3x rice added to cart!"
      :: menu_banner
      ++ Printed (nl ++ "=== SHOPPING CART ===")
      :: Printed "Rice x3 - € 16.50"
      :: Printed (nl ++ "Total purchase value: € 16.50")
      :: menu_banner
      ++ [Printed "Exiting system..."])%list.
Proof. vm_compute. repeat split. Qed.

(** An end of file in the middle of [add_product] is reported by the menu,
    which goes on. *)
Example session_end_of_file :
  let r := run difflib.get_close_matches [Line "2"; CtrlD; Line "0"] in
  fst r = Return tt
  /\ skipn 7 (stdout (snd r)) =
     (Prompted "Enter the product name (or 0 to cancel): "
      :: Printed "Unexpected error: EOFError: "
      :: Printed "The system will continue running."
      :: menu_banner
      ++ [Printed "Exiting system..."])%list.
Proof. vm_compute. repeat split. Qed.
